(** * Thermal inspection backend: model integrity gate and batch ingestion

    A shallow embedding of
      - [backend/app/services/model_loader.py] (class [ProductionModelLoader]),
      - [backend/app/api/upload.py] (the batch upload, status, listing and
        deletion routes),
      - [backend/app/api/auth.py] (registration, listing and activation of
        users),
      - [backend/app/services/intelligent_report_generator.py] (the control
        flow of [generate_comprehensive_report] and of its generators),
    together with the properties that the specification states about them
    (C1 to C10) and further properties of the code (X1 onwards).

    Python code that mutates [self], the file system or the database session
    is written in a state-and-exception monad: a raised exception keeps the
    state changes made before the [raise], exactly as in Python. *)

From stdpp Require Import gmap strings list fin_maps pretty sorting.
From Stdlib Require Import ZArith Lia.

Set Default Proof Using "Type".

(** ** Outcomes and stateful actions *)

Inductive Outcome (E A : Type) : Type :=
| Return (a : A)
| Raise (e : E).
Arguments Return {E A} a.
Arguments Raise {E A} e.

Definition Act (S E A : Type) : Type := S -> Outcome E A * S.

Definition ret {S E A} (a : A) : Act S E A := fun s => (Return a, s).
Definition raise {S E A} (e : E) : Act S E A := fun s => (Raise e, s).
Definition bind {S E A B} (m : Act S E A) (k : A -> Act S E B) : Act S E B :=
  fun s => match m s with
           | (Return a, s') => k a s'
           | (Raise e, s') => (Raise e, s')
           end.
Definition gets {S E A} (f : S -> A) : Act S E A := fun s => (Return (f s), s).
Definition modify {S E} (f : S -> S) : Act S E unit := fun s => (Return tt, f s).
(** [lift o]: an outcome fixed by the environment, used as an action. *)
Definition lift {S E A} (o : Outcome E A) : Act S E A := fun s => (o, s).

(** [try: body except Exception as e: handler e].  The handler runs in the
    state the body left behind. *)
Definition try_except {S E A} (body : Act S E A) (handler : E -> Act S E A)
  : Act S E A :=
  fun s => match body s with
           | (Return a, s') => (Return a, s')
           | (Raise e, s') => handler e s'
           end.

Declare Scope act_scope.
Delimit Scope act_scope with act.
Notation "'let!' x ':=' m 'in' k" := (bind m (fun x => k))
  (at level 10, x name, m at level 100, k at level 200) : act_scope.
Notation "m '>>' k" := (bind m (fun _ => k))
  (at level 62, right associativity) : act_scope.

Ltac act_unfold :=
  unfold bind, ret, raise, gets, modify, lift, try_except in *.

(** The newline character of Python's ["\n"]. *)
Definition newline : string := String (Ascii.ascii_of_nat 10) EmptyString.

(** ** The model integrity gate ([services/model_loader.py]) *)

Module ModelLoader.

(** The exception classes the loader distinguishes.  [OtherException] stands
    for every other subclass of [Exception] (OSError, KeyError,
    AttributeError, RuntimeError, ...). *)
Inductive PyExc : Type :=
| ModelIntegrityError (msg : string)
| ModelLoadingError (msg : string)
| ImportError (msg : string)
| OtherException (msg : string).

(** [str(e)] *)
Definition exc_str (e : PyExc) : string :=
  match e with
  | ModelIntegrityError m | ModelLoadingError m | ImportError m
  | OtherException m => m
  end.

Definition is_integrity_error (e : PyExc) : bool :=
  match e with ModelIntegrityError _ => true | _ => false end.
Definition is_loading_error (e : PyExc) : bool :=
  match e with ModelLoadingError _ => true | _ => false end.

(** One entry of [self.model_config]. *)
Record ModelConfigEntry : Type := mkConfig {
  filename : string;
  expected_sha256 : option string;   (* None until first verification *)
  url : string;
  description : string;
  version : string
}.

Definition set_expected (h : string) (c : ModelConfigEntry) : ModelConfigEntry :=
  {| filename := filename c; expected_sha256 := Some h; url := url c;
     description := description c; version := version c |}.

(** The dictionary handed to [_save_model_metadata]. *)
Record FileMetadata : Type := mkFileMetadata {
  checksum : string;
  file_size : nat;
  last_verified : string;
  fm_version : string
}.

(** A network object, told apart by where its weights came from:
    [models.get(.., pretrained_weights=None)] gives [RandomInit];
    [load_state_dict] of a state dictionary read by [torch.load] gives
    [FromStateDict]; [models.get(.., pretrained_weights=tag)] gives the
    remotely fetched [Pretrained tag]. *)
Inductive Net : Type :=
| RandomInit
| FromStateDict (state_dict : string)
| Pretrained (tag : string).

(** A Python value that is either [None] or a network object. *)
Inductive PyObj : Type :=
| PyNone
| PyModel (n : Net).

(** Calls that leave the process, in the order they are made. *)
Inductive Event : Type :=
| EvSha256 (path : string)                       (* hashing of a file *)
| EvWriteMetadata (path : string)                (* json.dump of metadata *)
| EvModelsGet (pretrained_weights : option string)
| EvTorchLoad (path : string)
| EvLoadStateDict.

Definition is_deserialization (e : Event) : bool :=
  match e with
  | EvModelsGet _ | EvTorchLoad _ | EvLoadStateDict => true
  | _ => false
  end.

(** The two shapes of the megabyte figures the loader reports: the literal
    zero, and [round(n / 1024 / 1024, 2)] for a byte count [n] (kept
    symbolic, as the division and rounding are floating point). *)
Inductive Megabytes : Type :=
| ZeroMB
| RoundMB (nbytes : nat).

Section Loader.

(** What the loader takes from libraries and from the machine it runs on. *)
Variable sha256 : string -> string.          (* hashlib.sha256(..).hexdigest() *)
Variable json_dump : FileMetadata -> string. (* json.dump(metadata, f, indent=2) *)
Variable now : string.                       (* datetime.now().isoformat() *)

(** The machine-learning runtime: which imports work and what the library
    calls do on the given arguments. *)
Record MLRuntime : Type := mkRuntime {
  import_models : Outcome PyExc unit;      (* from super_gradients.training import models *)
  import_torch : Outcome PyExc unit;       (* import torch *)
  models_get_outcome : option string -> Outcome PyExc bool;
    (* models.get('yolo_nas_s', pretrained_weights=..): raises, or returns an
       object ([true]) or None ([false]) *)
  torch_load_outcome : string -> Outcome PyExc string;
    (* torch.load on a file with these bytes: the state dictionary *)
  load_state_dict_outcome : string -> Outcome PyExc unit;
  model_nbytes : Net -> Outcome PyExc nat
    (* sum of nelement * element_size over parameters and buffers *)
}.
Variable rt : MLRuntime.

(** [self.model_metadata[model_name]] *)
Record LoadInfo : Type := mkLoadInfo {
  loaded_at : string;
  li_version : string;
  li_status : string;
  memory_size_mb : Megabytes
}.

(** The loader object together with the directory it works on.  [disk] maps
    a path to the bytes of the file there; reading an existing file and
    writing a file always succeed in this model of the file system. *)
Record World : Type := mkWorld {
  models_dir : string;
  model_config : gmap string ModelConfigEntry;
  loaded_models : gmap string Net;
  model_metadata : gmap string LoadInfo;
  disk : gmap string string;
  events : list Event
}.

Local Abbreviation M := (Act World PyExc).

Definition with_config (f : gmap string ModelConfigEntry -> gmap string ModelConfigEntry)
    (w : World) : World :=
  {| models_dir := models_dir w; model_config := f (model_config w);
     loaded_models := loaded_models w; model_metadata := model_metadata w;
     disk := disk w; events := events w |}.
Definition with_disk (f : gmap string string -> gmap string string)
    (w : World) : World :=
  {| models_dir := models_dir w; model_config := model_config w;
     loaded_models := loaded_models w; model_metadata := model_metadata w;
     disk := f (disk w); events := events w |}.
Definition with_loaded (name : string) (n : Net) (info : LoadInfo)
    (w : World) : World :=
  {| models_dir := models_dir w; model_config := model_config w;
     loaded_models := <[name := n]> (loaded_models w);
     model_metadata := <[name := info]> (model_metadata w);
     disk := disk w; events := events w |}.
Definition log (e : Event) (w : World) : World :=
  {| models_dir := models_dir w; model_config := model_config w;
     loaded_models := loaded_models w; model_metadata := model_metadata w;
     disk := disk w; events := events w ++ [e] |}.

(** [self.models_dir / name], for a directory written as [Path] keeps it,
    without a trailing separator. *)
Definition path_join (dir name : string) : string := dir +:+ "/" +:+ name.
Definition model_path (w : World) (c : ModelConfigEntry) : string :=
  path_join (models_dir w) (filename c).
Definition metadata_path (w : World) (model_name : string) : string :=
  path_join (models_dir w) (model_name +:+ "_metadata.json").

(** [__init__]: one configured artifact, no checksum pinned. *)
Definition initial_config : gmap string ModelConfigEntry :=
  {[ "yolo_nas_s" :=
       {| filename := "yolo_nas_s_coco.pth";
          expected_sha256 := None;
          url := "https://sghub.deci.ai/models/yolo_nas_s_coco.pth";
          description := "YOLO-NAS Small model trained on COCO dataset";
          version := "1.0" |} ]}.

Definition init (dir : string) (d : gmap string string) : World :=
  {| models_dir := dir; model_config := initial_config;
     loaded_models := ∅; model_metadata := ∅; disk := d; events := [] |}.

Local Open Scope act_scope.

(** [_save_model_metadata]: the write is wrapped in [try/except Exception]
    whose handler only logs a warning; with writes that succeed the handler
    is never entered. *)
Definition _save_model_metadata (model_name : string) (metadata : FileMetadata)
  : M unit :=
  let! metadata_file := gets (fun w => metadata_path w model_name) in
  try_except
    (modify (log (EvWriteMetadata metadata_file)) >>
     modify (with_disk <[metadata_file := json_dump metadata]>))
    (fun _ => ret tt).

(** The text of the mismatch error raised inside the [try] block. *)
Definition mismatch_message (model_name expected calculated : string) : string :=
  "Model " +:+ model_name +:+ " integrity check FAILED!" +:+ newline
  +:+ "Expected: " +:+ String.substring 0 16 expected +:+ "..." +:+ newline
  +:+ "Calculated: " +:+ String.substring 0 16 calculated +:+ "..." +:+ newline
  +:+ "File may be corrupted or tampered with!".

(** [verify_model_integrity] *)
Definition verify_model_integrity (model_name : string) : M bool :=
  let! known := gets (fun w => model_config w !! model_name) in
  match known with
  | None => raise (ModelIntegrityError ("Unknown model: " +:+ model_name))
  | Some config =>
    let! path := gets (fun w => model_path w config) in
    let! file := gets (fun w => disk w !! path) in
    match file with
    | None => raise (ModelIntegrityError ("Model file not found: " +:+ path))
    | Some content =>
      try_except
        (modify (log (EvSha256 path)) >>
         let calculated_checksum := sha256 content in
         match expected_sha256 config with
         | None =>
           modify (with_config (<[model_name := set_expected calculated_checksum config]>)) >>
           _save_model_metadata model_name
             {| checksum := calculated_checksum;
                file_size := String.length content;
                last_verified := now;
                fm_version := version config |} >>
           ret true
         | Some expected =>
           if bool_decide (calculated_checksum ≠ expected)
           then raise (ModelIntegrityError
                         (mismatch_message model_name expected calculated_checksum))
           else ret true
         end)
        (fun e => raise (ModelIntegrityError
                           ("Failed to verify model " +:+ model_name +:+ ": "
                            +:+ exc_str e)))
    end
  end.

(** Library calls, each recorded in [events]. *)
Definition models_get (pretrained_weights : option string) : M PyObj :=
  modify (log (EvModelsGet pretrained_weights)) >>
  let! made := lift (models_get_outcome rt pretrained_weights) in
  ret (if made : bool
       then PyModel (match pretrained_weights with
                     | None => RandomInit
                     | Some tag => Pretrained tag
                     end)
       else PyNone).

(** [torch.load(model_path, map_location='cpu')] *)
Definition torch_load (path : string) : M string :=
  modify (log (EvTorchLoad path)) >>
  let! file := gets (fun w => disk w !! path) in
  match file with
  | None => raise (OtherException ("No such file or directory: " +:+ path))
  | Some content => lift (torch_load_outcome rt content)
  end.

(** [model.load_state_dict(state_dict)]: on [None] the attribute lookup
    raises before any library call is made. *)
Definition load_state_dict (model : PyObj) (state_dict : string) : M PyObj :=
  match model with
  | PyNone => raise (OtherException "'NoneType' object has no attribute 'load_state_dict'")
  | PyModel _ =>
    modify (log EvLoadStateDict) >>
    lift (load_state_dict_outcome rt state_dict) >>
    ret (PyModel (FromStateDict state_dict))
  end.

(** [model.eval()] *)
Definition model_eval (model : PyObj) : M Net :=
  match model with
  | PyNone => raise (OtherException "'NoneType' object has no attribute 'eval'")
  | PyModel n => ret n
  end.

(** [_estimate_model_size]: every exception gives 0.0. *)
Definition _estimate_model_size (model : Net) : M Megabytes :=
  try_except
    (lift (import_torch rt) >>
     let! total := lift (model_nbytes rt model) in
     ret (RoundMB total))
    (fun _ => ret ZeroMB).

(** [self.model_config[model_name][..]]: a KeyError when absent. *)
Definition config_of (model_name : string) : M ModelConfigEntry :=
  let! known := gets (fun w => model_config w !! model_name) in
  match known with
  | Some config => ret config
  | None => raise (OtherException ("KeyError: " +:+ model_name))
  end.

(** The innermost [try] of [load_yolo_nas_model]: read the local checkpoint
    into [model]; on any exception fall back to the pretrained weights. *)
Definition load_local_checkpoint (path : string) (model : PyObj) : M PyObj :=
  try_except
    (lift (import_torch rt) >>
     let! state_dict := torch_load path in
     load_state_dict model state_dict)
    (fun load_error => models_get (Some "coco")).

(** Step 2 of [load_yolo_nas_model]: the inner [try] block with its two
    [except] clauses. *)
Definition load_into_memory (model_name : string) : M PyObj :=
  try_except
    (lift (import_models rt) >>
     let! config := config_of model_name in
     let! path := gets (fun w => model_path w config) in
     (* Try to load from local file first *)
     let! present := gets (fun w => bool_decide (is_Some (disk w !! path))) in
     let! model :=
       (if present : bool
        then let! fresh := models_get None in
             load_local_checkpoint path fresh
        else models_get (Some "coco")) in
     let! net := model_eval model in
     let! config := config_of model_name in
     let! size := _estimate_model_size net in
     modify (with_loaded model_name net
               {| loaded_at := now; li_version := version config;
                  li_status := "loaded"; memory_size_mb := size |}) >>
     ret (PyModel net))
    (fun e =>
       match e with
       | ImportError _ =>
         raise (ModelLoadingError
                  ("Required ML libraries not available: " +:+ exc_str e))
       | _ =>
         raise (ModelLoadingError
                  ("Failed to load YOLO-NAS model: " +:+ exc_str e))
       end).

(** [load_yolo_nas_model] *)
Definition load_yolo_nas_model : M PyObj :=
  let model_name := "yolo_nas_s" in
  try_except
    ((* Step 1: verify model integrity *)
     verify_model_integrity model_name >>
     (* Step 2: attempt to load model *)
     load_into_memory model_name)
    (fun e =>
       match e with
       | ModelIntegrityError _ => raise e     (* re-raised as it is *)
       | _ =>
         raise (ModelLoadingError
                  ("Unexpected error loading model " +:+ model_name +:+ ": "
                   +:+ exc_str e))
       end).

(** One value of [status["models_available"]]. *)
Record ModelStatus : Type := mkModelStatus {
  file_exists : bool;
  file_size_mb : Megabytes;
  ms_version : string;
  loaded : bool;
  integrity_verified : bool
}.

Definition set_verified (b : bool) (m : ModelStatus) : ModelStatus :=
  {| file_exists := file_exists m; file_size_mb := file_size_mb m;
     ms_version := ms_version m; loaded := loaded m;
     integrity_verified := b |}.

(** The dictionary [get_model_status] returns. *)
Record StatusReport : Type := mkStatusReport {
  models_directory : string;
  models_available : gmap string ModelStatus;
  loaded_model_names : list string;
  integrity_status : string;
  last_check : string
}.

(** The body of [for model_name, config in self.model_config.items()].
    The loop reads [filename] and [version] of [config], which no call
    changes, so iterating over the items taken at loop entry is the same as
    reading them from the live dictionary. *)
Definition status_of_model (model_name : string) (config : ModelConfigEntry)
  : M ModelStatus :=
  let! path := gets (fun w => model_path w config) in
  let! file := gets (fun w => disk w !! path) in
  let! is_loaded := gets (fun w => bool_decide (is_Some (loaded_models w !! model_name))) in
  let model_status :=
    {| file_exists := bool_decide (is_Some file);
       file_size_mb := match file with
                       | Some content => RoundMB (String.length content)
                       | None => ZeroMB
                       end;
       ms_version := version config;
       loaded := is_loaded;
       integrity_verified := false |} in
  (* Check integrity if file exists *)
  let! present := gets (fun w => bool_decide (is_Some (disk w !! path))) in
  if present : bool
  then try_except
         (verify_model_integrity model_name >>
          ret (set_verified true model_status))
         (fun e => match e with
                   | ModelIntegrityError _ => ret (set_verified false model_status)
                   | _ => raise e
                   end)
  else ret model_status.

Fixpoint status_loop (items : list (string * ModelConfigEntry))
    (available : gmap string ModelStatus) : M (gmap string ModelStatus) :=
  match items with
  | [] => ret available
  | (model_name, config) :: rest =>
    let! model_status := status_of_model model_name config in
    status_loop rest (<[model_name := model_status]> available)
  end.

(** [all(m["integrity_verified"] for m in .. if m["file_exists"])] *)
Definition all_verified (available : gmap string ModelStatus) : bool :=
  forallb (fun kv => integrity_verified kv.2)
          (List.filter (fun kv => file_exists kv.2) (map_to_list available)).

(** [get_model_status].  The items are visited in the order of
    [map_to_list]; Python visits them in insertion order.  With the one
    artifact of [__init__] the two agree. *)
Definition get_model_status : M StatusReport :=
  let! dir := gets models_dir in
  let! names := gets (fun w => (map_to_list (loaded_models w)).*1) in
  let! items := gets (fun w => map_to_list (model_config w)) in
  let! available := status_loop items ∅ in
  ret {| models_directory := dir;
         models_available := available;
         loaded_model_names := names;
         integrity_status := if all_verified available then "verified" else "failed";
         last_check := now |}.

(** [initialize_all_models] *)
Definition initialize_all_models : M bool :=
  try_except
    (let! yolo_model := load_yolo_nas_model in
     match yolo_model with
     | PyNone => raise (ModelLoadingError "YOLO-NAS model returned None")
     | PyModel _ => ret true
     end)
    (fun e =>
       match e with
       | ModelIntegrityError _ | ModelLoadingError _ => raise e
       | _ =>
         raise (ModelLoadingError
                  ("Unexpected model initialization error: " +:+ exc_str e))
       end).

(** *** Properties of the integrity gate *)

(** C3: what [verify_model_integrity] does in each case.  An artifact that
    is not configured, or whose file is missing, raises
    [ModelIntegrityError] and changes nothing.  With the file present and no
    checksum pinned, the call returns [True], pins the SHA-256 of the file as
    the expected checksum and writes it to the metadata file.  With a
    checksum pinned, the call returns [True] when the file's SHA-256 equals
    it and raises [ModelIntegrityError] when it differs; the pinned value
    stays as it was in both cases. *)
Theorem verify_model_integrity_cases (w : World) (model_name : string) :
  (model_config w !! model_name = None ->
     exists msg, verify_model_integrity model_name w
                 = (Raise (ModelIntegrityError msg), w)) /\
  (forall config, model_config w !! model_name = Some config ->
     (disk w !! model_path w config = None ->
        exists msg, verify_model_integrity model_name w
                    = (Raise (ModelIntegrityError msg), w)) /\
     (forall content, disk w !! model_path w config = Some content ->
        (expected_sha256 config = None ->
           exists w',
             verify_model_integrity model_name w = (Return true, w') /\
             model_config w' !! model_name
               = Some (set_expected (sha256 content) config) /\
             disk w' !! metadata_path w model_name
               = Some (json_dump {| checksum := sha256 content;
                                    file_size := String.length content;
                                    last_verified := now;
                                    fm_version := version config |})) /\
        (forall pinned, expected_sha256 config = Some pinned ->
           (sha256 content = pinned ->
              verify_model_integrity model_name w
              = (Return true, log (EvSha256 (model_path w config)) w)) /\
           (sha256 content <> pinned ->
              exists msg,
                verify_model_integrity model_name w
                = (Raise (ModelIntegrityError msg),
                   log (EvSha256 (model_path w config)) w))))).
Proof.
  split.
  - intros Hcfg. unfold verify_model_integrity. act_unfold.
    rewrite Hcfg. eauto.
  - intros config Hcfg. split.
    + intros Hfile. unfold verify_model_integrity. act_unfold.
      rewrite Hcfg, Hfile. eauto.
    + intros content Hfile. split.
      * intros Hnone. unfold verify_model_integrity, _save_model_metadata.
        act_unfold. rewrite Hcfg, Hfile, Hnone. cbn.
        eexists. split; [reflexivity|]. cbn. split.
        -- apply lookup_insert_eq.
        -- unfold metadata_path. cbn. apply lookup_insert_eq.
      * intros pinned Hpin. split.
        -- intros Heq. unfold verify_model_integrity. act_unfold.
           rewrite Hcfg, Hfile, Hpin. cbn.
           rewrite bool_decide_eq_false_2; [reflexivity | intros Hne; exact (Hne Heq)].
        -- intros Hne. unfold verify_model_integrity. act_unfold.
           rewrite Hcfg, Hfile, Hpin. cbn.
           rewrite bool_decide_eq_true_2 by exact Hne. eauto.
Qed.

(** *** How a verification changes the world *)

(** The world after a first verification of [model_name]: the file was
    hashed, the checksum pinned, the metadata file written. *)
Definition pinned_world (w : World) (model_name : string)
    (config : ModelConfigEntry) (content : string) : World :=
  with_disk
    <[metadata_path w model_name :=
        json_dump {| checksum := sha256 content;
                     file_size := String.length content;
                     last_verified := now;
                     fm_version := version config |}]>
    (log (EvWriteMetadata (metadata_path w model_name))
       (with_config <[model_name := set_expected (sha256 content) config]>
          (log (EvSha256 (model_path w config)) w))).

Inductive VerifyRun (w : World) (model_name : string)
  : Outcome PyExc bool * World -> Prop :=
| VerifyRejected msg :
    (model_config w !! model_name = None \/
     exists config, model_config w !! model_name = Some config /\
                    disk w !! model_path w config = None) ->
    VerifyRun w model_name (Raise (ModelIntegrityError msg), w)
| VerifyPinned config content :
    model_config w !! model_name = Some config ->
    disk w !! model_path w config = Some content ->
    expected_sha256 config = None ->
    VerifyRun w model_name (Return true, pinned_world w model_name config content)
| VerifyMatched config content :
    model_config w !! model_name = Some config ->
    disk w !! model_path w config = Some content ->
    expected_sha256 config = Some (sha256 content) ->
    VerifyRun w model_name (Return true, log (EvSha256 (model_path w config)) w)
| VerifyMismatch config content pinned msg :
    model_config w !! model_name = Some config ->
    disk w !! model_path w config = Some content ->
    expected_sha256 config = Some pinned ->
    sha256 content <> pinned ->
    VerifyRun w model_name
      (Raise (ModelIntegrityError msg), log (EvSha256 (model_path w config)) w).

Lemma verify_run (w : World) (model_name : string) :
  VerifyRun w model_name (verify_model_integrity model_name w).
Proof.
  unfold verify_model_integrity, _save_model_metadata. act_unfold.
  destruct (model_config w !! model_name) as [config|] eqn:Hcfg.
  - destruct (disk w !! model_path w config) as [content|] eqn:Hfile.
    + destruct (expected_sha256 config) as [pinned|] eqn:Hexp; cbn.
      * case_bool_decide as Hne; cbn.
        -- by eapply VerifyMismatch.
        -- subst pinned. by eapply VerifyMatched.
      * exact (VerifyPinned w model_name config content Hcfg Hfile Hexp).
    + apply VerifyRejected. right. eauto.
  - apply VerifyRejected. by left.
Qed.

(** [w'] may differ from [w] only by what a verification can do: file
    names and versions stay, a pinned checksum stays, files are never
    removed. *)
Definition entry_extends (c c' : ModelConfigEntry) : Prop :=
  filename c' = filename c /\ version c' = version c /\
  (forall h, expected_sha256 c = Some h -> expected_sha256 c' = Some h).

Record extends (w w' : World) : Prop := mkExtends {
  ext_dir : models_dir w' = models_dir w;
  ext_loaded : loaded_models w' = loaded_models w;
  ext_config : forall m,
    option_Forall2 entry_extends (model_config w !! m) (model_config w' !! m);
  ext_disk : forall p, is_Some (disk w !! p) -> is_Some (disk w' !! p)
}.

Lemma entry_extends_refl c : entry_extends c c.
Proof. by repeat split. Qed.

Lemma extends_refl w : extends w w.
Proof.
  split; try done.
  intros m. destruct (model_config w !! m); constructor.
  apply entry_extends_refl.
Qed.

Lemma extends_trans w1 w2 w3 : extends w1 w2 -> extends w2 w3 -> extends w1 w3.
Proof.
  intros [Hd1 Hl1 Hc1 Hk1] [Hd2 Hl2 Hc2 Hk2]. split.
  - congruence.
  - congruence.
  - intros m. specialize (Hc1 m). specialize (Hc2 m).
    destruct Hc1 as [c1 c2 (Hf1 & Hv1 & He1)|]; inversion Hc2 as [? c3 (Hf2 & Hv2 & He2)|];
      subst; constructor.
    repeat split; try congruence. intros h Hh. by apply He2, He1.
  - intros p Hp. by apply Hk2, Hk1.
Qed.

Lemma extends_log w e : extends w (log e w).
Proof.
  split; try done.
  intros m. cbn. destruct (model_config w !! m); constructor.
  apply entry_extends_refl.
Qed.

Lemma extends_pinned w model_name config content :
  model_config w !! model_name = Some config ->
  expected_sha256 config = None ->
  extends w (pinned_world w model_name config content).
Proof.
  intros Hcfg Hexp. split; try done.
  - intros m. cbn. destruct (decide (model_name = m)) as [<-|Hne].
    + rewrite lookup_insert_eq, Hcfg. constructor.
      repeat split. intros h Hh. congruence.
    + rewrite lookup_insert_ne by done.
      destruct (model_config w !! m); constructor. apply entry_extends_refl.
  - intros p Hp. cbn. rewrite lookup_insert_is_Some.
    destruct (decide (metadata_path w model_name = p)); auto.
Qed.

Arguments verify_model_integrity : simpl never.

Lemma verify_extends w model_name :
  extends w (verify_model_integrity model_name w).2.
Proof.
  pose proof (verify_run w model_name) as Hrun.
  destruct Hrun; cbn; auto using extends_refl, extends_log, extends_pinned.
Qed.

Lemma verify_raises_integrity w model_name e :
  (verify_model_integrity model_name w).1 = Raise e -> is_integrity_error e = true.
Proof.
  pose proof (verify_run w model_name) as Hrun.
  destruct Hrun; cbn; intros [= <-]; done.
Qed.

(** The status entry before the integrity check, and the flag the check
    contributes. *)
Definition base_status (w : World) (model_name : string)
    (config : ModelConfigEntry) : ModelStatus :=
  {| file_exists := bool_decide (is_Some (disk w !! model_path w config));
     file_size_mb := match disk w !! model_path w config with
                     | Some content => RoundMB (String.length content)
                     | None => ZeroMB
                     end;
     ms_version := version config;
     loaded := bool_decide (is_Some (loaded_models w !! model_name));
     integrity_verified := false |}.

Definition returned {A} (o : Outcome PyExc A) : bool :=
  match o with Return _ => true | Raise _ => false end.

Lemma status_of_model_eq model_name config w :
  status_of_model model_name config w =
  match disk w !! model_path w config with
  | None => (Return (base_status w model_name config), w)
  | Some _ =>
    (Return (set_verified (returned (verify_model_integrity model_name w).1)
                          (base_status w model_name config)),
     (verify_model_integrity model_name w).2)
  end.
Proof.
  unfold status_of_model, base_status. act_unfold.
  pose proof (verify_raises_integrity w model_name) as Hraise.
  cbn -[verify_model_integrity].
  destruct (disk w !! model_path w config) as [content|] eqn:Hfile;
    [|reflexivity].
  cbn -[verify_model_integrity].
  destruct (verify_model_integrity model_name w) as [[b|e] w']; cbn in *.
  - reflexivity.
  - specialize (Hraise e eq_refl). by destruct e.
Qed.

Lemma status_of_model_extends model_name config w :
  extends w (status_of_model model_name config w).2.
Proof.
  rewrite status_of_model_eq.
  destruct (disk w !! model_path w config); cbn;
    auto using extends_refl, verify_extends.
Qed.

Lemma status_loop_returns items available w :
  exists result, (status_loop items available w).1 = Return result /\
    forall m, is_Some (result !! m) <->
              is_Some (available !! m) \/ m ∈ items.*1.
Proof.
  revert available w. induction items as [|[m0 c0] items IH]; intros available w.
  - exists available. split; [done|]. intros m. cbn.
    rewrite elem_of_nil. tauto.
  - cbn [status_loop]. unfold bind at 1. rewrite status_of_model_eq.
    destruct (disk w !! model_path w c0).
    all: match goal with
         | |- context [status_loop _ ?acc ?w'] =>
           destruct (IH acc w') as (result & Hres & Hdom)
         end;
      exists result; (split; [exact Hres|]);
      intros m; rewrite Hdom, lookup_insert_is_Some; cbn;
      rewrite elem_of_cons; destruct (decide (m0 = m)); intuition (subst; auto).
Qed.

Lemma status_loop_extends items available w :
  extends w (status_loop items available w).2.
Proof.
  revert available w. induction items as [|[m0 c0] items IH]; intros available w.
  - apply extends_refl.
  - cbn [status_loop]. unfold bind at 1.
    pose proof (status_of_model_extends m0 c0 w) as Hstep.
    rewrite status_of_model_eq in *.
    destruct (disk w !! model_path w c0); cbn in *;
      eapply extends_trans; eauto.
Qed.

(** Whether the file of [config] passes verification in [w]: it exists and
    either nothing is pinned yet or its SHA-256 is the pinned one. *)
Definition passes (w : World) (config : ModelConfigEntry) : bool :=
  match disk w !! model_path w config with
  | None => false
  | Some content =>
    match expected_sha256 config with
    | None => true
    | Some pinned => bool_decide (sha256 content = pinned)
    end
  end.

Definition report_of (w : World) (model_name : string)
    (config : ModelConfigEntry) : ModelStatus :=
  set_verified (passes w config) (base_status w model_name config).

(** No model file lives at the path of a metadata file. *)
Definition no_collision (w : World) : Prop :=
  forall m c n, model_config w !! m = Some c ->
                model_path w c <> metadata_path w n.

Record agree (w wi : World) : Prop := mkAgree {
  agree_dir : models_dir wi = models_dir w;
  agree_loaded : loaded_models wi = loaded_models w;
  agree_files : forall m c, model_config w !! m = Some c ->
    disk wi !! model_path w c = disk w !! model_path w c
}.

Lemma agree_refl w : agree w w.
Proof. by split. Qed.

Lemma status_step w wi m c :
  no_collision w -> agree w wi ->
  model_config w !! m = Some c -> model_config wi !! m = Some c ->
  exists wi',
    status_of_model m c wi = (Return (report_of w m c), wi') /\
    agree w wi' /\
    (forall m', m' <> m -> model_config wi' !! m' = model_config wi !! m').
Proof.
  intros Hnc [Hdir Hld Hfiles] Hcfg Hcfgi.
  assert (Hpath : model_path wi c = model_path w c)
    by (unfold model_path; by rewrite Hdir).
  assert (Hbase : base_status wi m c = base_status w m c).
  { unfold base_status. by rewrite Hpath, (Hfiles m c Hcfg), Hld. }
  rewrite status_of_model_eq, Hbase, Hpath, (Hfiles m c Hcfg).
  unfold report_of, passes.
  destruct (disk w !! model_path w c) as [content|] eqn:Hfile.
  - pose proof (Hfiles m c Hcfg) as Hfilei. rewrite Hfile, <- Hpath in Hfilei.
    destruct (verify_run wi m) as
      [msg [Hno|(c' & Hc' & Hno)] | c' content' Hc' Hf' Hexp
       | c' content' Hc' Hf' Hexp | c' content' pinned msg Hc' Hf' Hexp Hne];
      cbn [fst snd returned].
    + congruence.
    + congruence.
    + assert (c' = c) by congruence. subst c'.
      assert (content' = content) by congruence. subst content'.
      rewrite Hexp. eexists. split; [reflexivity|]. split.
      * split; try done. intros m2 c2 Hc2. cbn.
        rewrite lookup_insert_ne; [by apply (Hfiles m2)|].
        unfold metadata_path. rewrite Hdir. intros Heq.
        by apply (Hnc m2 c2 m Hc2).
      * intros m' Hm'. cbn. by rewrite lookup_insert_ne.
    + assert (c' = c) by congruence. subst c'.
      assert (content' = content) by congruence. subst content'.
      rewrite Hexp, bool_decide_eq_true_2 by done.
      eexists. split; [reflexivity|]. split; [by split|done].
    + assert (c' = c) by congruence. subst c'.
      assert (content' = content) by congruence. subst content'.
      rewrite Hexp, bool_decide_eq_false_2 by done.
      eexists. split; [reflexivity|]. split; [by split|done].
  - eexists. split; [reflexivity|]. split; [by split|done].
Qed.

Definition add_report (w : World) (available : gmap string ModelStatus)
    (item : string * ModelConfigEntry) : gmap string ModelStatus :=
  <[item.1 := report_of w item.1 item.2]> available.

Lemma status_loop_reports w items :
  no_collision w -> NoDup items.*1 ->
  (forall m c, (m, c) ∈ items -> model_config w !! m = Some c) ->
  forall wi available,
    agree w wi ->
    (forall m c, (m, c) ∈ items -> model_config wi !! m = Some c) ->
    (status_loop items available wi).1
    = Return (foldl (add_report w) available items).
Proof.
  intros Hnc. induction items as [|[m0 c0] items IH];
    intros Hnd Hcfg wi available Hag Hcfgi; [done|].
  apply NoDup_cons in Hnd as [Hnotin Hnd].
  cbn [status_loop foldl]. unfold bind at 1.
  destruct (status_step w wi m0 c0 Hnc Hag) as (wi' & -> & Hag' & Hother).
  { apply Hcfg. by left. }
  { apply Hcfgi. by left. }
  apply IH; auto.
  - intros m c Hin. apply Hcfg. by right.
  - intros m c Hin. rewrite Hother.
    + apply Hcfgi. by right.
    + intros ->. apply Hnotin. apply list_elem_of_fmap. by exists (m0, c).
Qed.

Lemma foldl_add_report_lookup w items :
  NoDup items.*1 ->
  forall available m,
    foldl (add_report w) available items !! m
    = match list_find (fun item => item.1 = m) items with
      | Some (_, item) => Some (report_of w m item.2)
      | None => available !! m
      end.
Proof.
  induction items as [|[m0 c0] items IH]; intros Hnd available m; [done|].
  apply NoDup_cons in Hnd as [Hnotin Hnd].
  cbn [foldl list_find]. rewrite IH by done. cbn.
  destruct (decide (m0 = m)) as [->|Hne].
  - destruct (list_find (fun item => item.1 = m) items) as [[i [m1 c1]]|] eqn:Hfind.
    + apply list_find_Some in Hfind as (Hlk & Heq & _). cbn in Heq. subst m1.
      exfalso. apply Hnotin. apply list_elem_of_fmap. exists (m, c1).
      split; [done|]. by eapply list_elem_of_lookup_2.
    + cbn. unfold add_report. cbn. by rewrite lookup_insert_eq.
  - destruct (list_find (fun item => item.1 = m) items) as [[i [m1 c1]]|]; cbn.
    + done.
    + unfold add_report. cbn. by rewrite lookup_insert_ne.
Qed.

(** Every configured artifact whose file exists already has a checksum. *)
Definition settled (w : World) : Prop :=
  forall m c, model_config w !! m = Some c ->
              is_Some (disk w !! model_path w c) -> is_Some (expected_sha256 c).

(** [w'] is [w] with more events. *)
Definition same_state (w w' : World) : Prop :=
  models_dir w' = models_dir w /\ model_config w' = model_config w /\
  loaded_models w' = loaded_models w /\ model_metadata w' = model_metadata w /\
  disk w' = disk w.

Lemma status_of_model_settled w m c :
  settled w -> model_config w !! m = Some c ->
  same_state w (status_of_model m c w).2.
Proof.
  intros Hset Hcfg. rewrite status_of_model_eq.
  destruct (disk w !! model_path w c) as [content|] eqn:Hfile; [|done].
  destruct (verify_run w m) as
    [msg _ | c' content' Hc' Hf' Hexp | c' content' Hc' Hf' Hexp
     | c' content' pinned msg Hc' Hf' Hexp Hne]; cbn [snd]; try done.
  assert (c' = c) by congruence. subst c'.
  destruct (Hset m c Hcfg) as [h Hh]; [eauto|congruence].
Qed.

Lemma status_loop_settled items :
  forall available w w0,
    settled w0 -> same_state w0 w ->
    (forall m c, (m, c) ∈ items -> model_config w0 !! m = Some c) ->
    same_state w0 (status_loop items available w).2.
Proof.
  induction items as [|[m0 c0] items IH]; intros available w w0 Hset Hsame Hcfg;
    [done|].
  cbn [status_loop]. unfold bind at 1.
  assert (Hset' : settled w).
  { destruct Hsame as (Hd & Hc & _ & _ & Hk). intros m c.
    unfold model_path. rewrite Hd, Hc, Hk. apply Hset. }
  assert (Hcfg0 : model_config w !! m0 = Some c0).
  { destruct Hsame as (_ & -> & _). apply Hcfg. by left. }
  pose proof (status_of_model_settled w m0 c0 Hset' Hcfg0) as Hstep.
  rewrite status_of_model_eq in *.
  destruct (disk w !! model_path w c0); cbn [snd] in Hstep; apply IH; auto.
  - destruct Hsame as (? & ? & ? & ? & ?), Hstep as (? & ? & ? & ? & ?).
    repeat split; congruence.
  - intros m c Hin. apply Hcfg. by right.
  - intros m c Hin. apply Hcfg. by right.
Qed.

Lemma status_loop_pins items :
  forall available w m c c0,
    (m, c) ∈ items ->
    model_config w !! m = Some c0 -> filename c0 = filename c ->
    is_Some (disk w !! model_path w c) ->
    exists c', model_config (status_loop items available w).2 !! m = Some c' /\
               is_Some (expected_sha256 c').
Proof.
  induction items as [|[m1 c1] items IH]; intros available w m c c0 Hin Hcfg Hname Hfile.
  { by apply elem_of_nil in Hin. }
  cbn [status_loop]. unfold bind at 1.
  pose proof (status_of_model_extends m1 c1 w) as Hext.
  rewrite status_of_model_eq in *.
  apply elem_of_cons in Hin as [[= <- <-]|Hin].
  - destruct Hfile as [content Hfile]. rewrite Hfile in *. cbn [snd] in *.
    match goal with
    | |- context [status_loop _ ?acc ?w1] =>
      pose proof (status_loop_extends items acc w1) as Hrest
    end.
    assert (Hpinned : exists c', model_config (verify_model_integrity m w).2 !! m = Some c'
                                 /\ is_Some (expected_sha256 c')).
    { assert (Hpath : model_path w c0 = model_path w c)
        by (unfold model_path; by rewrite Hname).
      destruct (verify_run w m) as
        [msg [Hno|(c' & Hc' & Hno)] | c' content' Hc' Hf' Hexp
         | c' content' Hc' Hf' Hexp | c' content' pinned msg Hc' Hf' Hexp Hne];
        cbn [snd].
      - congruence.
      - assert (c' = c0) by congruence. subst c'. congruence.
      - eexists. split; [apply lookup_insert_eq|]. cbn. eauto.
      - exists c'. split; [done|]. eauto.
      - exists c'. split; [done|]. eauto. }
    destruct Hpinned as (c' & Hc' & [h Hh]).
    pose proof (ext_config _ _ Hrest m) as Hm. rewrite Hc' in Hm.
    inversion Hm as [? c'' (_ & _ & Hkeep) Heq1 Heq2|]. subst.
    exists c''. split; [done|]. rewrite (Hkeep h Hh). eauto.
  - pose proof (ext_config _ _ Hext m) as Hm. rewrite Hcfg in Hm.
    assert (Hdir := ext_dir _ _ Hext).
    assert (Hdisk := ext_disk _ _ Hext (model_path w c) Hfile).
    destruct (disk w !! model_path w c1); cbn [snd] in *;
      inversion Hm as [? c0' (Hn' & _ & _) Heq1 Heq2|]; subst;
      eapply IH; eauto; try congruence;
      unfold model_path in *; by rewrite Hdir.
Qed.

Lemma filter_all_false {A} (f : A -> bool) (l : list A) :
  (forall x, x ∈ l -> f x = false) -> List.filter f l = [].
Proof.
  induction l as [|x l IH]; intros Hall; [done|]. cbn.
  rewrite (Hall x) by by left. apply IH. intros y Hy. apply Hall. by right.
Qed.

Lemma status_loop_no_files items :
  forall available w,
    (forall m c, (m, c) ∈ items -> disk w !! model_path w c = None) ->
    (forall m ms, available !! m = Some ms ->
                  file_exists ms = false /\ integrity_verified ms = false) ->
    exists result,
      status_loop items available w = (Return result, w) /\
      (forall m ms, result !! m = Some ms ->
                    file_exists ms = false /\ integrity_verified ms = false).
Proof.
  induction items as [|[m0 c0] items IH]; intros available w Hfiles Havail.
  { exists available. by split. }
  cbn [status_loop]. unfold bind at 1. rewrite status_of_model_eq.
  rewrite (Hfiles m0 c0) by by left.
  apply IH.
  - intros m c Hin. apply (Hfiles m). by right.
  - intros m ms. rewrite lookup_insert. case_decide.
    + intros [= <-]. unfold base_status. cbn.
      rewrite (Hfiles m0 c0) by by left. done.
    + apply Havail.
Qed.

Lemma get_model_status_eq w :
  exists available,
    status_loop (map_to_list (model_config w)) ∅ w
    = (Return available, (status_loop (map_to_list (model_config w)) ∅ w).2) /\
    get_model_status w
    = (Return {| models_directory := models_dir w;
                 models_available := available;
                 loaded_model_names := (map_to_list (loaded_models w)).*1;
                 integrity_status :=
                   if all_verified available then "verified" else "failed";
                 last_check := now |},
       (status_loop (map_to_list (model_config w)) ∅ w).2).
Proof.
  destruct (status_loop_returns (map_to_list (model_config w)) ∅ w)
    as (available & Hres & _).
  exists available. unfold get_model_status. act_unfold.
  destruct (status_loop (map_to_list (model_config w)) ∅ w) as [o w'].
  cbn in Hres. subst o. by split.
Qed.

(** The report of [get_model_status] and what the call keeps. *)
Lemma get_model_status_frame (w : World) :
  exists report w',
    get_model_status w = (Return report, w') /\
    (forall m, is_Some (models_available report !! m)
               <-> is_Some (model_config w !! m)) /\
    (no_collision w ->
     forall m, models_available report !! m
               = report_of w m <$> model_config w !! m) /\
    (forall m c h,
        model_config w !! m = Some c -> expected_sha256 c = Some h ->
        exists c', model_config w' !! m = Some c' /\
                   expected_sha256 c' = Some h) /\
    (settled w -> model_config w' = model_config w /\ disk w' = disk w) /\
    (forall m c,
        model_config w !! m = Some c -> expected_sha256 c = None ->
        is_Some (disk w !! model_path w c) ->
        exists c', model_config w' !! m = Some c' /\
                   is_Some (expected_sha256 c')).
Proof.
  destruct (get_model_status_eq w) as (available & Hloop & ->).
  set (items := map_to_list (model_config w)) in *.
  set (w' := (status_loop items ∅ w).2) in *.
  eexists _, w'. split; [reflexivity|]. cbn [models_available].
  assert (Hitems : forall m c, (m, c) ∈ items <-> model_config w !! m = Some c)
    by (intros m c; apply elem_of_map_to_list).
  split; [|split; [|split; [|split]]].
  - intros m.
    destruct (status_loop_returns items ∅ w) as (result & Hres & Hdom).
    rewrite Hloop in Hres. cbn in Hres. injection Hres as <-.
    rewrite Hdom, lookup_empty, list_elem_of_fmap. split.
    + intros [[? [=]]|([m' c] & -> & Hin)]. apply Hitems in Hin. eauto.
    + intros [c Hc]. right. exists (m, c). split; [done|]. by apply Hitems.
  - intros Hnc m.
    assert (Hnd : NoDup items.*1) by apply NoDup_fst_map_to_list.
    pose proof (status_loop_reports w items Hnc Hnd (fun m c => proj1 (Hitems m c))
                  w ∅ (agree_refl w) (fun m c => proj1 (Hitems m c))) as Hrep.
    rewrite Hloop in Hrep. cbn in Hrep. injection Hrep as ->.
    rewrite foldl_add_report_lookup by done.
    destruct (list_find (fun item => item.1 = m) items) as [[i [m1 c1]]|] eqn:Hfind.
    + apply list_find_Some in Hfind as (Hlk & Heq & _). cbn in Heq. subst m1.
      apply list_elem_of_lookup_2, Hitems in Hlk. by rewrite Hlk.
    + rewrite lookup_empty.
      destruct (model_config w !! m) as [c|] eqn:Hc; [|done].
      apply Hitems in Hc. eapply list_find_None, Forall_forall in Hfind; [|exact Hc].
      done.
  - intros m c h Hc Hh.
    pose proof (ext_config _ _ (status_loop_extends items ∅ w) m) as Hm.
    fold w' in Hm. rewrite Hc in Hm.
    inversion Hm as [? c' (_ & _ & Hkeep)|]. subst. exists c'. split; [done|].
    by apply Hkeep.
  - intros Hset.
    destruct (status_loop_settled items ∅ w w Hset) as (_ & Hc & _ & _ & Hd).
    + done.
    + intros m c. apply Hitems.
    + by split.
  - intros m c Hc Hexp Hfile.
    apply (status_loop_pins items ∅ w m c c); auto. by apply Hitems.
Qed.

Lemma all_verified_no_files (available : gmap string ModelStatus) :
  (forall m ms, available !! m = Some ms -> file_exists ms = false) ->
  all_verified available = true.
Proof.
  intros Hall. unfold all_verified. rewrite filter_all_false; [done|].
  intros [m ms] Hin. apply elem_of_map_to_list in Hin. cbn. by eapply Hall.
Qed.

(** C10: when the file of no configured artifact exists, the overall
    [integrity_status] is "verified", although every artifact's entry has
    [integrity_verified] false (and [file_exists] false) and no checksum was
    computed: the world, events included, is unchanged. *)
Theorem status_verified_without_any_file (w : World) :
  (forall m c, model_config w !! m = Some c ->
               disk w !! model_path w c = None) ->
  exists report,
    get_model_status w = (Return report, w) /\
    integrity_status report = "verified" /\
    (forall m, is_Some (model_config w !! m) ->
       exists ms, models_available report !! m = Some ms /\
                  integrity_verified ms = false /\ file_exists ms = false).
Proof.
  intros Hnone.
  destruct (get_model_status_eq w) as (available & Hloop & ->).
  destruct (status_loop_no_files (map_to_list (model_config w)) ∅ w)
    as (result & Hres & Hflags).
  { intros m c Hin. apply (Hnone m). by apply elem_of_map_to_list. }
  { intros m ms. by rewrite lookup_empty. }
  rewrite Hres in *. cbn in Hloop. injection Hloop as <-.
  eexists. split; [reflexivity|]. cbn. split.
  - rewrite all_verified_no_files; [done|]. intros m ms Hm. by apply (Hflags m).
  - intros m Hm.
    destruct (status_loop_returns (map_to_list (model_config w)) ∅ w)
      as (result' & Hres' & Hdom).
    rewrite Hres in Hres'. cbn in Hres'. injection Hres' as <-.
    destruct (proj2 (Hdom m)) as [ms Hms].
    { right. destruct Hm as [c Hc]. apply list_elem_of_fmap. exists (m, c).
      split; [done|]. by apply elem_of_map_to_list. }
    exists ms. split; [done|]. destruct (Hflags m ms Hms). by split.
Qed.

(** *** What loading does after verification *)

(** Where the weights of a network that step 2 returns can come from: the
    state dictionary that [torch.load] read from the model file, or the
    pretrained weights of the fallback. *)
Definition provenance (model_name : string) (w : World) (net : Net) : Prop :=
  net = Pretrained "coco" \/
  exists config content state_dict,
    model_config w !! model_name = Some config /\
    disk w !! model_path w config = Some content /\
    torch_load_outcome rt content = Return state_dict /\
    net = FromStateDict state_dict.

(** Step 2 leaves configuration and files alone, only appends events, and
    either registers the network it returns or raises [ModelLoadingError]
    without registering anything. *)
Definition load_post (model_name : string) (w : World)
    (r : Outcome PyExc PyObj * World) : Prop :=
  models_dir r.2 = models_dir w /\ model_config r.2 = model_config w /\
  disk r.2 = disk w /\ (exists evs, events r.2 = events w ++ evs) /\
  match r.1 with
  | Return x =>
    exists net, x = PyModel net /\
                loaded_models r.2 = <[model_name := net]> (loaded_models w) /\
                provenance model_name w net
  | Raise e =>
    is_loading_error e = true /\ loaded_models r.2 = loaded_models w
  end.

Ltac events_tail :=
  eexists; rewrite <- ?app_assoc; first [reflexivity | symmetry; apply app_nil_r].

Ltac provenance_done :=
  first [ done
        | eexists; split; [reflexivity|]; split; [reflexivity|];
          first [ by left
                | right; eexists _, _, _; repeat split; eassumption ] ].

Lemma load_into_memory_post model_name w :
  load_post model_name w (load_into_memory model_name w).
Proof.
  unfold load_post, provenance, load_into_memory, load_local_checkpoint,
    models_get, torch_load, load_state_dict, model_eval, _estimate_model_size,
    config_of.
  act_unfold. cbn.
  repeat (case_match; simplify_eq/=);
    (split; [done|split; [done|split; [done|split; [events_tail|]]]]);
    provenance_done.
Qed.

Lemma load_into_memory_raises model_name w e :
  (load_into_memory model_name w).1 = Raise e -> exists msg, e = ModelLoadingError msg.
Proof.
  pose proof (load_into_memory_post model_name w) as (_ & _ & _ & _ & Hres).
  intros Heq. rewrite Heq in Hres. destruct Hres as [Hle _].
  destruct e; try done. eauto.
Qed.

(** [load_yolo_nas_model] is step 1 followed by step 2: an integrity error
    of step 1 is re-raised as it is, a loading error of step 2 is wrapped
    once more by the outer handler. *)
Lemma load_yolo_nas_model_eq w :
  load_yolo_nas_model w =
  match verify_model_integrity "yolo_nas_s" w with
  | (Return _, w1) =>
    match load_into_memory "yolo_nas_s" w1 with
    | (Return x, w2) => (Return x, w2)
    | (Raise e, w2) =>
      (Raise (ModelLoadingError
                ("Unexpected error loading model yolo_nas_s: " +:+ exc_str e)), w2)
    end
  | (Raise e, w1) => (Raise e, w1)
  end.
Proof.
  unfold load_yolo_nas_model. act_unfold.
  pose proof (verify_raises_integrity w "yolo_nas_s") as Hint.
  destruct (verify_model_integrity "yolo_nas_s" w) as [[b|e] w1]; cbn in *.
  - pose proof (load_into_memory_raises "yolo_nas_s" w1) as Hload.
    destruct (load_into_memory "yolo_nas_s" w1) as [[x|e] w2]; cbn in *; [done|].
    destruct (Hload e eq_refl) as [msg ->]. done.
  - specialize (Hint e eq_refl). by destruct e.
Qed.

Lemma verify_events w model_name :
  exists evs,
    events (verify_model_integrity model_name w).2 = events w ++ evs /\
    Forall (fun e => is_deserialization e = false) evs /\
    ((verify_model_integrity model_name w).1 = Return true ->
     exists path rest, evs = EvSha256 path :: rest).
Proof.
  destruct (verify_run w model_name); cbn.
  - exists []. rewrite app_nil_r. repeat split; [constructor|done].
  - eexists [_; _]. rewrite <- app_assoc. repeat split; [repeat constructor|eauto].
  - eexists [_]. repeat split; [repeat constructor|eauto].
  - eexists [_]. repeat split; [repeat constructor|done].
Qed.

(** The outcomes of [initialize_all_models]: what a success needs, that
    failures leave it unchanged, and that verification comes first. *)
Lemma initialize_all_models_outcomes (w : World) :
  let r := initialize_all_models w in
  (* the outcomes *)
  (r.1 = Return true \/
   (exists msg, r.1 = Raise (ModelIntegrityError msg)) \/
   (exists msg, r.1 = Raise (ModelLoadingError msg))) /\
  (* success needs a passed verification and a finished load *)
  (r.1 = Return true ->
     (verify_model_integrity "yolo_nas_s" w).1 = Return true /\
     (exists net, load_yolo_nas_model w = (Return (PyModel net), r.2) /\
                  loaded_models r.2 !! "yolo_nas_s" = Some net /\
                  provenance "yolo_nas_s"
                    (verify_model_integrity "yolo_nas_s" w).2 net) /\
     (dom (model_config w) = {[ "yolo_nas_s" ]} ->
      forall m, m ∈ dom (model_config w) -> is_Some (loaded_models r.2 !! m))) /\
  (* failures propagate unchanged *)
  (forall e, (verify_model_integrity "yolo_nas_s" w).1 = Raise e ->
     r = (Raise e, (verify_model_integrity "yolo_nas_s" w).2) /\
     is_integrity_error e = true /\
     loaded_models r.2 = loaded_models w) /\
  (forall e, (load_yolo_nas_model w).1 = Raise e ->
     r = (Raise e, (load_yolo_nas_model w).2)) /\
  (* verification comes before any deserialization *)
  (exists evs,
     events r.2 = events w ++ evs /\
     (Exists (fun e => is_deserialization e = true) evs ->
      (verify_model_integrity "yolo_nas_s" w).1 = Return true /\
      exists path rest, evs = EvSha256 path :: rest)).
Proof.
  cbn zeta. unfold initialize_all_models. act_unfold.
  rewrite load_yolo_nas_model_eq.
  pose proof (verify_raises_integrity w "yolo_nas_s") as Hint.
  pose proof (verify_extends w "yolo_nas_s") as Hext.
  destruct (verify_events w "yolo_nas_s") as (evs1 & Hev1 & Hnodes & Hfirst).
  pose proof (verify_run w "yolo_nas_s") as Hrun.
  destruct (verify_model_integrity "yolo_nas_s" w) as [[b|e] w1]; cbn in *.
  - assert (b = true) by (inversion Hrun; done). subst b.
    pose proof (load_into_memory_post "yolo_nas_s" w1)
      as (_ & _ & _ & (evs2 & Hev2) & Hres).
    destruct (load_into_memory "yolo_nas_s" w1) as [[x|e] w2]; cbn in *.
    + destruct Hres as (net & -> & Hloaded & Hprov). cbn.
      split; [by left|]. split; [|split; [done|split; [done|]]].
      * intros _. split; [done|]. split.
        -- exists net. split; [done|]. split; [|done].
           rewrite Hloaded. apply lookup_insert_eq.
        -- intros Hdom m Hm. rewrite Hdom in Hm. apply elem_of_singleton in Hm.
           subst m. rewrite Hloaded, lookup_insert_eq. eauto.
      * exists (evs1 ++ evs2). rewrite Hev2, Hev1, app_assoc. split; [done|].
        intros _. split; [done|].
        destruct (Hfirst eq_refl) as (path & rest & ->). cbn. eauto.
    + cbn. split; [right; right; eauto|].
      split; [done|]. split; [done|]. split.
      * by intros e' [= <-].
      * exists (evs1 ++ evs2). rewrite Hev2, Hev1, app_assoc. split; [done|].
        intros _. split; [done|].
        destruct (Hfirst eq_refl) as (path & rest & ->). cbn. eauto.
  - pose proof (Hint e eq_refl) as He. destruct e as [msg| | |]; try done. cbn.
    split; [right; left; eauto|]. split; [done|]. split; [|split].
    + intros e' [= <-]. split; [done|]. split; [done|]. apply (ext_loaded _ _ Hext).
    + by intros e' [= <-].
    + exists evs1. split; [done|]. intros Hex. exfalso.
      apply Exists_exists in Hex as (ev & Hin & Hdes).
      eapply Forall_forall in Hnodes; [|exact Hin]. congruence.
Qed.

(** The local checkpoint with these bytes cannot be read into the network:
    [import torch], [torch.load] or [load_state_dict] raises. *)
Definition checkpoint_rejected (content : string) : Prop :=
  (exists e, import_torch rt = Raise e) \/
  (exists e, torch_load_outcome rt content = Raise e) \/
  (exists sd e, torch_load_outcome rt content = Return sd /\
                load_state_dict_outcome rt sd = Raise e).

(** What step 2 gives when the fallback [models.get(.., 'coco')] is taken. *)
Definition fallback_result : Outcome PyExc PyObj :=
  match models_get_outcome rt (Some "coco") with
  | Return true => Return (PyModel (Pretrained "coco"))
  | Return false =>
    Raise (ModelLoadingError
             "Failed to load YOLO-NAS model: 'NoneType' object has no attribute 'eval'")
  | Raise e =>
    Raise (ModelLoadingError
             (match e with
              | ImportError _ => "Required ML libraries not available: "
              | _ => "Failed to load YOLO-NAS model: "
              end +:+ exc_str e))
  end.

Definition is_checksum (e : Event) : bool :=
  match e with EvSha256 _ => true | _ => false end.

Ltac fallback_with evs :=
  eexists _, evs; split; [reflexivity|];
  cbn; rewrite <- ?app_assoc; cbn; split; [reflexivity|];
  split; [repeat constructor|];
  first [done | intros ? [= <-]; apply lookup_insert_eq].

Ltac fallback_finish :=
  first [ solve [fallback_with constr:([EvModelsGet None])]
        | solve [fallback_with uconstr:([_; _])]
        | solve [fallback_with uconstr:([_; _; _])] ].

Lemma load_into_memory_fallback w config content :
  model_config w !! "yolo_nas_s" = Some config ->
  disk w !! model_path w config = Some content ->
  import_models rt = Return tt ->
  models_get_outcome rt None = Return true ->
  checkpoint_rejected content ->
  exists w' evs,
    load_into_memory "yolo_nas_s" w = (fallback_result, w') /\
    events w' = events w ++ evs ++ [EvModelsGet (Some "coco")] /\
    Forall (fun e => is_checksum e = false) evs /\
    (forall net, fallback_result = Return (PyModel net) ->
                 loaded_models w' !! "yolo_nas_s" = Some net).
Proof.
  intros Hcfg Hfile Hsg Hget Hrej.
  unfold fallback_result, load_into_memory, load_local_checkpoint, models_get,
    torch_load, load_state_dict, model_eval, _estimate_model_size, config_of.
  act_unfold. cbn. rewrite Hsg, Hcfg, Hfile, Hget. cbn. rewrite Hfile.
  destruct Hrej as [[e He]|[[e He]|(sd & e & Hsd & He)]].
  - rewrite He. cbn.
    destruct (models_get_outcome rt (Some "coco")) as [[|]|e']; cbn;
      rewrite ?Hcfg; cbn; try destruct e'; fallback_finish.
  - destruct (import_torch rt) as [[]|e0] eqn:Htorch; cbn; rewrite ?Hfile, ?He; cbn.
    all: destruct (models_get_outcome rt (Some "coco")) as [[|]|e']; cbn;
      rewrite ?Hcfg; cbn; rewrite ?Htorch; cbn.
    all: try destruct e'; try destruct (model_nbytes rt _); cbn; fallback_finish.
  - destruct (import_torch rt) as [[]|e0] eqn:Htorch; cbn;
      rewrite ?Hfile, ?Hsd; cbn; rewrite ?He; cbn.
    all: destruct (models_get_outcome rt (Some "coco")) as [[|]|e']; cbn;
      rewrite ?Hcfg; cbn; rewrite ?Htorch; cbn.
    all: try destruct e'; try destruct (model_nbytes rt _); cbn; fallback_finish.
Qed.

(** C1, as the code has it: after the integrity check of the local file
    has passed, a failure to deserialize that file does not fail the load.
    The loader falls back to [models.get('yolo_nas_s',
    pretrained_weights='coco')]: when that call returns a network, the load
    returns it and registers it as the loaded model; the load raises
    [ModelLoadingError] only when the fallback itself raises or returns
    [None].  The fetch is the last library call of the load, and no
    checksum is computed after the verification, so the fetched network is
    not checked against the pinned checksum. *)
Theorem load_falls_back_to_pretrained (w : World)
    (config : ModelConfigEntry) (content : string) :
  model_config w !! "yolo_nas_s" = Some config ->
  disk w !! model_path w config = Some content ->
  expected_sha256 config = None \/
    expected_sha256 config = Some (sha256 content) ->
  model_path w config <> metadata_path w "yolo_nas_s" ->
  import_models rt = Return tt ->
  models_get_outcome rt None = Return true ->
  checkpoint_rejected content ->
  (verify_model_integrity "yolo_nas_s" w).1 = Return true /\
  exists w' evs,
    (load_yolo_nas_model w).2 = w' /\
    events w' = events (verify_model_integrity "yolo_nas_s" w).2
                ++ evs ++ [EvModelsGet (Some "coco")] /\
    Forall (fun e => is_checksum e = false) evs /\
    match models_get_outcome rt (Some "coco") with
    | Return true =>
      (load_yolo_nas_model w).1 = Return (PyModel (Pretrained "coco")) /\
      loaded_models w' !! "yolo_nas_s" = Some (Pretrained "coco")
    | _ => exists msg, (load_yolo_nas_model w).1 = Raise (ModelLoadingError msg)
    end.
Proof.
  intros Hcfg Hfile Hexp Hpath Hsg Hget Hrej.
  rewrite load_yolo_nas_model_eq.
  assert (Hafter : (verify_model_integrity "yolo_nas_s" w).1 = Return true /\
            exists config1,
              model_config (verify_model_integrity "yolo_nas_s" w).2
                !! "yolo_nas_s" = Some config1 /\
              disk (verify_model_integrity "yolo_nas_s" w).2
                !! model_path (verify_model_integrity "yolo_nas_s" w).2 config1
              = Some content).
  { destruct (verify_run w "yolo_nas_s") as
      [msg [Hno|(c' & Hc' & Hno)] | c' content' Hc' Hf' Hexp'
       | c' content' Hc' Hf' Hexp' | c' content' pinned msg Hc' Hf' Hexp' Hne];
      cbn [fst snd].
    - congruence.
    - assert (c' = config) by congruence. subst c'. congruence.
    - assert (c' = config) by congruence. subst c'.
      split; [done|]. eexists. split; [apply lookup_insert_eq|].
      cbn. rewrite lookup_insert_ne by (intros Heq; by apply Hpath).
      exact Hfile.
    - assert (c' = config) by congruence. subst c'.
      split; [done|]. exists config. by split.
    - assert (c' = config) by congruence. subst c'.
      assert (content' = content) by congruence. subst content'.
      destruct Hexp as [Hexp|Hexp]; congruence. }
  destruct Hafter as (Hok & config1 & Hcfg1 & Hfile1).
  split; [exact Hok|].
  destruct (verify_model_integrity "yolo_nas_s" w) as [[b|e] w1]; cbn in *; [|done].
  destruct (load_into_memory_fallback w1 config1 content Hcfg1 Hfile1 Hsg Hget Hrej)
    as (w' & evs & Hload & Hev & Hnocheck & Hloaded).
  rewrite Hload. exists w', evs.
  unfold fallback_result in *.
  destruct (models_get_outcome rt (Some "coco")) as [[|]|e']; cbn.
  - repeat split; auto.
  - repeat split; eauto.
  - repeat split; eauto.
Qed.

(** *** Further properties of the loader *)

(** [initialize_all_models] adds nothing to what [load_yolo_nas_model]
    does to the world: it maps the outcome only. *)
Lemma initialize_all_models_eq w :
  initialize_all_models w =
  match load_yolo_nas_model w with
  | (Return (PyModel _), w') => (Return true, w')
  | (Return PyNone, w') =>
    (Raise (ModelLoadingError "YOLO-NAS model returned None"), w')
  | (Raise e, w') => (Raise e, w')
  end.
Proof.
  unfold initialize_all_models. act_unfold.
  rewrite load_yolo_nas_model_eq.
  pose proof (verify_raises_integrity w "yolo_nas_s") as Hint.
  destruct (verify_model_integrity "yolo_nas_s" w) as [[b|e0] w1]; cbn in *.
  - destruct (load_into_memory "yolo_nas_s" w1) as [[[|net]|e1] w2]; done.
  - specialize (Hint e0 eq_refl). by destruct e0.
Qed.

Lemma verify_disk_frame w model_name p :
  p <> metadata_path w model_name ->
  disk (verify_model_integrity model_name w).2 !! p = disk w !! p.
Proof.
  intros Hp. destruct (verify_run w model_name); cbn; try done.
  by rewrite lookup_insert_ne.
Qed.

Lemma verify_config_frame w model_name m :
  m <> model_name ->
  model_config (verify_model_integrity model_name w).2 !! m = model_config w !! m.
Proof.
  intros Hm. destruct (verify_run w model_name); cbn; try done.
  by rewrite lookup_insert_ne.
Qed.

Lemma verify_matched_eq w model_name config content :
  model_config w !! model_name = Some config ->
  disk w !! model_path w config = Some content ->
  expected_sha256 config = Some (sha256 content) ->
  verify_model_integrity model_name w
  = (Return true, log (EvSha256 (model_path w config)) w).
Proof.
  intros Hcfg Hfile Hexp. unfold verify_model_integrity. act_unfold.
  rewrite Hcfg, Hfile, Hexp. cbn.
  by rewrite bool_decide_eq_false_2 by (intros Hne; by apply Hne).
Qed.

Lemma verify_mismatch_eq w model_name config content pinned :
  model_config w !! model_name = Some config ->
  disk w !! model_path w config = Some content ->
  expected_sha256 config = Some pinned ->
  sha256 content <> pinned ->
  verify_model_integrity model_name w
  = (Raise (ModelIntegrityError
              ("Failed to verify model " +:+ model_name +:+ ": "
               +:+ mismatch_message model_name pinned (sha256 content))),
     log (EvSha256 (model_path w config)) w).
Proof.
  intros Hcfg Hfile Hexp Hne. unfold verify_model_integrity. act_unfold.
  rewrite Hcfg, Hfile, Hexp. cbn.
  by rewrite bool_decide_eq_true_2 by done.
Qed.

(** A verification that returned [True] leaves the checksum of the file
    pinned. *)
Lemma verify_true_pins w model_name :
  (verify_model_integrity model_name w).1 = Return true ->
  exists config content,
    model_config (verify_model_integrity model_name w).2 !! model_name
      = Some config /\
    disk w !! model_path w config = Some content /\
    expected_sha256 config = Some (sha256 content).
Proof.
  intros Hok.
  destruct (verify_run w model_name) as
    [msg _ | c content Hc Hf Hexp | c content Hc Hf Hexp
     | c content pinned msg Hc Hf Hexp Hne]; cbn [fst snd] in *; try done.
  - exists (set_expected (sha256 content) c), content.
    split; [apply lookup_insert_eq|done].
  - by exists c, content.
Qed.

(** X1: a verification that returned [True] can be repeated: on the files
    it left behind, the next verification of the same artifact returns
    [True] again, compares against the checksum of the file, and changes
    nothing but the list of events. *)
Theorem verify_is_repeatable (w : World) (model_name : string) :
  (verify_model_integrity model_name w).1 = Return true ->
  (forall config, model_config w !! model_name = Some config ->
                  model_path w config <> metadata_path w model_name) ->
  exists config content,
    model_config (verify_model_integrity model_name w).2 !! model_name
      = Some config /\
    disk w !! model_path w config = Some content /\
    expected_sha256 config = Some (sha256 content) /\
    verify_model_integrity model_name (verify_model_integrity model_name w).2
    = (Return true,
       log (EvSha256 (model_path w config)) (verify_model_integrity model_name w).2).
Proof.
  intros Hok Hpath.
  destruct (verify_run w model_name) as
    [msg _ | c content Hc Hf Hexp | c content Hc Hf Hexp
     | c content pinned msg Hc Hf Hexp Hne]; cbn [fst snd] in *; try done.
  - exists (set_expected (sha256 content) c), content.
    assert (Hc1 : model_config (pinned_world w model_name c content) !! model_name
                  = Some (set_expected (sha256 content) c))
      by apply lookup_insert_eq.
    assert (Hf1 : disk (pinned_world w model_name c content)
                    !! model_path (pinned_world w model_name c content)
                         (set_expected (sha256 content) c) = Some content).
    { cbn. rewrite lookup_insert_ne; [done|]. intros Heq. by apply (Hpath c). }
    split; [done|]. split; [done|]. split; [done|].
    by rewrite (verify_matched_eq _ _ _ _ Hc1 Hf1 eq_refl).
  - exists c, content. split; [done|]. split; [done|]. split; [done|].
    by rewrite (verify_matched_eq (log (EvSha256 (model_path w c)) w)
                  model_name c content Hc Hf Hexp).
Qed.

(** Replacing the bytes of a file. *)
Definition overwrite (path content : string) (w : World) : World :=
  with_disk <[path := content]> w.

(** X2: tampering is detected.  After a verification of "yolo_nas_s" that
    returned [True], replacing the model file by bytes with another SHA-256
    makes [initialize_all_models] raise [ModelIntegrityError]; nothing is
    loaded, no library call that builds or deserializes a network is made,
    and the pinned checksum stays as it was. *)
Theorem tampering_stops_initialization (w : World) (config : ModelConfigEntry)
    (content tampered : string) :
  model_config w !! "yolo_nas_s" = Some config ->
  disk w !! model_path w config = Some content ->
  (verify_model_integrity "yolo_nas_s" w).1 = Return true ->
  model_path w config <> metadata_path w "yolo_nas_s" ->
  sha256 tampered <> sha256 content ->
  let w1 := overwrite (model_path w config) tampered
              (verify_model_integrity "yolo_nas_s" w).2 in
  exists msg,
    (initialize_all_models w1).1 = Raise (ModelIntegrityError msg) /\
    loaded_models (initialize_all_models w1).2 = loaded_models w /\
    model_config (initialize_all_models w1).2 = model_config w1 /\
    List.filter is_deserialization (events (initialize_all_models w1).2)
      = List.filter is_deserialization (events w).
Proof.
  intros Hcfg Hfile Hok Hpath Hdiff. cbn zeta.
  destruct (verify_true_pins w "yolo_nas_s" Hok) as (c1 & content1 & Hc1 & Hf1 & Hexp1).
  assert (Hname : filename c1 = filename config).
  { pose proof (ext_config _ _ (verify_extends w "yolo_nas_s") "yolo_nas_s") as Hm.
    rewrite Hcfg, Hc1 in Hm. inversion Hm as [? ? (Hn & _)|]. by subst. }
  assert (Hsame : model_path w c1 = model_path w config)
    by (unfold model_path; by rewrite Hname).
  assert (content1 = content) by congruence. subst content1.
  pose proof (verify_extends w "yolo_nas_s") as Hext.
  destruct (verify_events w "yolo_nas_s") as (evs & Hevs & Hnodes & _).
  set (w0 := (verify_model_integrity "yolo_nas_s" w).2) in *.
  set (w1 := overwrite (model_path w config) tampered w0).
  assert (Hdir : models_dir w1 = models_dir w) by apply (ext_dir _ _ Hext).
  assert (Hrun : exists msg,
             verify_model_integrity "yolo_nas_s" w1
             = (Raise (ModelIntegrityError msg),
                log (EvSha256 (model_path w config)) w1)).
  { assert (Hp : model_path w1 c1 = model_path w config)
      by (unfold model_path; by rewrite Hdir, Hname).
    eexists. rewrite <- Hp.
    apply (verify_mismatch_eq w1 "yolo_nas_s" c1 tampered (sha256 content)).
    - exact Hc1.
    - unfold model_path. rewrite Hdir, Hname. apply lookup_insert_eq.
    - exact Hexp1.
    - exact Hdiff. }
  destruct Hrun as (msg & Hrun).
  exists msg. rewrite initialize_all_models_eq, load_yolo_nas_model_eq, Hrun. cbn.
  split; [done|]. split; [apply (ext_loaded _ _ Hext)|]. split; [done|].
  assert (Hnone : List.filter is_deserialization evs = []).
  { apply filter_all_false. intros e He.
    by eapply Forall_forall in Hnodes. }
  rewrite Hevs, !List.filter_app, Hnone. cbn. by rewrite !app_nil_r.
Qed.

(** What a call may do to a configuration entry: pin a checksum where
    none was pinned, and nothing else. *)
Definition entry_kept (c c' : ModelConfigEntry) : Prop :=
  filename c' = filename c /\ url c' = url c /\
  description c' = description c /\ version c' = version c /\
  (forall h, expected_sha256 c = Some h -> expected_sha256 c' = Some h).

Lemma verify_entry_kept w model_name m :
  option_Forall2 entry_kept
    (model_config w !! m)
    (model_config (verify_model_integrity model_name w).2 !! m).
Proof.
  assert (Hrefl : option_Forall2 entry_kept
                    (model_config w !! m) (model_config w !! m)).
  { destruct (model_config w !! m); constructor. by repeat split. }
  destruct (verify_run w model_name) as
    [msg _ | c content Hc Hf Hexp | c content Hc Hf Hexp
     | c content pinned msg Hc Hf Hexp Hne]; cbn [snd]; try exact Hrefl.
  cbn. destruct (decide (m = model_name)) as [->|Hne].
  - rewrite lookup_insert_eq, Hc. constructor. repeat split; try done.
    intros h Hh. congruence.
  - by rewrite lookup_insert_ne.
Qed.

(** X3: the only file the loader itself ever writes is the metadata file
    of "yolo_nas_s" (what the libraries it calls write on their own, such
    as a download cache, is not part of the model).  Whatever
    [initialize_all_models] ends with, every other path holds what it held,
    no file is removed, no entry of the configuration appears or
    disappears, file name, url, description and version of every entry
    stay, a pinned checksum stays, and the entries and loaded models of
    other artifacts are untouched. *)
Theorem initialization_writes_only_metadata (w : World) :
  let w' := (initialize_all_models w).2 in
  models_dir w' = models_dir w /\
  (forall p, p <> metadata_path w "yolo_nas_s" -> disk w' !! p = disk w !! p) /\
  (forall p, is_Some (disk w !! p) -> is_Some (disk w' !! p)) /\
  (forall m, option_Forall2 entry_kept
               (model_config w !! m) (model_config w' !! m)) /\
  (forall m, m <> "yolo_nas_s" ->
             model_config w' !! m = model_config w !! m /\
             loaded_models w' !! m = loaded_models w !! m).
Proof.
  cbn zeta.
  assert (Hw : (initialize_all_models w).2 = (load_yolo_nas_model w).2).
  { rewrite initialize_all_models_eq.
    by destruct (load_yolo_nas_model w) as [[[|net]|e] w']. }
  rewrite Hw, load_yolo_nas_model_eq.
  pose proof (verify_extends w "yolo_nas_s") as [Hd Hl _ Hk].
  pose proof (verify_entry_kept w "yolo_nas_s") as Hc.
  pose proof (verify_disk_frame w "yolo_nas_s") as Hframe.
  pose proof (verify_config_frame w "yolo_nas_s") as Hcframe.
  destruct (verify_model_integrity "yolo_nas_s" w) as [[b|e] w1]; cbn [snd] in *.
  - pose proof (load_into_memory_post "yolo_nas_s" w1)
      as (Hd2 & Hc2 & Hk2 & _ & Hres).
    destruct (load_into_memory "yolo_nas_s" w1) as [[x|e] w2]; cbn [fst snd] in *.
    + destruct Hres as (net & _ & Hloaded & _).
      rewrite Hd2, Hc2, Hk2, Hloaded. repeat split; auto.
      rewrite lookup_insert_ne by done. by rewrite Hl.
    + destruct Hres as (_ & Hloaded).
      rewrite Hd2, Hc2, Hk2, Hloaded. repeat split; auto. by rewrite Hl.
  - repeat split; auto. by rewrite Hl.
Qed.

(** X4: [load_yolo_nas_model] never returns [None], even when [models.get]
    does: [model.eval()] raises first.  So the [None] test of
    [initialize_all_models] never fires: "YOLO-NAS model returned None"
    is not among its errors, and it returns [True] exactly when the load
    returns a network. *)
Theorem load_never_returns_none (w : World) :
  (load_yolo_nas_model w).1 <> Return PyNone /\
  ((initialize_all_models w).1 = Return true <->
   exists net, (load_yolo_nas_model w).1 = Return (PyModel net)) /\
  (initialize_all_models w).1
    <> Raise (ModelLoadingError "YOLO-NAS model returned None").
Proof.
  rewrite initialize_all_models_eq.
  pose proof (load_yolo_nas_model_eq w) as Heq.
  destruct (verify_model_integrity "yolo_nas_s" w) as [[b|e] w1] eqn:Hv.
  - pose proof (load_into_memory_post "yolo_nas_s" w1) as (_ & _ & _ & _ & Hres).
    destruct (load_into_memory "yolo_nas_s" w1) as [[x|e] w2]; cbn in Hres.
    + destruct Hres as (net & -> & _). rewrite Heq. cbn.
      split; [done|]. split; [|done]. split; eauto.
    + rewrite Heq. cbn. split; [done|]. split; [|done].
      split; [done|]. by intros [net ?].
  - rewrite Heq. cbn. pose proof (verify_raises_integrity w "yolo_nas_s" e) as Hint.
    rewrite Hv in Hint. specialize (Hint eq_refl).
    split; [done|]. split; [split; [done|by intros [net ?]]|].
    by destruct e.
Qed.

Lemma load_into_memory_messages model_name w e :
  (load_into_memory model_name w).1 = Raise e ->
  exists m,
    e = ModelLoadingError ("Required ML libraries not available: " +:+ m) \/
    e = ModelLoadingError ("Failed to load YOLO-NAS model: " +:+ m).
Proof.
  unfold load_into_memory. unfold try_except at 1.
  match goal with
  | |- context [match ?X with (o, s') => _ end] => destruct X as [[x|e0] w']
  end; [done|].
  destruct e0 as [m|m|m|m]; cbn; intros [= <-]; exists m; auto.
Qed.

(** X5: the exceptions of [load_yolo_nas_model].  An integrity error is the
    one the verification raised, unchanged.  Every other failure happens
    after a verification that returned [True] and leaves as a
    [ModelLoadingError] whose message carries two prefixes, the one of the
    outer handler and then the one of the inner handler. *)
Theorem load_errors_are_wrapped_twice (w : World) (e : PyExc) :
  (load_yolo_nas_model w).1 = Raise e ->
  (verify_model_integrity "yolo_nas_s" w).1 = Raise e /\
    is_integrity_error e = true
  \/
  (verify_model_integrity "yolo_nas_s" w).1 = Return true /\
    exists m,
      e = ModelLoadingError
            ("Unexpected error loading model yolo_nas_s: "
             +:+ "Required ML libraries not available: " +:+ m) \/
      e = ModelLoadingError
            ("Unexpected error loading model yolo_nas_s: "
             +:+ "Failed to load YOLO-NAS model: " +:+ m).
Proof.
  rewrite load_yolo_nas_model_eq.
  pose proof (verify_raises_integrity w "yolo_nas_s") as Hint.
  pose proof (verify_run w "yolo_nas_s") as Hrun.
  destruct (verify_model_integrity "yolo_nas_s" w) as [[b|e0] w1]; cbn in *.
  - assert (b = true) by (inversion Hrun; done). subst b.
    pose proof (load_into_memory_messages "yolo_nas_s" w1) as Hmsg.
    destruct (load_into_memory "yolo_nas_s" w1) as [[x|e1] w2]; cbn in *; [done|].
    intros [= <-]. right. split; [done|].
    destruct (Hmsg e1 eq_refl) as (m & [->| ->]); exists m; auto.
  - intros [= <-]. left. auto.
Qed.

Lemma verify_metadata_frame w model_name :
  model_metadata (verify_model_integrity model_name w).2 = model_metadata w /\
  loaded_models (verify_model_integrity model_name w).2 = loaded_models w.
Proof. by destruct (verify_run w model_name). Qed.

(** What step 2 does to [model_metadata]. *)
Definition registered (model_name : string) (w : World)
    (r : Outcome PyExc PyObj * World) : Prop :=
  match r.1 with
  | Return _ =>
    exists config size,
      model_config w !! model_name = Some config /\
      model_metadata r.2
      = <[model_name := {| loaded_at := now; li_version := version config;
                           li_status := "loaded"; memory_size_mb := size |}]>
          (model_metadata w)
  | Raise _ => model_metadata r.2 = model_metadata w
  end.

Lemma load_into_memory_registered model_name w :
  registered model_name w (load_into_memory model_name w).
Proof.
  unfold registered, load_into_memory, load_local_checkpoint, models_get,
    torch_load, load_state_dict, model_eval, _estimate_model_size, config_of.
  act_unfold. cbn.
  repeat (case_match; simplify_eq/=); eauto.
Qed.

(** X6: a load that returns registers the network under "yolo_nas_s" in
    [loaded_models] and, in [model_metadata], an entry with status "loaded"
    and the version of the configuration; the entries of other names are
    untouched.  A load that raises leaves both dictionaries as they were:
    a model loaded earlier stays registered. *)
Theorem load_registers_or_leaves (w : World) :
  match (load_yolo_nas_model w).1 with
  | Return x =>
    exists net config info,
      x = PyModel net /\
      model_config w !! "yolo_nas_s" = Some config /\
      loaded_models (load_yolo_nas_model w).2
        = <["yolo_nas_s" := net]> (loaded_models w) /\
      model_metadata (load_yolo_nas_model w).2
        = <["yolo_nas_s" := info]> (model_metadata w) /\
      li_status info = "loaded" /\ li_version info = version config /\
      loaded_at info = now
  | Raise _ =>
    loaded_models (load_yolo_nas_model w).2 = loaded_models w /\
    model_metadata (load_yolo_nas_model w).2 = model_metadata w
  end.
Proof.
  rewrite load_yolo_nas_model_eq.
  destruct (verify_metadata_frame w "yolo_nas_s") as [Hmeta Hloaded].
  pose proof (ext_config _ _ (verify_extends w "yolo_nas_s") "yolo_nas_s") as Hcfg.
  destruct (verify_model_integrity "yolo_nas_s" w) as [[b|e] w1]; cbn in *; [|done].
  pose proof (load_into_memory_post "yolo_nas_s" w1) as (_ & _ & _ & _ & Hres).
  pose proof (load_into_memory_registered "yolo_nas_s" w1) as Hreg.
  unfold registered in Hreg.
  destruct (load_into_memory "yolo_nas_s" w1) as [[x|e] w2]; cbn in *.
  - destruct Hres as (net & -> & Hl & _).
    destruct Hreg as (c1 & size & Hc1 & Hm). rewrite Hc1 in Hcfg.
    inversion Hcfg as [c ? (_ & Hver & _)|]. subst.
    eexists net, c, _. split; [done|]. split; [done|].
    rewrite Hl, Hloaded, Hm, Hmeta. split; [done|]. split; [done|].
    cbn. by rewrite Hver.
  - destruct Hres as (_ & Hl). by rewrite Hl, Hreg.
Qed.

Lemma load_into_memory_local w config content state_dict :
  model_config w !! "yolo_nas_s" = Some config ->
  disk w !! model_path w config = Some content ->
  import_models rt = Return tt ->
  models_get_outcome rt None = Return true ->
  import_torch rt = Return tt ->
  torch_load_outcome rt content = Return state_dict ->
  load_state_dict_outcome rt state_dict = Return tt ->
  exists w',
    load_into_memory "yolo_nas_s" w
      = (Return (PyModel (FromStateDict state_dict)), w') /\
    events w' = events w ++ [EvModelsGet None;
                             EvTorchLoad (model_path w config);
                             EvLoadStateDict] /\
    loaded_models w' !! "yolo_nas_s" = Some (FromStateDict state_dict).
Proof.
  intros Hcfg Hfile Hsg Hget Htorch Hload Hsd.
  unfold load_into_memory, load_local_checkpoint, models_get,
    torch_load, load_state_dict, model_eval, _estimate_model_size, config_of.
  act_unfold. cbn.
  do 6 (rewrite ?Hsg, ?Hcfg, ?Hfile, ?Hget, ?Htorch, ?Hload, ?Hsd; cbn).
  destruct (model_nbytes rt (FromStateDict state_dict)); cbn;
    (eexists; split; [reflexivity|]; cbn; rewrite <- !app_assoc;
     split; [done|apply lookup_insert_eq]).
Qed.

(** A file that is unpinned, or pinned to its own checksum, passes the
    verification and is still there, under the entry the verification
    leaves. *)
Lemma verify_passes w config content :
  model_config w !! "yolo_nas_s" = Some config ->
  disk w !! model_path w config = Some content ->
  expected_sha256 config = None \/
    expected_sha256 config = Some (sha256 content) ->
  model_path w config <> metadata_path w "yolo_nas_s" ->
  (verify_model_integrity "yolo_nas_s" w).1 = Return true /\
  exists config1,
    model_config (verify_model_integrity "yolo_nas_s" w).2 !! "yolo_nas_s"
      = Some config1 /\
    disk (verify_model_integrity "yolo_nas_s" w).2
      !! model_path (verify_model_integrity "yolo_nas_s" w).2 config1
    = Some content.
Proof.
  intros Hcfg Hfile Hexp Hpath.
  destruct (verify_run w "yolo_nas_s") as
    [msg [Hno|(c' & Hc' & Hno)] | c' content' Hc' Hf' Hexp'
     | c' content' Hc' Hf' Hexp' | c' content' pinned msg Hc' Hf' Hexp' Hne];
    cbn [fst snd].
  - congruence.
  - assert (c' = config) by congruence. subst c'. congruence.
  - assert (c' = config) by congruence. subst c'.
    split; [done|]. eexists. split; [apply lookup_insert_eq|].
    cbn. rewrite lookup_insert_ne by (intros Heq; by apply Hpath).
    exact Hfile.
  - assert (c' = config) by congruence. subst c'.
    split; [done|]. exists config. by split.
  - assert (c' = config) by congruence. subst c'.
    assert (content' = content) by congruence. subst content'.
    destruct Hexp as [Hexp|Hexp]; congruence.
Qed.

(** With a sound local checkpoint the start succeeds with the network of
    the verified file. *)
Lemma initialize_loads_sound_checkpoint w config content state_dict :
  model_config w !! "yolo_nas_s" = Some config ->
  disk w !! model_path w config = Some content ->
  expected_sha256 config = None \/
    expected_sha256 config = Some (sha256 content) ->
  model_path w config <> metadata_path w "yolo_nas_s" ->
  import_models rt = Return tt ->
  models_get_outcome rt None = Return true ->
  import_torch rt = Return tt ->
  torch_load_outcome rt content = Return state_dict ->
  load_state_dict_outcome rt state_dict = Return tt ->
  (initialize_all_models w).1 = Return true /\
  loaded_models (initialize_all_models w).2 !! "yolo_nas_s"
    = Some (FromStateDict state_dict).
Proof.
  intros Hcfg Hfile Hexp Hpath Hsg Hget Htorch Hload Hsd.
  destruct (verify_passes w config content Hcfg Hfile Hexp Hpath)
    as (Hok & config1 & Hcfg1 & Hfile1).
  rewrite initialize_all_models_eq, load_yolo_nas_model_eq.
  destruct (verify_model_integrity "yolo_nas_s" w) as [[b|e] w1];
    cbn [fst snd] in *; [|done].
  destruct (load_into_memory_local w1 config1 content state_dict
              Hcfg1 Hfile1 Hsg Hget Htorch Hload Hsd)
    as (w' & -> & _ & Hloaded).
  done.
Qed.

(** With a local checkpoint that passes verification and cannot be
    deserialized, the start succeeds all the same when the fallback fetch
    returns a network. *)
Lemma initialize_accepts_fallback w config content :
  model_config w !! "yolo_nas_s" = Some config ->
  disk w !! model_path w config = Some content ->
  expected_sha256 config = None \/
    expected_sha256 config = Some (sha256 content) ->
  model_path w config <> metadata_path w "yolo_nas_s" ->
  import_models rt = Return tt ->
  models_get_outcome rt None = Return true ->
  checkpoint_rejected content ->
  models_get_outcome rt (Some "coco") = Return true ->
  (initialize_all_models w).1 = Return true /\
  loaded_models (initialize_all_models w).2 !! "yolo_nas_s"
    = Some (Pretrained "coco") /\
  exists evs,
    events (initialize_all_models w).2
    = events (verify_model_integrity "yolo_nas_s" w).2
      ++ evs ++ [EvModelsGet (Some "coco")] /\
    Forall (fun e => is_checksum e = false) evs.
Proof.
  intros Hcfg Hfile Hexp Hpath Hsg Hget Hrej Hcoco.
  destruct (verify_passes w config content Hcfg Hfile Hexp Hpath)
    as (Hok & config1 & Hcfg1 & Hfile1).
  rewrite initialize_all_models_eq, load_yolo_nas_model_eq.
  destruct (verify_model_integrity "yolo_nas_s" w) as [[b|e] w1];
    cbn [fst snd] in *; [|done].
  destruct (load_into_memory_fallback w1 config1 content Hcfg1 Hfile1 Hsg Hget Hrej)
    as (w' & evs & Hrun & Hev & Hnocheck & Hloaded).
  unfold fallback_result in Hrun, Hloaded. rewrite Hcoco in Hrun, Hloaded.
  rewrite Hrun. cbn. split; [done|]. split; [by apply Hloaded|]. eauto.
Qed.

(** C2, as the code has it.  [initialize_all_models] verifies the one
    configured artifact and then loads it.  It returns [True] or raises
    [ModelIntegrityError] or [ModelLoadingError], never anything else, and
    it returns [True] exactly when the load returned a network, which is
    then registered in [loaded_models]; that needs a verification that
    returned [True].  An exception of the verification or of
    [load_yolo_nas_model] leaves [initialize_all_models] as the same
    exception, a failed verification ends the call with nothing loaded, and
    every library call that builds or deserializes a network comes after a
    verification that returned [True].  With a sound local checkpoint the
    call returns [True] and the registered network is the one deserialized
    from the verified file.  But a file that passes verification and then
    cannot be deserialized does not stop the start: when the fallback
    [models.get(.., pretrained_weights='coco')] returns a network, the call
    returns [True] with that pretrained network registered, and no checksum
    is computed after the verification of the local file, so the network in
    service is one whose bytes were never checked. *)
Theorem initialize_all_models_propagates (w : World) :
  let r := initialize_all_models w in
  (* the outcomes *)
  (r.1 = Return true \/
   (exists msg, r.1 = Raise (ModelIntegrityError msg)) \/
   (exists msg, r.1 = Raise (ModelLoadingError msg))) /\
  (* success is a passed verification and a finished load *)
  (r.1 = Return true <->
   exists net, (load_yolo_nas_model w).1 = Return (PyModel net)) /\
  (r.1 = Return true ->
     (verify_model_integrity "yolo_nas_s" w).1 = Return true /\
     (exists net, load_yolo_nas_model w = (Return (PyModel net), r.2) /\
                  loaded_models r.2 !! "yolo_nas_s" = Some net /\
                  provenance "yolo_nas_s"
                    (verify_model_integrity "yolo_nas_s" w).2 net) /\
     (dom (model_config w) = {[ "yolo_nas_s" ]} ->
      forall m, m ∈ dom (model_config w) -> is_Some (loaded_models r.2 !! m))) /\
  (* failures propagate unchanged *)
  (forall e, (verify_model_integrity "yolo_nas_s" w).1 = Raise e ->
     r = (Raise e, (verify_model_integrity "yolo_nas_s" w).2) /\
     is_integrity_error e = true /\
     loaded_models r.2 = loaded_models w) /\
  (forall e, (load_yolo_nas_model w).1 = Raise e ->
     r = (Raise e, (load_yolo_nas_model w).2)) /\
  (* verification comes before any deserialization *)
  (exists evs,
     events r.2 = events w ++ evs /\
     (Exists (fun e => is_deserialization e = true) evs ->
      (verify_model_integrity "yolo_nas_s" w).1 = Return true /\
      exists path rest, evs = EvSha256 path :: rest)) /\
  (* a sound local checkpoint is verified and loaded *)
  (forall config content state_dict,
     model_config w !! "yolo_nas_s" = Some config ->
     disk w !! model_path w config = Some content ->
     expected_sha256 config = None \/
       expected_sha256 config = Some (sha256 content) ->
     model_path w config <> metadata_path w "yolo_nas_s" ->
     import_models rt = Return tt ->
     models_get_outcome rt None = Return true ->
     import_torch rt = Return tt ->
     torch_load_outcome rt content = Return state_dict ->
     load_state_dict_outcome rt state_dict = Return tt ->
     r.1 = Return true /\
     loaded_models r.2 !! "yolo_nas_s" = Some (FromStateDict state_dict)) /\
  (* a verified file that cannot be deserialized does not stop the start *)
  (forall config content,
     model_config w !! "yolo_nas_s" = Some config ->
     disk w !! model_path w config = Some content ->
     expected_sha256 config = None \/
       expected_sha256 config = Some (sha256 content) ->
     model_path w config <> metadata_path w "yolo_nas_s" ->
     import_models rt = Return tt ->
     models_get_outcome rt None = Return true ->
     checkpoint_rejected content ->
     models_get_outcome rt (Some "coco") = Return true ->
     r.1 = Return true /\
     loaded_models r.2 !! "yolo_nas_s" = Some (Pretrained "coco") /\
     exists evs,
       events r.2 = events (verify_model_integrity "yolo_nas_s" w).2
                    ++ evs ++ [EvModelsGet (Some "coco")] /\
       Forall (fun e => is_checksum e = false) evs).
Proof.
  cbn zeta.
  destruct (initialize_all_models_outcomes w)
    as (Hout & Hsuccess & Hverify & Hload & Hevents).
  split; [exact Hout|]. split.
  - rewrite initialize_all_models_eq.
    destruct (load_yolo_nas_model w) as [[[|net]|e] w']; cbn.
    + split; [done|]. by intros [net ?].
    + split; eauto.
    + split; [done|]. by intros [net ?].
  - split; [exact Hsuccess|]. split; [exact Hverify|]. split; [exact Hload|].
    split; [exact Hevents|]. split.
    + intros config content state_dict.
      apply initialize_loads_sound_checkpoint.
    + intros config content. apply initialize_accepts_fallback.
Qed.

(** X7: when the local checkpoint is sound, nothing is fetched.  If the
    file passes verification and [torch.load] and [load_state_dict] accept
    it, the load returns the network built from the state dictionary of
    that file, and the library calls after the verification are
    [models.get(.., pretrained_weights=None)], [torch.load] of the model
    file and [load_state_dict]: [models.get] is never asked for pretrained
    weights. *)
Theorem sound_checkpoint_is_loaded_locally (w : World)
    (config : ModelConfigEntry) (content state_dict : string) :
  model_config w !! "yolo_nas_s" = Some config ->
  disk w !! model_path w config = Some content ->
  expected_sha256 config = None \/
    expected_sha256 config = Some (sha256 content) ->
  model_path w config <> metadata_path w "yolo_nas_s" ->
  import_models rt = Return tt ->
  models_get_outcome rt None = Return true ->
  import_torch rt = Return tt ->
  torch_load_outcome rt content = Return state_dict ->
  load_state_dict_outcome rt state_dict = Return tt ->
  (load_yolo_nas_model w).1 = Return (PyModel (FromStateDict state_dict)) /\
  loaded_models (load_yolo_nas_model w).2 !! "yolo_nas_s"
    = Some (FromStateDict state_dict) /\
  events (load_yolo_nas_model w).2
    = events (verify_model_integrity "yolo_nas_s" w).2
      ++ [EvModelsGet None; EvTorchLoad (model_path w config); EvLoadStateDict].
Proof.
  intros Hcfg Hfile Hexp Hpath Hsg Hget Htorch Hload Hsd.
  rewrite load_yolo_nas_model_eq.
  assert (Hafter : (verify_model_integrity "yolo_nas_s" w).1 = Return true /\
            models_dir (verify_model_integrity "yolo_nas_s" w).2 = models_dir w /\
            exists config1,
              filename config1 = filename config /\
              model_config (verify_model_integrity "yolo_nas_s" w).2
                !! "yolo_nas_s" = Some config1 /\
              disk (verify_model_integrity "yolo_nas_s" w).2
                !! model_path (verify_model_integrity "yolo_nas_s" w).2 config1
              = Some content).
  { destruct (verify_run w "yolo_nas_s") as
      [msg [Hno|(c' & Hc' & Hno)] | c' content' Hc' Hf' Hexp'
       | c' content' Hc' Hf' Hexp' | c' content' pinned msg Hc' Hf' Hexp' Hne];
      cbn [fst snd].
    - congruence.
    - assert (c' = config) by congruence. subst c'. congruence.
    - assert (c' = config) by congruence. subst c'.
      split; [done|]. split; [done|]. eexists. split; [|split; [apply lookup_insert_eq|]].
      + done.
      + cbn. rewrite lookup_insert_ne by (intros Heq; by apply Hpath).
        exact Hfile.
    - assert (c' = config) by congruence. subst c'.
      split; [done|]. split; [done|]. exists config. by repeat split.
    - assert (c' = config) by congruence. subst c'.
      assert (content' = content) by congruence. subst content'.
      destruct Hexp as [Hexp|Hexp]; congruence. }
  destruct Hafter as (Hok & Hdir & config1 & Hname & Hcfg1 & Hfile1).
  destruct (verify_model_integrity "yolo_nas_s" w) as [[b|e] w1]; cbn in *; [|done].
  destruct (load_into_memory_local w1 config1 content state_dict
              Hcfg1 Hfile1 Hsg Hget Htorch Hload Hsd)
    as (w' & -> & Hev & Hloaded).
  cbn. split; [done|]. split; [done|].
  rewrite Hev. unfold model_path. by rewrite Hdir, Hname.
Qed.

Lemma append_inv_head (p a b : string) : p +:+ a = p +:+ b -> a = b.
Proof. induction p as [|c p IH]; cbn; intros H; [done|]. injection H. auto. Qed.

Lemma checkpoint_name_not_metadata (n : string) :
  "yolo_nas_s_coco.pth" <> n +:+ "_metadata.json".
Proof.
  intros H.
  repeat (destruct n as [|? n]; [discriminate H|]; cbn in H; injection H as _ H).
  destruct n; discriminate H.
Qed.

(** A freshly constructed loader keeps model files and metadata files
    apart, whatever the directory. *)
Lemma init_no_collision dir d : no_collision (init dir d).
Proof.
  intros m c n Hc. unfold init, initial_config in Hc. cbn in Hc.
  apply lookup_singleton_Some in Hc as [_ <-].
  unfold model_path, metadata_path, path_join. cbn.
  intros Heq. apply append_inv_head in Heq. cbn in Heq.
  injection Heq as Heq. by apply checkpoint_name_not_metadata in Heq.
Qed.

(** The configuration entry of an artifact after a status call: a checksum
    is pinned when the file exists and none was pinned. *)
Definition after_status (w : World) (config : ModelConfigEntry) : ModelConfigEntry :=
  match disk w !! model_path w config, expected_sha256 config with
  | Some content, None => set_expected (sha256 content) config
  | _, _ => config
  end.

Lemma status_step_config w wi m c :
  no_collision w -> agree w wi ->
  model_config w !! m = Some c -> model_config wi !! m = Some c ->
  model_config (status_of_model m c wi).2
    = <[m := after_status w c]> (model_config wi) /\
  agree w (status_of_model m c wi).2.
Proof.
  intros Hnc [Hdir Hld Hfiles] Hcfg Hcfgi.
  assert (Hpath : model_path wi c = model_path w c)
    by (unfold model_path; by rewrite Hdir).
  rewrite status_of_model_eq, Hpath, (Hfiles m c Hcfg).
  unfold after_status.
  destruct (disk w !! model_path w c) as [content|] eqn:Hfile.
  - pose proof (Hfiles m c Hcfg) as Hfilei. rewrite Hfile, <- Hpath in Hfilei.
    destruct (verify_run wi m) as
      [msg [Hno|(c' & Hc' & Hno)] | c' content' Hc' Hf' Hexp
       | c' content' Hc' Hf' Hexp | c' content' pinned msg Hc' Hf' Hexp Hne];
      cbn [fst snd].
    + congruence.
    + congruence.
    + assert (c' = c) by congruence. subst c'.
      assert (content' = content) by congruence. subst content'.
      rewrite Hexp. split; [done|].
      split; try done. intros m2 c2 Hc2. cbn.
      rewrite lookup_insert_ne; [by apply (Hfiles m2)|].
      unfold metadata_path. rewrite Hdir. intros Heq.
      by apply (Hnc m2 c2 m Hc2).
    + assert (c' = c) by congruence. subst c'. rewrite Hexp.
      split; [by rewrite insert_id|by split].
    + assert (c' = c) by congruence. subst c'. rewrite Hexp.
      split; [by rewrite insert_id|by split].
  - split; [by rewrite insert_id|by split].
Qed.

Definition settle_item (w : World) (cfg : gmap string ModelConfigEntry)
    (item : string * ModelConfigEntry) : gmap string ModelConfigEntry :=
  <[item.1 := after_status w item.2]> cfg.

Lemma status_loop_config w items :
  no_collision w -> NoDup items.*1 ->
  (forall m c, (m, c) ∈ items -> model_config w !! m = Some c) ->
  forall wi available,
    agree w wi ->
    (forall m c, (m, c) ∈ items -> model_config wi !! m = Some c) ->
    model_config (status_loop items available wi).2
      = foldl (settle_item w) (model_config wi) items /\
    agree w (status_loop items available wi).2.
Proof.
  intros Hnc. induction items as [|[m0 c0] items IH];
    intros Hnd Hcfg wi available Hag Hcfgi; [done|].
  apply NoDup_cons in Hnd as [Hnotin Hnd].
  cbn [status_loop foldl]. unfold bind.
  destruct (status_step_config w wi m0 c0 Hnc Hag) as (Hc & Hag').
  { apply Hcfg. by left. }
  { apply Hcfgi. by left. }
  pose proof (status_of_model_eq m0 c0 wi) as Heq.
  destruct (status_of_model m0 c0 wi) as [[ms|e] wi1] eqn:Hstep.
  2: { exfalso. by destruct (disk wi !! model_path wi c0). }
  cbn [snd] in *.
  destruct (IH Hnd (fun m c Hin => Hcfg m c (list_elem_of_further _ _ _ Hin))
              wi1 (<[m0 := ms]> available) Hag') as (Hfinal & Hagf).
  { intros m c Hin. rewrite Hc, lookup_insert_ne.
    - apply Hcfgi. by right.
    - intros <-. apply Hnotin. apply list_elem_of_fmap. by exists (m0, c). }
  split; [|done]. rewrite Hfinal, Hc. done.
Qed.

Lemma foldl_settle_lookup w items :
  NoDup items.*1 ->
  forall cfg m,
    foldl (settle_item w) cfg items !! m
    = match list_find (fun item => item.1 = m) items with
      | Some (_, item) => Some (after_status w item.2)
      | None => cfg !! m
      end.
Proof.
  induction items as [|[m0 c0] items IH]; intros Hnd cfg m; [done|].
  apply NoDup_cons in Hnd as [Hnotin Hnd].
  cbn [foldl list_find]. rewrite IH by done. cbn.
  destruct (decide (m0 = m)) as [->|Hne].
  - destruct (list_find (fun item => item.1 = m) items) as [[i [m1 c1]]|] eqn:Hfind.
    + apply list_find_Some in Hfind as (Hlk & Heq & _). cbn in Heq. subst m1.
      exfalso. apply Hnotin. apply list_elem_of_fmap. exists (m, c1).
      split; [done|]. by eapply list_elem_of_lookup_2.
    + cbn. unfold settle_item. cbn. by rewrite lookup_insert_eq.
  - destruct (list_find (fun item => item.1 = m) items) as [[i [m1 c1]]|]; cbn.
    + done.
    + unfold settle_item. cbn. by rewrite lookup_insert_ne.
Qed.

(** The report and the world after [get_model_status], when no model file
    sits at a metadata path. *)
Lemma get_model_status_result w :
  no_collision w ->
  exists report,
    get_model_status w = (Return report, (get_model_status w).2) /\
    integrity_status report
      = (if all_verified (models_available report) then "verified" else "failed") /\
    (forall m, models_available report !! m
               = report_of w m <$> model_config w !! m) /\
    (forall m, model_config (get_model_status w).2 !! m
               = after_status w <$> model_config w !! m) /\
    agree w (get_model_status w).2.
Proof.
  intros Hnc.
  destruct (get_model_status_eq w) as (available & Hloop & Hrun).
  rewrite Hrun. cbn [snd].
  set (items := map_to_list (model_config w)) in *.
  assert (Hitems : forall m c, (m, c) ∈ items <-> model_config w !! m = Some c)
    by (intros m c; apply elem_of_map_to_list).
  assert (Hnd : NoDup items.*1) by apply NoDup_fst_map_to_list.
  eexists. split; [reflexivity|]. cbn [integrity_status models_available].
  split; [done|].
  pose proof (status_loop_reports w items Hnc Hnd (fun m c => proj1 (Hitems m c))
                w ∅ (agree_refl w) (fun m c => proj1 (Hitems m c))) as Hrep.
  rewrite Hloop in Hrep. cbn in Hrep. injection Hrep as ->.
  destruct (status_loop_config w items Hnc Hnd (fun m c => proj1 (Hitems m c))
              w ∅ (agree_refl w) (fun m c => proj1 (Hitems m c))) as (Hcfg & Hag).
  split; [|split; [|done]].
  - intros m. rewrite foldl_add_report_lookup by done.
    destruct (list_find (fun item => item.1 = m) items) as [[i [m1 c1]]|] eqn:Hfind.
    + apply list_find_Some in Hfind as (Hlk & Heq & _). cbn in Heq. subst m1.
      apply list_elem_of_lookup_2, Hitems in Hlk. by rewrite Hlk.
    + rewrite lookup_empty.
      destruct (model_config w !! m) as [c|] eqn:Hc; [|done].
      apply Hitems in Hc. eapply list_find_None, Forall_forall in Hfind; [|exact Hc].
      done.
  - intros m. rewrite Hcfg, foldl_settle_lookup by done.
    destruct (list_find (fun item => item.1 = m) items) as [[i [m1 c1]]|] eqn:Hfind.
    + apply list_find_Some in Hfind as (Hlk & Heq & _). cbn in Heq. subst m1.
      apply list_elem_of_lookup_2, Hitems in Hlk. by rewrite Hlk.
    + destruct (model_config w !! m) as [c|] eqn:Hc; [|done].
      apply Hitems in Hc. eapply list_find_None, Forall_forall in Hfind; [|exact Hc].
      done.
Qed.

Lemma length_append (a b : string) :
  String.length (a +:+ b) = String.length a + String.length b.
Proof. induction a as [|c a IH]; [done|]. simpl. f_equal. exact IH. Qed.

Lemma append_inv_tail (a b s : string) : a +:+ s = b +:+ s -> a = b.
Proof.
  revert b. induction a as [|c a IH]; intros [|d b] Heq.
  - done.
  - exfalso. apply (f_equal String.length) in Heq.
    rewrite !length_append in Heq. simpl in Heq. lia.
  - exfalso. apply (f_equal String.length) in Heq.
    rewrite !length_append in Heq. simpl in Heq. lia.
  - change (String c (a +:+ s) = String d (b +:+ s)) in Heq.
    injection Heq as -> Heq. f_equal. by apply IH.
Qed.

(** Different artifacts have different metadata files. *)
Lemma metadata_path_inj w m n :
  metadata_path w m = metadata_path w n -> m = n.
Proof.
  unfold metadata_path, path_join. intros Heq.
  apply append_inv_head in Heq. apply (append_inv_head "/") in Heq.
  by apply append_inv_tail in Heq.
Qed.

(** The dictionary [verify_model_integrity] saves on a first
    verification. *)
Definition metadata_of (content : string) (config : ModelConfigEntry)
  : FileMetadata :=
  {| checksum := sha256 content; file_size := String.length content;
     last_verified := now; fm_version := version config |}.

(** What the status entry of one artifact writes. *)
Definition write_item (w : World) (d : gmap string string)
    (item : string * ModelConfigEntry) : gmap string string :=
  match disk w !! model_path w item.2, expected_sha256 item.2 with
  | Some content, None =>
    <[metadata_path w item.1 := json_dump (metadata_of content item.2)]> d
  | _, _ => d
  end.

Lemma status_step_disk w wi m c :
  no_collision w -> agree w wi ->
  model_config w !! m = Some c -> model_config wi !! m = Some c ->
  disk (status_of_model m c wi).2 = write_item w (disk wi) (m, c).
Proof.
  intros Hnc [Hdir Hld Hfiles] Hcfg Hcfgi.
  assert (Hpath : model_path wi c = model_path w c)
    by (unfold model_path; by rewrite Hdir).
  assert (Hmeta : metadata_path wi m = metadata_path w m)
    by (unfold metadata_path; by rewrite Hdir).
  rewrite status_of_model_eq, Hpath, (Hfiles m c Hcfg).
  unfold write_item. cbn [fst snd].
  destruct (disk w !! model_path w c) as [content|] eqn:Hfile; [|done].
  pose proof (Hfiles m c Hcfg) as Hfilei. rewrite Hfile, <- Hpath in Hfilei.
  destruct (verify_run wi m) as
    [msg [Hno|(c' & Hc' & Hno)] | c' content' Hc' Hf' Hexp
     | c' content' Hc' Hf' Hexp | c' content' pinned msg Hc' Hf' Hexp Hne];
    cbn [fst snd].
  - congruence.
  - congruence.
  - assert (c' = c) by congruence. subst c'.
    assert (content' = content) by congruence. subst content'.
    rewrite Hexp. cbn. by rewrite Hmeta.
  - assert (c' = c) by congruence. subst c'. by rewrite Hexp.
  - assert (c' = c) by congruence. subst c'. by rewrite Hexp.
Qed.

Lemma status_loop_disk w items :
  no_collision w -> NoDup items.*1 ->
  (forall m c, (m, c) ∈ items -> model_config w !! m = Some c) ->
  forall wi available,
    agree w wi ->
    (forall m c, (m, c) ∈ items -> model_config wi !! m = Some c) ->
    disk (status_loop items available wi).2
      = foldl (write_item w) (disk wi) items.
Proof.
  intros Hnc. induction items as [|[m0 c0] items IH];
    intros Hnd Hcfg wi available Hag Hcfgi; [done|].
  apply NoDup_cons in Hnd as [Hnotin Hnd].
  cbn [status_loop foldl]. unfold bind.
  destruct (status_step_config w wi m0 c0 Hnc Hag) as (Hc & Hag').
  { apply Hcfg. by left. }
  { apply Hcfgi. by left. }
  pose proof (status_step_disk w wi m0 c0 Hnc Hag) as Hd.
  pose proof (status_of_model_eq m0 c0 wi) as Heq.
  destruct (status_of_model m0 c0 wi) as [[ms|e] wi1] eqn:Hstep.
  2: { exfalso. by destruct (disk wi !! model_path wi c0). }
  cbn [snd] in *.
  rewrite (IH Hnd (fun m c Hin => Hcfg m c (list_elem_of_further _ _ _ Hin))
             wi1 (<[m0 := ms]> available) Hag').
  - rewrite Hd; [done| |].
    + apply Hcfg. by left.
    + apply Hcfgi. by left.
  - intros m c Hin. rewrite Hc, lookup_insert_ne.
    + apply Hcfgi. by right.
    + intros <-. apply Hnotin. apply list_elem_of_fmap. by exists (m0, c).
Qed.

Lemma foldl_write_other w items :
  forall d p,
    (forall m, m ∈ items.*1 -> p <> metadata_path w m) ->
    foldl (write_item w) d items !! p = d !! p.
Proof.
  induction items as [|[m0 c0] items IH]; intros d p Hp; [done|].
  cbn [foldl]. rewrite IH.
  - unfold write_item. cbn [fst snd].
    destruct (disk w !! model_path w c0), (expected_sha256 c0); try done.
    rewrite lookup_insert_ne; [done|]. intros Heq. apply (Hp m0); [by left|done].
  - intros m Hm. apply Hp. by right.
Qed.

Lemma foldl_write_lookup w items :
  NoDup items.*1 ->
  forall d m c content,
    (m, c) ∈ items ->
    disk w !! model_path w c = Some content -> expected_sha256 c = None ->
    foldl (write_item w) d items !! metadata_path w m
    = Some (json_dump (metadata_of content c)).
Proof.
  induction items as [|[m0 c0] items IH]; intros Hnd d m c content Hin Hfile Hexp.
  { by apply elem_of_nil in Hin. }
  apply NoDup_cons in Hnd as [Hnotin Hnd]. cbn [foldl].
  apply elem_of_cons in Hin as [[= <- <-]|Hin].
  - rewrite foldl_write_other.
    + unfold write_item. cbn [fst snd]. rewrite Hfile, Hexp.
      apply lookup_insert_eq.
    + intros n Hn Heq. apply metadata_path_inj in Heq. by subst.
  - by apply IH.
Qed.

(** C4, as the code has it: [get_model_status] returns one entry per
    configured artifact, and (when no model file sits at a metadata path)
    each entry tells whether the file exists, its size, whether it passes
    verification and whether the model is loaded.  A checksum that is
    already pinned is left as it is, and when every artifact whose file
    exists is pinned the call changes neither the configuration nor the
    files.  But for an artifact whose file exists and that has no checksum
    yet, the call itself (when no model file sits at a metadata path) pins
    the SHA-256 of the file as the expected checksum and writes the
    metadata file of the artifact, with that checksum, the size of the
    file, the time and the version; the entry of any other artifact is
    left as it was. *)
Theorem get_model_status_pins_on_first_use (w : World) :
  exists report w',
    get_model_status w = (Return report, w') /\
    (forall m, is_Some (models_available report !! m)
               <-> is_Some (model_config w !! m)) /\
    (no_collision w ->
     forall m, models_available report !! m
               = report_of w m <$> model_config w !! m) /\
    (forall m c h,
        model_config w !! m = Some c -> expected_sha256 c = Some h ->
        exists c', model_config w' !! m = Some c' /\
                   expected_sha256 c' = Some h) /\
    (settled w -> model_config w' = model_config w /\ disk w' = disk w) /\
    (no_collision w ->
     forall m c,
       model_config w !! m = Some c ->
       match disk w !! model_path w c, expected_sha256 c with
       | Some content, None =>
         model_config w' !! m = Some (set_expected (sha256 content) c) /\
         disk w' !! metadata_path w m
         = Some (json_dump {| checksum := sha256 content;
                              file_size := String.length content;
                              last_verified := now;
                              fm_version := version c |})
       | _, _ => model_config w' !! m = Some c
       end).
Proof.
  destruct (get_model_status_frame w)
    as (report & w' & Hrun & Hdom & Hrep & Hkeep & Hsettled & _).
  exists report, w'. split; [exact Hrun|]. split; [exact Hdom|].
  split; [exact Hrep|]. split; [exact Hkeep|]. split; [exact Hsettled|].
  intros Hnc m c Hc.
  assert (Hw' : w' = (get_model_status w).2) by by rewrite Hrun.
  destruct (get_model_status_result w Hnc) as (_ & _ & _ & _ & Hcfg & _).
  specialize (Hcfg m). rewrite Hc, <- Hw' in Hcfg. cbn in Hcfg.
  unfold after_status in Hcfg.
  destruct (disk w !! model_path w c) as [content|] eqn:Hfile; [|done].
  destruct (expected_sha256 c) as [pinned|] eqn:Hexp; [done|].
  split; [done|].
  destruct (get_model_status_eq w) as (available & _ & Heq).
  rewrite Heq in Hw'. cbn [snd] in Hw'. rewrite Hw'.
  rewrite (status_loop_disk w (map_to_list (model_config w)) Hnc).
  - apply (foldl_write_lookup w _ (NoDup_fst_map_to_list _) _ m c content);
      [by apply elem_of_map_to_list|done|done].
  - apply NoDup_fst_map_to_list.
  - intros m1 c1. apply elem_of_map_to_list.
  - apply agree_refl.
  - intros m1 c1. apply elem_of_map_to_list.
Qed.

(** Some configured artifact has a file whose SHA-256 differs from the
    pinned one. *)
Definition mismatched (w : World) : Prop :=
  exists m config content pinned,
    model_config w !! m = Some config /\
    disk w !! model_path w config = Some content /\
    expected_sha256 config = Some pinned /\
    sha256 content <> pinned.

Lemma forallb_filter_false {A} (f g : A -> bool) (l : list A) :
  forallb f (List.filter g l) = false <->
  exists x, x ∈ l /\ g x = true /\ f x = false.
Proof.
  induction l as [|y l IH]; cbn.
  - split; [done|]. intros (x & Hx & _). by apply elem_of_nil in Hx.
  - destruct (g y) eqn:Hg; cbn.
    + rewrite andb_false_iff, IH. split.
      * intros [Hf|(x & Hx & ?)]; [exists y|exists x]; split; auto; by constructor.
      * intros (x & Hx & Hgx & Hfx). apply elem_of_cons in Hx as [->|Hx]; eauto.
    + rewrite IH. split.
      * intros (x & Hx & ?). exists x. split; auto. by constructor.
      * intros (x & Hx & Hgx & Hfx). apply elem_of_cons in Hx as [->|Hx]; [congruence|eauto].
Qed.

(** X8: the overall [integrity_status] of [get_model_status] is "failed"
    exactly when some configured artifact has a file on disk whose SHA-256
    differs from its pinned checksum, and "verified" in every other case:
    missing files and files that were never pinned do not count against
    it. *)
Theorem integrity_status_failed_iff_mismatch (w : World) :
  no_collision w ->
  exists report,
    (get_model_status w).1 = Return report /\
    (integrity_status report = "failed" <-> mismatched w) /\
    (integrity_status report = "verified" <-> ~ mismatched w).
Proof.
  intros Hnc.
  destruct (get_model_status_result w Hnc) as (report & Hrun & Hstatus & Hlk & _).
  exists report. split; [by rewrite Hrun|].
  assert (Hiff : all_verified (models_available report) = false <-> mismatched w).
  { unfold all_verified. rewrite forallb_filter_false. split.
    - intros ([m ms] & Hin & Hex & Hver). cbn in *.
      apply elem_of_map_to_list in Hin. rewrite Hlk in Hin.
      destruct (model_config w !! m) as [c|] eqn:Hc; [|done].
      injection Hin as <-. unfold report_of, passes, base_status in *. cbn in *.
      destruct (disk w !! model_path w c) as [content|] eqn:Hfile; [|done].
      destruct (expected_sha256 c) as [pinned|] eqn:Hexp; [|done].
      apply bool_decide_eq_false_1 in Hver.
      by exists m, c, content, pinned.
    - intros (m & c & content & pinned & Hc & Hfile & Hexp & Hne).
      exists (m, report_of w m c). split; [|split].
      + apply elem_of_map_to_list. by rewrite Hlk, Hc.
      + unfold report_of, base_status. cbn. rewrite Hfile.
        by apply bool_decide_eq_true_2.
      + unfold report_of, passes. cbn. rewrite Hfile, Hexp.
        by apply bool_decide_eq_false_2. }
  rewrite Hstatus.
  destruct (all_verified (models_available report)) eqn:Hall.
  - split; [split; [done|]|split; [|done]].
    + intros Hm. apply Hiff in Hm. done.
    + intros _ Hm. apply Hiff in Hm. done.
  - split; [split; [intros _; by apply Hiff|done]|].
    split; [done|]. intros Hno. exfalso. apply Hno. by apply Hiff.
Qed.

(** X9: [get_model_status] is stable after its first call.  A second call,
    on the world the first one left, reports the same entries and the same
    overall status, and changes neither the configuration nor the files:
    whatever there was to pin, the first call has pinned. *)
Theorem status_is_stable_after_first_call (w : World) :
  no_collision w ->
  exists first second,
    (get_model_status w).1 = Return first /\
    (get_model_status (get_model_status w).2).1 = Return second /\
    models_available second = models_available first /\
    integrity_status second = integrity_status first /\
    model_config (get_model_status (get_model_status w).2).2
      = model_config (get_model_status w).2 /\
    disk (get_model_status (get_model_status w).2).2
      = disk (get_model_status w).2.
Proof.
  intros Hnc.
  destruct (get_model_status_result w Hnc)
    as (first & Hrun1 & Hst1 & Hlk1 & Hcfg1 & [Hdir Hld Hfiles]).
  set (w1 := (get_model_status w).2) in *.
  assert (Hsame_path : forall m c, model_config w !! m = Some c ->
            model_path w1 (after_status w c) = model_path w c).
  { intros m c Hc. unfold model_path, after_status. rewrite Hdir.
    destruct (disk w !! _), (expected_sha256 c); done. }
  assert (Hnc1 : no_collision w1).
  { intros m c1 n Hc1. rewrite Hcfg1 in Hc1.
    destruct (model_config w !! m) as [c|] eqn:Hc; [|done].
    injection Hc1 as <-. rewrite (Hsame_path m c Hc).
    unfold metadata_path. rewrite Hdir. by apply (Hnc m c n). }
  assert (Hset1 : settled w1).
  { intros m c1 Hc1 Hex. rewrite Hcfg1 in Hc1.
    destruct (model_config w !! m) as [c|] eqn:Hc; [|done].
    injection Hc1 as <-. rewrite (Hsame_path m c Hc), (Hfiles m c Hc) in Hex.
    unfold after_status. destruct Hex as [content Hfile]. rewrite Hfile.
    destruct (expected_sha256 c) eqn:Hexp; cbn; rewrite ?Hexp; eauto. }
  destruct (get_model_status_result w1 Hnc1)
    as (second & Hrun2 & Hst2 & Hlk2 & _ & _).
  exists first, second. split; [by rewrite Hrun1|]. split; [by rewrite Hrun2|].
  assert (Havail : models_available second = models_available first).
  { apply map_eq. intros m. rewrite Hlk2, Hlk1, Hcfg1.
    destruct (model_config w !! m) as [c|] eqn:Hc; [|done]. cbn. f_equal.
    unfold report_of, base_status, passes.
    rewrite (Hsame_path m c Hc), (Hfiles m c Hc), Hld.
    unfold after_status.
    destruct (disk w !! model_path w c) as [content|] eqn:Hfile; [|done].
    destruct (expected_sha256 c) as [pinned|] eqn:Hexp; cbn; [by rewrite Hexp|].
    by rewrite bool_decide_eq_true_2. }
  split; [done|]. split; [by rewrite Hst2, Hst1, Havail|].
  destruct (get_model_status_eq w1) as (available & _ & Hrun).
  rewrite Hrun. cbn [snd].
  destruct (status_loop_settled (map_to_list (model_config w1)) ∅ w1 w1 Hset1)
    as (_ & Hc & _ & _ & Hd).
  - done.
  - intros m c. apply elem_of_map_to_list.
  - by split.
Qed.

(** When the model file is there, step 2 starts with the local attempt. *)
Lemma load_into_memory_local_first model_name w :
  (forall config, model_config w !! model_name = Some config ->
                  is_Some (disk w !! model_path w config)) ->
  exists evs,
    events (load_into_memory model_name w).2 = events w ++ evs /\
    (evs = [] \/ exists rest, evs = EvModelsGet None :: rest).
Proof.
  intros Hfile.
  unfold load_into_memory, load_local_checkpoint, models_get,
    torch_load, load_state_dict, model_eval, _estimate_model_size, config_of.
  act_unfold. cbn.
  repeat (case_match; simplify_eq/=);
    try (exfalso;
         match goal with
         | H : bool_decide _ = false |- _ =>
           apply bool_decide_eq_false_1 in H; apply H, Hfile;
           first [assumption|reflexivity]
         end);
    first [ exists []; split; [symmetry; apply app_nil_r|by left]
          | eexists; rewrite <- ?app_assoc; split; [reflexivity|];
            right; eexists; reflexivity ].
Qed.

(** X10: the download branch of [load_yolo_nas_model] is never taken.  Step
    2 runs only after a verification that returned [True], so the model
    file exists when it is looked for: whatever the load does after the
    verification starts with [models.get(.., pretrained_weights=None)], the
    local attempt, and the pretrained weights are asked for only as the
    fallback of a local attempt that failed.  A missing model file is never
    downloaded: the load raises [ModelIntegrityError] and changes
    nothing. *)
Theorem download_branch_is_never_taken (w : World) :
  (exists evs,
     events (load_yolo_nas_model w).2
       = events (verify_model_integrity "yolo_nas_s" w).2 ++ evs /\
     (evs = [] \/ exists rest, evs = EvModelsGet None :: rest)) /\
  ((forall config, model_config w !! "yolo_nas_s" = Some config ->
                   disk w !! model_path w config = None) ->
   exists msg, load_yolo_nas_model w = (Raise (ModelIntegrityError msg), w)).
Proof.
  rewrite load_yolo_nas_model_eq.
  pose proof (verify_true_pins w "yolo_nas_s") as Hpins.
  pose proof (verify_extends w "yolo_nas_s") as [Hdir _ _ Hdisk].
  pose proof (verify_run w "yolo_nas_s") as Hrun.
  destruct (verify_model_integrity "yolo_nas_s" w) as [[b|e] w1] eqn:Hv;
    cbn [fst snd] in *.
  - assert (b = true) by (inversion Hrun; done). subst b.
    destruct (Hpins eq_refl) as (c1 & content & Hc1 & Hf & _).
    split.
    + destruct (load_into_memory_local_first "yolo_nas_s" w1) as (evs & Hevs & Hfirst).
      { intros config Hconfig. assert (config = c1) by congruence. subst config.
        unfold model_path in Hf |- *. rewrite Hdir. apply Hdisk. by rewrite Hf. }
      exists evs. split; [|done].
      by destruct (load_into_memory "yolo_nas_s" w1) as [[x|e] w2].
    + intros Hnone. exfalso. inversion Hrun as [| c ct Hc Hct | c ct Hc Hct |];
        subst; rewrite (Hnone c Hc) in Hct; done.
  - split.
    + exists []. split; [by rewrite app_nil_r|by left].
    + intros Hnone.
      inversion Hrun as [msg _ | | | c ct pinned msg Hc Hct]; subst.
      * by exists msg.
      * by rewrite (Hnone c Hc) in Hct.
Qed.

End Loader.

(** *** Concrete runs *)

(** A stand-in for the digest and for the JSON writer, to run the loader on
    concrete worlds.  The runs below do not depend on the choice. *)
Definition toy_digest (content : string) : string := "sha256:" +:+ content.

Definition toy_json (m : FileMetadata) : string :=
  "{checksum: " +:+ checksum m +:+ ", file_size: " +:+ pretty (file_size m)
  +:+ ", last_verified: " +:+ last_verified m
  +:+ ", version: " +:+ fm_version m +:+ "}".

(** A runtime in which every import works and [models.get] returns a
    network, but [torch.load] rejects whatever file it is given. *)
Definition unreadable_checkpoint_runtime : MLRuntime :=
  {| import_models := Return tt;
     import_torch := Return tt;
     models_get_outcome := fun _ => Return true;
     torch_load_outcome := fun _ => Raise (OtherException "invalid load key");
     load_state_dict_outcome := fun _ => Return tt;
     model_nbytes := fun _ => Return 0 |}.

(** A freshly constructed loader whose model file is on disk. *)
Definition fresh_world : World :=
  init "models" {[ "models/yolo_nas_s_coco.pth" := "weights" ]}.

(** A freshly constructed loader with an empty models directory. *)
Definition empty_world : World := init "models" ∅.

Definition yolo_config : ModelConfigEntry :=
  {| filename := "yolo_nas_s_coco.pth";
     expected_sha256 := None;
     url := "https://sghub.deci.ai/models/yolo_nas_s_coco.pth";
     description := "YOLO-NAS Small model trained on COCO dataset";
     version := "1.0" |}.

(** C1, as the specification states it, fails: the file passes verification,
    [torch.load] raises on it, and the load still returns a model, the
    pretrained one fetched by [models.get], registered as "yolo_nas_s".
    The only checksum computed is that of the local file, before the
    fetch. *)
Lemma load_substitutes_pretrained_model :
  (verify_model_integrity toy_digest toy_json "t0" "yolo_nas_s" fresh_world).1
    = Return true /\
  torch_load_outcome unreadable_checkpoint_runtime "weights"
    = Raise (OtherException "invalid load key") /\
  (load_yolo_nas_model toy_digest toy_json "t0"
     unreadable_checkpoint_runtime fresh_world).1
    = Return (PyModel (Pretrained "coco")) /\
  loaded_models
    (load_yolo_nas_model toy_digest toy_json "t0"
       unreadable_checkpoint_runtime fresh_world).2 !! "yolo_nas_s"
    = Some (Pretrained "coco") /\
  events
    (load_yolo_nas_model toy_digest toy_json "t0"
       unreadable_checkpoint_runtime fresh_world).2
    = [EvSha256 "models/yolo_nas_s_coco.pth";
       EvWriteMetadata "models/yolo_nas_s_metadata.json";
       EvModelsGet None;
       EvTorchLoad "models/yolo_nas_s_coco.pth";
       EvModelsGet (Some "coco")].
Proof. vm_compute. repeat split. Qed.

Lemma load_falls_back_to_pretrained_witness :
  model_config fresh_world !! "yolo_nas_s" = Some yolo_config /\
  disk fresh_world !! model_path fresh_world yolo_config = Some "weights" /\
  (load_yolo_nas_model toy_digest toy_json "t0"
     unreadable_checkpoint_runtime fresh_world).1
    = Return (PyModel (Pretrained "coco")).
Proof.
  assert (Hcfg : model_config fresh_world !! "yolo_nas_s" = Some yolo_config)
    by (vm_compute; reflexivity).
  assert (Hfile : disk fresh_world !! model_path fresh_world yolo_config
                  = Some "weights") by (vm_compute; reflexivity).
  split; [exact Hcfg|]. split; [exact Hfile|].
  destruct (load_falls_back_to_pretrained toy_digest toy_json "t0"
              unreadable_checkpoint_runtime fresh_world yolo_config "weights")
    as (_ & w' & evs & _ & _ & _ & Hresult & _).
  - exact Hcfg.
  - exact Hfile.
  - left. reflexivity.
  - vm_compute. discriminate.
  - reflexivity.
  - reflexivity.
  - right. left. eexists. reflexivity.
  - exact Hresult.
Defined.

Lemma verify_model_integrity_cases_witness :
  exists w',
    verify_model_integrity toy_digest toy_json "t0" "yolo_nas_s" fresh_world
      = (Return true, w') /\
    model_config w' !! "yolo_nas_s"
      = Some (set_expected "sha256:weights" yolo_config) /\
    disk w' !! "models/yolo_nas_s_metadata.json"
      = Some "{checksum: sha256:weights, file_size: 7, last_verified: t0, version: 1.0}".
Proof.
  destruct (verify_model_integrity_cases toy_digest toy_json "t0"
              fresh_world "yolo_nas_s") as [_ Hknown].
  destruct (Hknown yolo_config) as [_ Hpresent]; [vm_compute; reflexivity|].
  destruct (Hpresent "weights") as [Hfirst _]; [vm_compute; reflexivity|].
  exact (Hfirst eq_refl).
Defined.

(** C4, as the specification states it, fails: on a fresh loader whose model file
    exists, nothing is pinned and no metadata file exists before
    [get_model_status]; after it the checksum of the file is pinned and the
    metadata file has been written. *)
Lemma get_model_status_changes_pinned_state :
  expected_sha256 <$> model_config fresh_world !! "yolo_nas_s" = Some None /\
  disk fresh_world !! "models/yolo_nas_s_metadata.json" = None /\
  expected_sha256 <$>
    model_config (get_model_status toy_digest toy_json "t0" fresh_world).2
      !! "yolo_nas_s"
    = Some (Some "sha256:weights") /\
  disk (get_model_status toy_digest toy_json "t0" fresh_world).2
    !! "models/yolo_nas_s_metadata.json"
    = Some "{checksum: sha256:weights, file_size: 7, last_verified: t0, version: 1.0}".
Proof. vm_compute. repeat split. Qed.

Lemma get_model_status_pins_on_first_use_witness :
  no_collision fresh_world /\
  model_config (get_model_status toy_digest toy_json "t0" fresh_world).2
    !! "yolo_nas_s" = Some (set_expected "sha256:weights" yolo_config) /\
  disk (get_model_status toy_digest toy_json "t0" fresh_world).2
    !! "models/yolo_nas_s_metadata.json"
    = Some "{checksum: sha256:weights, file_size: 7, last_verified: t0, version: 1.0}".
Proof.
  assert (Hnc : no_collision fresh_world) by apply init_no_collision.
  split; [exact Hnc|].
  destruct (get_model_status_pins_on_first_use toy_digest toy_json "t0" fresh_world)
    as (report & w' & Hrun & _ & _ & _ & _ & Hpins).
  rewrite Hrun.
  apply (Hpins Hnc "yolo_nas_s" yolo_config). vm_compute. reflexivity.
Defined.

Lemma status_verified_without_any_file_witness :
  (forall m c, model_config empty_world !! m = Some c ->
               disk empty_world !! model_path empty_world c = None) /\
  exists report,
    get_model_status toy_digest toy_json "t0" empty_world
      = (Return report, empty_world) /\
    integrity_status report = "verified" /\
    (forall m, is_Some (model_config empty_world !! m) ->
       exists ms, models_available report !! m = Some ms /\
                  integrity_verified ms = false /\ file_exists ms = false).
Proof.
  assert (Hnone : forall m c, model_config empty_world !! m = Some c ->
                    disk empty_world !! model_path empty_world c = None).
  { intros m c _. apply lookup_empty. }
  split; [exact Hnone|].
  exact (status_verified_without_any_file toy_digest toy_json "t0" empty_world Hnone).
Defined.

(** A runtime in which the libraries are installed and accept the
    checkpoint. *)
Definition working_runtime : MLRuntime :=
  {| import_models := Return tt;
     import_torch := Return tt;
     models_get_outcome := fun _ => Return true;
     torch_load_outcome := fun content => Return ("state_dict of " +:+ content);
     load_state_dict_outcome := fun _ => Return tt;
     model_nbytes := fun _ => Return 0 |}.

(** A runtime without [super_gradients]. *)
Definition missing_libraries_runtime : MLRuntime :=
  {| import_models := Raise (ImportError "No module named super_gradients");
     import_torch := Return tt;
     models_get_outcome := fun _ => Return true;
     torch_load_outcome := fun content => Return ("state_dict of " +:+ content);
     load_state_dict_outcome := fun _ => Return tt;
     model_nbytes := fun _ => Return 0 |}.

(** The loader after one verification of the model file, and the same
    loader once the file has been replaced. *)
Definition verified_world : World :=
  (verify_model_integrity toy_digest toy_json "t0" "yolo_nas_s" fresh_world).2.

Definition tampered_world : World :=
  overwrite "models/yolo_nas_s_coco.pth" "malware" verified_world.

(** C2, as the specification states it, fails: the model file passes
    verification, [torch.load] raises on it, and [initialize_all_models]
    still returns [True]; the network in service is the pretrained one that
    [models.get] fetched, and the only checksum computed is that of the
    local file, before the fetch. *)
Lemma initialization_succeeds_with_unchecked_network :
  (verify_model_integrity toy_digest toy_json "t0" "yolo_nas_s" fresh_world).1
    = Return true /\
  torch_load_outcome unreadable_checkpoint_runtime "weights"
    = Raise (OtherException "invalid load key") /\
  (initialize_all_models toy_digest toy_json "t0"
     unreadable_checkpoint_runtime fresh_world).1 = Return true /\
  loaded_models
    (initialize_all_models toy_digest toy_json "t0"
       unreadable_checkpoint_runtime fresh_world).2 !! "yolo_nas_s"
    = Some (Pretrained "coco") /\
  List.filter is_checksum
    (events (initialize_all_models toy_digest toy_json "t0"
               unreadable_checkpoint_runtime fresh_world).2)
    = [EvSha256 "models/yolo_nas_s_coco.pth"].
Proof. vm_compute. repeat split. Qed.

Lemma initialize_all_models_propagates_witness :
  (initialize_all_models toy_digest toy_json "t0"
     working_runtime fresh_world).1 = Return true /\
  loaded_models
    (initialize_all_models toy_digest toy_json "t0"
       working_runtime fresh_world).2 !! "yolo_nas_s"
    = Some (FromStateDict "state_dict of weights") /\
  (initialize_all_models toy_digest toy_json "t0"
     unreadable_checkpoint_runtime fresh_world).1 = Return true /\
  loaded_models
    (initialize_all_models toy_digest toy_json "t0"
       unreadable_checkpoint_runtime fresh_world).2 !! "yolo_nas_s"
    = Some (Pretrained "coco") /\
  (initialize_all_models toy_digest toy_json "t0"
     unreadable_checkpoint_runtime empty_world).1
  = Raise (ModelIntegrityError "Model file not found: models/yolo_nas_s_coco.pth") /\
  loaded_models
    (initialize_all_models toy_digest toy_json "t0"
       unreadable_checkpoint_runtime empty_world).2
  = loaded_models empty_world.
Proof.
  assert (Hcfg : model_config fresh_world !! "yolo_nas_s" = Some yolo_config)
    by (vm_compute; reflexivity).
  assert (Hfile : disk fresh_world !! model_path fresh_world yolo_config
                  = Some "weights") by (vm_compute; reflexivity).
  assert (Hpath : model_path fresh_world yolo_config
                  <> metadata_path fresh_world "yolo_nas_s")
    by (vm_compute; discriminate).
  destruct (initialize_all_models_propagates toy_digest toy_json "t0"
              working_runtime fresh_world)
    as (_ & _ & _ & _ & _ & _ & Hsound & _).
  destruct (Hsound yolo_config "weights" "state_dict of weights" Hcfg Hfile
              (or_introl eq_refl) Hpath eq_refl eq_refl eq_refl eq_refl eq_refl)
    as (Hok & Hnet).
  destruct (initialize_all_models_propagates toy_digest toy_json "t0"
              unreadable_checkpoint_runtime fresh_world)
    as (_ & _ & _ & _ & _ & _ & _ & Hfallback).
  destruct (Hfallback yolo_config "weights" Hcfg Hfile
              (or_introl eq_refl) Hpath eq_refl eq_refl
              (or_intror (or_introl (ex_intro _ _ eq_refl))) eq_refl)
    as (Hok' & Hnet' & _).
  destruct (initialize_all_models_propagates toy_digest toy_json "t0"
              unreadable_checkpoint_runtime empty_world)
    as (_ & _ & _ & Hverify & _).
  destruct (Hverify (ModelIntegrityError "Model file not found: models/yolo_nas_s_coco.pth"))
    as (Hrun & _ & Hloaded).
  - vm_compute. reflexivity.
  - split; [exact Hok|]. split; [exact Hnet|]. split; [exact Hok'|].
    split; [exact Hnet'|]. split; [rewrite Hrun; reflexivity|exact Hloaded].
Defined.

Lemma verify_is_repeatable_witness :
  (verify_model_integrity toy_digest toy_json "t0" "yolo_nas_s" fresh_world).1
    = Return true /\
  verify_model_integrity toy_digest toy_json "t0" "yolo_nas_s" verified_world
    = (Return true, log (EvSha256 "models/yolo_nas_s_coco.pth") verified_world).
Proof.
  assert (Hok : (verify_model_integrity toy_digest toy_json "t0" "yolo_nas_s"
                   fresh_world).1 = Return true) by (vm_compute; reflexivity).
  split; [exact Hok|].
  destruct (verify_is_repeatable toy_digest toy_json "t0" fresh_world "yolo_nas_s" Hok)
    as (config & content & Hcfg & _ & _ & Hagain).
  - intros config Hcfg. apply (init_no_collision "models" _ "yolo_nas_s" config).
    exact Hcfg.
  - vm_compute in Hcfg. injection Hcfg as <-. exact Hagain.
Defined.

Lemma tampering_stops_initialization_witness :
  exists msg,
    (initialize_all_models toy_digest toy_json "t0" working_runtime
       tampered_world).1 = Raise (ModelIntegrityError msg) /\
    loaded_models
      (initialize_all_models toy_digest toy_json "t0" working_runtime
         tampered_world).2 = ∅.
Proof.
  pose proof (tampering_stops_initialization toy_digest toy_json "t0"
                working_runtime fresh_world yolo_config "weights" "malware")
    as Hthm.
  cbn zeta in Hthm.
  destruct Hthm as (msg & Hrun & Hloaded & _).
  - vm_compute. reflexivity.
  - vm_compute. reflexivity.
  - vm_compute. reflexivity.
  - vm_compute. discriminate.
  - vm_compute. discriminate.
  - exists msg. split; [exact Hrun|exact Hloaded].
Defined.

Lemma load_errors_are_wrapped_twice_witness :
  (verify_model_integrity toy_digest toy_json "t0" "yolo_nas_s" fresh_world).1
    = Return true /\
  (load_yolo_nas_model toy_digest toy_json "t0" missing_libraries_runtime
     fresh_world).1
  = Raise (ModelLoadingError
             ("Unexpected error loading model yolo_nas_s: "
              +:+ "Required ML libraries not available: "
              +:+ "No module named super_gradients")).
Proof.
  assert (Hrun : (load_yolo_nas_model toy_digest toy_json "t0"
                    missing_libraries_runtime fresh_world).1
                 = Raise (ModelLoadingError
                     ("Unexpected error loading model yolo_nas_s: "
                      +:+ "Required ML libraries not available: "
                      +:+ "No module named super_gradients")))
    by (vm_compute; reflexivity).
  split; [|exact Hrun].
  destruct (load_errors_are_wrapped_twice toy_digest toy_json "t0"
              missing_libraries_runtime fresh_world _ Hrun)
    as [[_ Hint]|[Hok _]].
  - discriminate Hint.
  - exact Hok.
Defined.

Lemma sound_checkpoint_is_loaded_locally_witness :
  (load_yolo_nas_model toy_digest toy_json "t0" working_runtime fresh_world).1
    = Return (PyModel (FromStateDict "state_dict of weights")) /\
  List.filter is_deserialization
    (events (load_yolo_nas_model toy_digest toy_json "t0" working_runtime
               fresh_world).2)
    = [EvModelsGet None; EvTorchLoad "models/yolo_nas_s_coco.pth"; EvLoadStateDict].
Proof.
  destruct (sound_checkpoint_is_loaded_locally toy_digest toy_json "t0"
              working_runtime fresh_world yolo_config "weights"
              "state_dict of weights") as (Hrun & _ & Hevents).
  - vm_compute. reflexivity.
  - vm_compute. reflexivity.
  - left. reflexivity.
  - vm_compute. discriminate.
  - reflexivity.
  - reflexivity.
  - reflexivity.
  - reflexivity.
  - reflexivity.
  - split; [exact Hrun|]. rewrite Hevents. vm_compute. reflexivity.
Defined.

Lemma integrity_status_failed_iff_mismatch_witness :
  no_collision tampered_world /\
  exists report,
    (get_model_status toy_digest toy_json "t0" tampered_world).1 = Return report /\
    integrity_status report = "failed".
Proof.
  assert (Hnc : no_collision tampered_world).
  { intros m c n Hc. vm_compute in Hc.
    destruct (decide (m = "yolo_nas_s")) as [->|Hne].
    - vm_compute in Hc. injection Hc as <-.
      apply (init_no_collision "models" ∅ "yolo_nas_s" yolo_config n).
      reflexivity.
    - exfalso. change (model_config tampered_world !! m = Some c) in Hc.
      assert (Hlk : model_config tampered_world
                    = {[ "yolo_nas_s" := set_expected "sha256:weights" yolo_config ]})
        by (vm_compute; reflexivity).
      rewrite Hlk in Hc. apply lookup_singleton_Some in Hc as [Hm _]. by subst. }
  split; [exact Hnc|].
  destruct (integrity_status_failed_iff_mismatch toy_digest toy_json "t0"
              tampered_world Hnc) as (report & Hrun & Hfailed & _).
  exists report. split; [exact Hrun|]. apply Hfailed.
  exists "yolo_nas_s", (set_expected "sha256:weights" yolo_config),
    "malware", "sha256:weights".
  vm_compute. repeat split; discriminate.
Defined.

Lemma status_is_stable_after_first_call_witness :
  no_collision fresh_world /\
  exists first second,
    (get_model_status toy_digest toy_json "t0" fresh_world).1 = Return first /\
    (get_model_status toy_digest toy_json "t0"
       (get_model_status toy_digest toy_json "t0" fresh_world).2).1
      = Return second /\
    models_available second = models_available first /\
    integrity_status second = integrity_status first.
Proof.
  split; [apply init_no_collision|].
  destruct (status_is_stable_after_first_call toy_digest toy_json "t0"
              fresh_world (init_no_collision _ _))
    as (first & second & H1 & H2 & H3 & H4 & _).
  exists first, second. repeat split; assumption.
Defined.

End ModelLoader.

(** ** Batch ingestion and tracking ([api/upload.py]) *)

Module Upload.

(** [fastapi.HTTPException(status_code=.., detail=..)] *)
Record HTTPException : Type := mkHTTPException {
  status_code : nat;
  detail : string
}.

(** The fields of [app.models.user.User] that the routes read. *)
Record User : Type := mkUser {
  user_id : nat;
  username : string;
  can_view_all_data : bool
}.

(** An uploaded file: its name and what [await file.read()] gives, the bytes
    or an exception (kept as its message, all the handler uses). *)
Record UploadFile : Type := mkUploadFile {
  uf_filename : string;
  uf_read : Outcome string string
}.

(** The dictionary returned by [extract_image_metadata]; an absent key is
    [None].  Coordinates are fixed-point numbers. *)
Record ImageMetadata : Type := mkImageMetadata {
  camera_model : option string;
  camera_software_version : option string;
  image_width : option nat;
  image_height : option nat;
  latitude : option Z;
  longitude : option Z;
  altitude : option Z;
  gps_timestamp : option Z;
  md_capture_timestamp : option Z;
  camera_settings : option string
}.

(** A row of [ThermalScan]: the columns the routes set or read.

    Modelled from the spec: the class [app.models.thermal_scan.ThermalScan]
    is not among the sources; a new record gets a fresh [id], status
    "pending", its creation time, and no completion time. *)
Record ThermalScan : Type := mkThermalScan {
  id : nat;
  original_filename : string;
  file_path : string;
  file_size_bytes : nat;
  file_hash : string;
  image_metadata : ImageMetadata;
  capture_timestamp : Z;
  ambient_temperature : option Z;
  batch_id : string;
  batch_sequence : nat;
  substation_id : option nat;
  uploaded_by : nat;
  notes : option string;
  processing_status : string;
  created_at : Z;
  processing_completed_at : option Z;
  processing_time_str : string
}.

Record Substation : Type := mkSubstation {
  sub_id : nat;
  sub_latitude : Z;
  sub_longitude : Z;
  is_active : bool
}.

(** A file kept by [save_uploaded_file]. *)
Record StoredFile : Type := mkStoredFile {
  sf_path : string;
  sf_batch : string;
  sf_content : string
}.

(** Database tables, batch storage, the batch identifiers handed out so
    far, the analysis tasks scheduled with [asyncio.create_task], and the
    clock. *)
Record World : Type := mkWorld {
  scans : list ThermalScan;
  next_id : nat;
  substations : list Substation;
  storage : list StoredFile;
  batches_created : nat;
  tasks : list (string * nat);
  now : Z
}.

(** [FileUploadStatus] *)
Record FileUploadStatus : Type := mkFileUploadStatus {
  fus_filename : string;
  fus_status : string;
  fus_message : string;
  thermal_scan_id : option nat
}.

(** [UploadResponse] *)
Record UploadResponse : Type := mkUploadResponse {
  ur_batch_id : string;
  total_files : nat;
  ur_successful_uploads : nat;
  ur_failed_uploads : nat;
  ur_processing_status : string;
  ur_message : string
}.

(** [BatchStatus] *)
Record BatchStatus : Type := mkBatchStatus {
  bs_batch_id : string;
  total_images : nat;
  processed_images : nat;
  failed_images : nat;
  bs_status : string;
  bs_created_at : string;
  processing_duration : option string
}.

(** The state of one [upload_thermal_images] call inside its loop: the
    world and the three local accumulators. *)
Record Run : Type := mkRun {
  world : World;
  successful_uploads : nat;
  failed_uploads : nat;
  upload_results : list FileUploadStatus
}.

Definition with_world (f : World -> World) (r : Run) : Run :=
  {| world := f (world r); successful_uploads := successful_uploads r;
     failed_uploads := failed_uploads r; upload_results := upload_results r |}.

Definition record_failed (name message : string) (r : Run) : Run :=
  {| world := world r; successful_uploads := successful_uploads r;
     failed_uploads := failed_uploads r + 1;
     upload_results := upload_results r ++
       [{| fus_filename := name; fus_status := "failed";
           fus_message := message; thermal_scan_id := None |}] |}.

Definition record_skipped (name : string) (existing : ThermalScan) (r : Run) : Run :=
  {| world := world r; successful_uploads := successful_uploads r;
     failed_uploads := failed_uploads r;
     upload_results := upload_results r ++
       [{| fus_filename := name; fus_status := "skipped";
           fus_message := "Duplicate file already processed";
           thermal_scan_id := Some (id existing) |}] |}.

Definition record_uploaded (name : string) (scan : ThermalScan) (r : Run) : Run :=
  {| world := world r; successful_uploads := successful_uploads r + 1;
     failed_uploads := failed_uploads r;
     upload_results := upload_results r ++
       [{| fus_filename := name; fus_status := "uploaded";
           fus_message := "Successfully uploaded and queued for processing";
           thermal_scan_id := Some (id scan) |}] |}.

(** [db.add(scan); db.commit(); db.refresh(scan)]: the row is appended
    with the next primary key, taken from a counter that only grows (a
    database that hands out the key of a deleted last row again is outside
    this model). *)
Definition insert_scan (scan : ThermalScan) (w : World) : World :=
  {| scans := scans w ++ [scan]; next_id := S (next_id w);
     substations := substations w; storage := storage w;
     batches_created := batches_created w; tasks := tasks w; now := now w |}.

Definition store_file (f : StoredFile) (w : World) : World :=
  {| scans := scans w; next_id := next_id w;
     substations := substations w; storage := storage w ++ [f];
     batches_created := batches_created w; tasks := tasks w; now := now w |}.

Definition allocate_batch (w : World) : World :=
  {| scans := scans w; next_id := next_id w;
     substations := substations w; storage := storage w;
     batches_created := S (batches_created w); tasks := tasks w; now := now w |}.

Definition schedule (task : string * nat) (w : World) : World :=
  {| scans := scans w; next_id := next_id w;
     substations := substations w; storage := storage w;
     batches_created := batches_created w; tasks := tasks w ++ [task];
     now := now w |}.

(** [db.query(ThermalScan).filter(ThermalScan.file_hash == h).first()] *)
Definition first_with_hash (h : string) (w : World) : option ThermalScan :=
  List.find (fun s => bool_decide (file_hash s = h)) (scans w).

(** [db.query(ThermalScan).filter(ThermalScan.batch_id == b).all()] *)
Definition scans_of_batch (b : string) (w : World) : list ThermalScan :=
  List.filter (fun s => bool_decide (batch_id s = b)) (scans w).

(** Truth value of [metadata.get(key)] for a coordinate: [None] and zero
    are false. *)
Definition truthy (x : option Z) : bool :=
  match x with Some z => negb (z =? 0)%Z | None => false end.

Section Routes.

(** The methods of [thermal_processor] ([app.utils.thermal_processing], not
    among the sources) that the upload route calls, taken as they are
    called. *)
Variable create_batch_id : nat -> string.
  (* the identifier created when that many batches exist already *)
Variable validate_image_file : string -> nat -> bool * string.
Variable calculate_file_hash : string -> string.
Variable save_path : string -> string -> string.
  (* where save_uploaded_file puts (filename, batch_id) *)
Variable save_outcome : string -> string -> string -> Outcome string unit.
  (* whether save_uploaded_file (content, filename, batch_id) raises *)
Variable extract_image_metadata : string -> Outcome string ImageMetadata.
Variable find_matching_substation :
  Z -> Z -> list Substation -> Outcome string (option nat).
(** Formatting done by the Python runtime. *)
Variable isoformat : Z -> string.             (* datetime.isoformat() *)
Variable format_seconds : Z -> string.        (* f"{duration:.1f} seconds" *)

Local Abbreviation L := (Act Run string).
Local Open Scope act_scope.

(** [thermal_processor.save_uploaded_file(content, filename, batch_id)] *)
Definition save_uploaded_file (content name batch : string) : L string :=
  lift (save_outcome content name batch) >>
  let path := save_path name batch in
  modify (with_world (store_file {| sf_path := path; sf_batch := batch;
                                    sf_content := content |})) >>
  ret path.

(** The [try] block of the upload loop, for one file.  A [continue] ends
    the block. *)
Definition file_body (ambient : option Z) (file_notes : option string)
    (current_user : User) (batch : string) (active : list Substation)
    (sequence : nat) (file : UploadFile) : L unit :=
  (* Read file content *)
  let! file_content := lift (uf_read file) in
  let file_size := String.length file_content in
  (* Validate file *)
  let '(is_valid, validation_message) :=
    validate_image_file (uf_filename file) file_size in
  if negb is_valid
  then modify (record_failed (uf_filename file) validation_message)
  else
    (* Calculate file hash for deduplication *)
    let file_hash := calculate_file_hash file_content in
    (* Check for duplicate *)
    let! existing_scan := gets (fun r => first_with_hash file_hash (world r)) in
    match existing_scan with
    | Some existing => modify (record_skipped (uf_filename file) existing)
    | None =>
      (* Save file temporarily *)
      let! path := save_uploaded_file file_content (uf_filename file) batch in
      (* Extract metadata *)
      let! metadata := lift (extract_image_metadata path) in
      (* Find matching substation *)
      let! substation :=
        (if truthy (latitude metadata) && truthy (longitude metadata)
         then lift (find_matching_substation
                      (default 0%Z (latitude metadata))
                      (default 0%Z (longitude metadata)) active)
         else ret None) in
      (* Create thermal scan record *)
      let! w := gets world in
      let thermal_scan :=
        {| id := next_id w;
           original_filename := uf_filename file;
           file_path := path;
           file_size_bytes := file_size;
           file_hash := file_hash;
           image_metadata := metadata;
           capture_timestamp := default (now w) (md_capture_timestamp metadata);
           ambient_temperature := ambient;
           batch_id := batch;
           batch_sequence := sequence;
           substation_id := substation;
           uploaded_by := user_id current_user;
           notes := file_notes;
           processing_status := "pending";
           created_at := now w;
           processing_completed_at := None;
           processing_time_str := "" |} in
      modify (with_world (insert_scan thermal_scan)) >>
      modify (record_uploaded (uf_filename file) thermal_scan)
    end.

(** One iteration: the [try] block and its [except Exception as e]. *)
Definition process_file (ambient : option Z) (file_notes : option string)
    (current_user : User) (batch : string) (active : list Substation)
    (sequence : nat) (file : UploadFile) (r : Run) : Run :=
  (try_except
     (file_body ambient file_notes current_user batch active sequence file)
     (fun e => modify (record_failed (uf_filename file)
                         ("Processing error: " +:+ e))) r).2.

(** [for sequence, file in enumerate(files, 1)], entered with the counter
    at [sequence]. *)
Fixpoint upload_loop (ambient : option Z) (file_notes : option string)
    (current_user : User) (batch : string) (active : list Substation)
    (sequence : nat) (files : list UploadFile) (r : Run) : Run :=
  match files with
  | [] => r
  | file :: rest =>
    upload_loop ambient file_notes current_user batch active (S sequence) rest
      (process_file ambient file_notes current_user batch active sequence file r)
  end.

(** The state in which the loop of [upload_thermal_images] ends, for a
    request that passed the two checks on [files]. *)
Definition upload_run (files : list UploadFile) (ambient : option Z)
    (file_notes : option string) (current_user : User) (w : World) : Run :=
  (* Create batch ID *)
  let batch := create_batch_id (batches_created w) in
  let w1 := allocate_batch w in
  (* Get all substations for location matching *)
  let active := List.filter is_active (substations w1) in
  upload_loop ambient file_notes current_user batch active 1 files
    {| world := w1; successful_uploads := 0; failed_uploads := 0;
       upload_results := [] |}.

(** [upload_thermal_images] *)
Definition upload_thermal_images (files : list UploadFile) (ambient : option Z)
    (file_notes : option string) (current_user : User)
  : Act World HTTPException UploadResponse :=
  fun w =>
  match files with
  | [] => (Raise {| status_code := 400; detail := "No files provided" |}, w)
  | _ :: _ =>
    (* Validate file count *)
    if 5000 <? length files
    then (Raise {| status_code := 400;
                   detail := "Maximum 5000 files allowed per batch" |}, w)
    else
      let batch := create_batch_id (batches_created w) in
      let r := upload_run files ambient file_notes current_user w in
      (* Start background processing if any files were uploaded successfully *)
      let queued := 0 <? successful_uploads r in
      let w' := if queued
                then schedule (batch, user_id current_user) (world r)
                else world r in
      (Return {| ur_batch_id := batch;
                 total_files := length files;
                 ur_successful_uploads := successful_uploads r;
                 ur_failed_uploads := failed_uploads r;
                 ur_processing_status := if queued then "queued" else "idle";
                 ur_message :=
                   if queued
                   then "Batch " +:+ batch +:+ ": "
                        +:+ pretty (successful_uploads r)
                        +:+ " files uploaded successfully, "
                        +:+ pretty (failed_uploads r)
                        +:+ " failed. Processing started."
                   else "Batch " +:+ batch
                        +:+ ": No files processed successfully. "
                        +:+ pretty (failed_uploads r) +:+ " failed." |},
       w')
  end.

(** [len([s for s in scans if s.processing_status == status])] *)
Definition count_status (status : string) (batch : list ThermalScan) : nat :=
  length (List.filter (fun s => bool_decide (processing_status s = status)) batch).

(** The [if/elif] chain of [get_batch_status]. *)
Definition overall_status (batch : list ThermalScan) : string :=
  let total_images := length batch in
  let processed_images := count_status "completed" batch in
  let failed_images := count_status "failed" batch in
  let pending_images := count_status "pending" batch in
  let processing_images := count_status "processing" batch in
  if failed_images =? total_images then "failed"
  else if processed_images =? total_images then "completed"
  else if 0 <? processing_images then "processing"
  else if 0 <? pending_images then "pending"
  else "unknown".

(** [min(items, key=..)] and [max(items, key=..)] on a non-empty list
    [first :: rest]: the first item with the least (greatest) key. *)
Fixpoint min_by {A} (key : A -> Z) (best : A) (rest : list A) : A :=
  match rest with
  | [] => best
  | x :: rest' => min_by key (if (key x <? key best)%Z then x else best) rest'
  end.

Fixpoint max_by {A} (key : A -> Z) (best : A) (rest : list A) : A :=
  match rest with
  | [] => best
  | x :: rest' => max_by key (if (key best <? key x)%Z then x else best) rest'
  end.

(** [[s for s in scans if s.processing_completed_at]] *)
Definition completed_scans (batch : list ThermalScan) : list ThermalScan :=
  List.filter (fun s => bool_decide (is_Some (processing_completed_at s))) batch.

(** [s.processing_completed_at] of a scan that has one. *)
Definition completion_time (s : ThermalScan) : Z :=
  default 0%Z (processing_completed_at s).

(** The duration in the time unit of the clock, before formatting. *)
Definition duration_of (batch : list ThermalScan) : option Z :=
  match batch with
  | [] => None
  | first :: rest =>
    let first_scan := min_by created_at first rest in
    match completed_scans batch with
    | [] => None
    | c :: cs =>
      let last_completed := max_by completion_time c cs in
      Some (completion_time last_completed - created_at first_scan)%Z
    end
  end.

(** The access check shared by the status and the listing route:
    [if not current_user.can_view_all_data:
       if not any(scan.uploaded_by == current_user.id for scan in scans): raise]. *)
Definition access_denied (current_user : User) (batch : list ThermalScan) : bool :=
  if negb (can_view_all_data current_user)
  then negb (existsb (fun s => uploaded_by s =? user_id current_user) batch)
  else false.

(** [get_batch_status] *)
Definition get_batch_status (batch : string) (current_user : User)
  : Act World HTTPException BatchStatus :=
  fun w =>
  let found := scans_of_batch batch w in
  match found with
  | [] => (Raise {| status_code := 404; detail := "Batch not found" |}, w)
  | first :: _ =>
    if access_denied current_user found
    then (Raise {| status_code := 403;
                   detail := "Access denied to this batch" |}, w)
    else
      (Return {| bs_batch_id := batch;
                 total_images := length found;
                 processed_images := count_status "completed" found;
                 failed_images := count_status "failed" found;
                 bs_status := overall_status found;
                 bs_created_at := isoformat (created_at first);
                 processing_duration := format_seconds <$> duration_of found |},
       w)
  end.

(** [sorted(scans, key=lambda x: x.batch_sequence)]: a stable sort. *)
Fixpoint insert_by_sequence (s : ThermalScan) (sorted : list ThermalScan)
  : list ThermalScan :=
  match sorted with
  | [] => [s]
  | x :: rest =>
    if batch_sequence x <=? batch_sequence s
    then x :: insert_by_sequence s rest
    else s :: sorted
  end.

Definition sorted_by_sequence (batch : list ThermalScan) : list ThermalScan :=
  foldl (fun sorted s => insert_by_sequence s sorted) [] batch.

(** [get_batch_files] *)
Definition get_batch_files (batch : string) (current_user : User)
  : Act World HTTPException (list FileUploadStatus) :=
  fun w =>
  let found := scans_of_batch batch w in
  match found with
  | [] => (Raise {| status_code := 404; detail := "Batch not found" |}, w)
  | _ :: _ =>
    if access_denied current_user found
    then (Raise {| status_code := 403;
                   detail := "Access denied to this batch" |}, w)
    else
      (Return (map (fun scan =>
                      {| fus_filename := original_filename scan;
                         fus_status := processing_status scan;
                         fus_message := "Processing time: "
                                        +:+ processing_time_str scan;
                         thermal_scan_id := Some (id scan) |})
                   (sorted_by_sequence found)),
       w)
  end.

(** Modelled from the spec: [thermal_processor.cleanup_batch_files] is not
    among the sources; it removes the files stored for the batch. *)
Definition cleanup_batch_files (batch : string) (w : World) : World :=
  {| scans := scans w; next_id := next_id w; substations := substations w;
     storage := List.filter (fun f => negb (bool_decide (sf_batch f = batch)))
                            (storage w);
     batches_created := batches_created w; tasks := tasks w; now := now w |}.

Definition delete_scans (batch : string) (w : World) : World :=
  {| scans := List.filter (fun s => negb (bool_decide (batch_id s = batch)))
                          (scans w);
     next_id := next_id w; substations := substations w;
     storage := storage w;
     batches_created := batches_created w; tasks := tasks w; now := now w |}.

(** [delete_batch]; the "admin" permission is checked by the dependency
    [require_permission] before the body runs. *)
Definition delete_batch (batch : string) (current_user : User)
  : Act World HTTPException string :=
  fun w =>
  match scans_of_batch batch w with
  | [] => (Raise {| status_code := 404; detail := "Batch not found" |}, w)
  | _ :: _ =>
    (Return ("Batch " +:+ batch +:+ " deleted successfully"),
     cleanup_batch_files batch (delete_scans batch w))
  end.

(** *** One file of the upload loop *)

Section OneCall.

Variables (ambient : option Z) (file_notes : option string)
  (current_user : User) (batch : string) (active : list Substation).

Local Abbreviation step := (process_file ambient file_notes current_user batch active).
Local Abbreviation loop := (upload_loop ambient file_notes current_user batch active).

(** The three ways an iteration can end. *)
Inductive FileStep (sequence : nat) (file : UploadFile) (r : Run) : Run -> Prop :=
| StepFailed message r0 :
    r0 = r \/ (exists f, r0 = with_world (store_file f) r) ->
    FileStep sequence file r (record_failed (uf_filename file) message r0)
| StepSkipped content reason existing :
    uf_read file = Return content ->
    validate_image_file (uf_filename file) (String.length content) = (true, reason) ->
    first_with_hash (calculate_file_hash content) (world r) = Some existing ->
    FileStep sequence file r (record_skipped (uf_filename file) existing r)
| StepUploaded content reason scan f :
    uf_read file = Return content ->
    validate_image_file (uf_filename file) (String.length content) = (true, reason) ->
    first_with_hash (calculate_file_hash content) (world r) = None ->
    id scan = next_id (world r) ->
    file_hash scan = calculate_file_hash content ->
    batch_id scan = batch ->
    batch_sequence scan = sequence ->
    original_filename scan = uf_filename file ->
    uploaded_by scan = user_id current_user ->
    processing_status scan = "pending" ->
    FileStep sequence file r
      (record_uploaded (uf_filename file) scan
         (with_world (insert_scan scan) (with_world (store_file f) r))).

Lemma file_step sequence file r : FileStep sequence file r (step sequence file r).
Proof.
  unfold process_file, file_body, save_uploaded_file. act_unfold.
  destruct (uf_read file) as [content|e] eqn:Hread; cbn.
  2: { apply StepFailed. by left. }
  destruct (validate_image_file (uf_filename file) (String.length content))
    as [[|] reason] eqn:Hvalid; cbn.
  2: { apply StepFailed. by left. }
  destruct (first_with_hash (calculate_file_hash content) (world r))
    as [existing|] eqn:Hfind; cbn.
  { by eapply StepSkipped. }
  destruct (save_outcome content (uf_filename file) batch) as [[]|e]; cbn.
  2: { apply StepFailed. by left. }
  destruct (extract_image_metadata (save_path (uf_filename file) batch))
    as [metadata|e]; cbn.
  2: { apply StepFailed. right. eauto. }
  destruct (truthy (latitude metadata) && truthy (longitude metadata)); cbn.
  - destruct (find_matching_substation _ _ active) as [substation|e]; cbn.
    + by eapply StepUploaded.
    + apply StepFailed. right. eauto.
  - by eapply StepUploaded.
Qed.

Lemma loop_app k files1 files2 r :
  loop k (files1 ++ files2) r = loop (k + length files1) files2 (loop k files1 r).
Proof.
  revert k r. induction files1 as [|f files1 IH]; intros k r; cbn.
  - by rewrite Nat.add_0_r.
  - rewrite IH. f_equal. lia.
Qed.

Lemma first_with_hash_none h w :
  first_with_hash h w = None -> h ∉ file_hash <$> scans w.
Proof.
  unfold first_with_hash. intros Hnone Hin.
  apply list_elem_of_fmap in Hin as (s & -> & Hin).
  apply list_elem_of_In in Hin.
  pose proof (find_none _ _ Hnone s Hin) as Hf. cbn in Hf.
  by rewrite bool_decide_eq_true_2 in Hf.
Qed.

Lemma first_with_hash_unique w scan :
  NoDup (file_hash <$> scans w) -> scan ∈ scans w ->
  first_with_hash (file_hash scan) w = Some scan.
Proof.
  unfold first_with_hash. induction (scans w) as [|s l IH]; intros Hnd Hin.
  { by apply elem_of_nil in Hin. }
  cbn in *. apply NoDup_cons in Hnd as [Hnotin Hnd].
  case_bool_decide as Heq.
  - apply elem_of_cons in Hin as [->|Hin]; [done|].
    exfalso. apply Hnotin. rewrite Heq. apply list_elem_of_fmap. eauto.
  - apply elem_of_cons in Hin as [->|Hin]; [done|]. by apply IH.
Qed.

(** The records one run of the loop adds. *)
Record Added (k : nat) (files : list UploadFile) (r r' : Run)
    (new : list ThermalScan) : Prop := mkAdded {
  added_scans : scans (world r') = scans (world r) ++ new;
  added_bound : length new <= length files;
  added_count : successful_uploads r' = successful_uploads r + length new;
  added_fields :
    Forall (fun s => batch_id s = batch /\ processing_status s = "pending" /\
                     uploaded_by s = user_id current_user /\
                     k <= batch_sequence s /\
                     exists f, files !! (batch_sequence s - k) = Some f /\
                               uf_filename f = original_filename s) new;
  added_sorted :
    StronglySorted (fun a b => batch_sequence a < batch_sequence b) new;
  added_full :
    length new = length files -> batch_sequence <$> new = seq k (length files)
}.

Lemma loop_added files :
  forall k r, exists new, Added k files r (loop k files r) new.
Proof.
  induction files as [|file rest IH]; intros k r.
  { exists []. split; cbn; rewrite ?app_nil_r; try done; try lia; constructor. }
  cbn [upload_loop].
  destruct (IH (S k) (step k file r)) as (new' & [Hsc Hbd Hct Hfl Hso Hfu]).
  assert (Hshift :
    Forall (fun s => batch_id s = batch /\ processing_status s = "pending" /\
                     uploaded_by s = user_id current_user /\
                     k <= batch_sequence s /\
                     exists f, (file :: rest) !! (batch_sequence s - k) = Some f /\
                               uf_filename f = original_filename s) new').
  { eapply Forall_impl; [exact Hfl|]. cbn.
    intros s (? & ? & ? & Hle & f & Hf & ?). repeat split; auto; [lia|].
    exists f. split; [|done].
    replace (batch_sequence s - k) with (S (batch_sequence s - S k)) by lia.
    done. }
  destruct (file_step k file r) as
    [message r0 [->|[f ->]] | content reason existing _ _ _
     | content reason scan f _ _ _ Hid Hhash Hbatch Hseq Hname Hby Hst].
  1-3: exists new'; split; cbn in *; auto; try lia;
       intros Hlen; lia.
  exists (scan :: new'). split; cbn in *.
  - by rewrite Hsc, <- app_assoc.
  - lia.
  - lia.
  - constructor; [|done]. repeat split; auto; [lia|].
    exists file. rewrite Hseq, Nat.sub_diag. by split.
  - constructor; [done|]. eapply Forall_impl; [exact Hfl|]. cbn.
    intros s (_ & _ & _ & Hle & _). lia.
  - intros Hlen. rewrite Hseq, Hfu by lia. done.
Qed.

Lemma step_hashes k file r :
  NoDup (file_hash <$> scans (world r)) ->
  NoDup (file_hash <$> scans (world (step k file r))).
Proof.
  intros Hnd.
  destruct (file_step k file r) as
    [message r0 [->|[f ->]] | content reason existing _ _ _
     | content reason scan f _ _ Hnone Hid Hhash Hbatch Hseq Hname Hby Hst];
    cbn; auto.
  rewrite fmap_app. apply NoDup_app. split; [done|]. split.
  - intros h Hin Hin'. cbn in Hin'. apply list_elem_of_singleton in Hin'.
    subst h. rewrite Hhash in Hin. by apply first_with_hash_none in Hnone.
  - cbn. apply NoDup_singleton.
Qed.

Lemma loop_hashes files :
  forall k r,
    NoDup (file_hash <$> scans (world r)) ->
    NoDup (file_hash <$> scans (world (loop k files r))).
Proof.
  induction files as [|file rest IH]; intros k r Hnd; [done|].
  cbn. by apply IH, step_hashes.
Qed.

(** Every file leaves exactly one entry in [upload_results]. *)
Lemma step_results k file r :
  exists entry,
    upload_results (step k file r) = upload_results r ++ [entry] /\
    fus_filename entry = uf_filename file.
Proof.
  destruct (file_step k file r) as [message r0 [->|[f ->]] | | ]; cbn; eauto.
Qed.

Lemma loop_results files :
  forall k r, exists entries,
    upload_results (loop k files r) = upload_results r ++ entries /\
    length entries = length files.
Proof.
  induction files as [|file rest IH]; intros k r.
  { exists []. by rewrite app_nil_r. }
  cbn. destruct (IH (S k) (step k file r)) as (entries & -> & Hlen).
  destruct (step_results k file r) as (entry & -> & _).
  exists (entry :: entries). rewrite <- app_assoc. cbn. split; [done|lia].
Qed.

Lemma step_skips k file r content reason existing :
  uf_read file = Return content ->
  validate_image_file (uf_filename file) (String.length content) = (true, reason) ->
  first_with_hash (calculate_file_hash content) (world r) = Some existing ->
  step k file r = record_skipped (uf_filename file) existing r.
Proof.
  intros Hread Hvalid Hfind.
  unfold process_file, file_body. act_unfold.
  by rewrite Hread, Hvalid; cbn; rewrite Hfind.
Qed.

(** An exception anywhere in the [try] block ends the iteration with one
    "failed" entry, no new record, and the earlier records in place. *)
Lemma step_catches k file r e r1 :
  file_body ambient file_notes current_user batch active k file r = (Raise e, r1) ->
  step k file r
    = record_failed (uf_filename file) ("Processing error: " +:+ e) r1 /\
  scans (world r1) = scans (world r) /\
  successful_uploads r1 = successful_uploads r /\
  failed_uploads r1 = failed_uploads r /\
  upload_results r1 = upload_results r.
Proof.
  unfold process_file. unfold try_except at 1. intros Hbody. rewrite Hbody.
  split; [done|]. revert Hbody.
  unfold file_body, save_uploaded_file. act_unfold.
  destruct (uf_read file) as [content|e0]; cbn; [|by intros [= <- <-]].
  destruct (validate_image_file (uf_filename file) (String.length content))
    as [[|] reason]; cbn; [|done].
  destruct (first_with_hash (calculate_file_hash content) (world r)); cbn; [done|].
  destruct (save_outcome content (uf_filename file) batch) as [[]|e0]; cbn;
    [|by intros [= <- <-]].
  destruct (extract_image_metadata (save_path (uf_filename file) batch))
    as [metadata|e0]; cbn; [|by intros [= <- <-]].
  destruct (truthy (latitude metadata) && truthy (longitude metadata)); cbn; [|done].
  destruct (find_matching_substation _ _ active) as [substation|e0]; cbn;
    [done|by intros [= <- <-]].
Qed.

(** *** The ledger of one call *)

(** [len([e for e in upload_results if e.status == status])] *)
Definition count_entries (status : string) (entries : list FileUploadStatus) : nat :=
  length (List.filter (fun e => bool_decide (fus_status e = status)) entries).

Lemma count_entries_cons status e entries :
  count_entries status (e :: entries)
  = (if bool_decide (fus_status e = status) then 1 else 0)
    + count_entries status entries.
Proof. unfold count_entries. cbn. by destruct (bool_decide _). Qed.

(** What an entry of [upload_results] says about the records in [final]:
    an entry with a record id is not a failure and its record exists, the
    record of an "uploaded" entry being the one created for that file in
    this batch; an entry without a record id is a failure. *)
Definition refers (final : list ThermalScan) (e : FileUploadStatus) : Prop :=
  match thermal_scan_id e with
  | Some i =>
    fus_status e <> "failed" /\
    exists s, s ∈ final /\ id s = i /\
      (fus_status e = "uploaded" ->
       original_filename s = fus_filename e /\ batch_id s = batch)
  | None => fus_status e = "failed"
  end.

(** One iteration, seen from the accumulators. *)
Definition entry_of_step (file : UploadFile) (r r' : Run)
    (entry : FileUploadStatus) : Prop :=
  upload_results r' = upload_results r ++ [entry] /\
  fus_filename entry = uf_filename file /\
  tasks (world r') = tasks (world r) /\
  batches_created (world r') = batches_created (world r) /\
  now (world r') = now (world r) /\
  refers (scans (world r')) entry /\
  (fus_status entry = "uploaded" /\
     successful_uploads r' = successful_uploads r + 1 /\
     failed_uploads r' = failed_uploads r
   \/
   fus_status entry = "failed" /\
     successful_uploads r' = successful_uploads r /\
     failed_uploads r' = failed_uploads r + 1 /\
     scans (world r') = scans (world r)
   \/
   fus_status entry = "skipped" /\
     successful_uploads r' = successful_uploads r /\
     failed_uploads r' = failed_uploads r /\
     scans (world r') = scans (world r)).

Lemma step_entry k file r :
  exists entry, entry_of_step file r (step k file r) entry.
Proof.
  destruct (file_step k file r) as
    [message r0 [->|[f ->]] | content reason existing _ _ Hfind
     | content reason scan f _ _ _ Hid Hhash Hbatch Hseq Hname Hby Hst];
    eexists; (split; [reflexivity|]); cbn; repeat (split; [done|]).
  - right. left. done.
  - right. left. done.
  - unfold first_with_hash in Hfind. apply find_some in Hfind as [Hin _].
    apply list_elem_of_In in Hin.
    split; [|right; right; done].
    split; [done|]. exists existing. split; [done|]. split; [done|]. done.
  - split; [|left; done].
    split; [done|]. exists scan. split; [|done].
    apply elem_of_app. right. by left.
Qed.

Record Ledger (files : list UploadFile) (r r' : Run)
    (entries : list FileUploadStatus) : Prop := mkLedger {
  ledger_results : upload_results r' = upload_results r ++ entries;
  ledger_names : fus_filename <$> entries = uf_filename <$> files;
  ledger_uploaded :
    successful_uploads r'
    = successful_uploads r + count_entries "uploaded" entries;
  ledger_failed :
    failed_uploads r' = failed_uploads r + count_entries "failed" entries;
  ledger_total :
    count_entries "uploaded" entries + count_entries "failed" entries
    + count_entries "skipped" entries = length files;
  ledger_tasks : tasks (world r') = tasks (world r);
  ledger_batches : batches_created (world r') = batches_created (world r);
  ledger_now : now (world r') = now (world r);
  ledger_refers : Forall (refers (scans (world r'))) entries
}.

Lemma refers_mono final final' e :
  (forall s, s ∈ final -> s ∈ final') -> refers final e -> refers final' e.
Proof.
  unfold refers. intros Hsub. destruct (thermal_scan_id e); [|done].
  intros (Hne & s & Hin & Hs). split; [done|]. exists s. auto.
Qed.

Lemma loop_ledger files :
  forall k r, exists entries, Ledger files r (loop k files r) entries.
Proof.
  induction files as [|file rest IH]; intros k r.
  { exists []. split; cbn; rewrite ?app_nil_r; try done; lia. }
  cbn [upload_loop].
  destruct (step_entry k file r) as (entry & Hres & Hname & Htasks & Hbatches
                                     & Hnow & Hrefers & Hcase).
  destruct (IH (S k) (step k file r)) as (entries & [Hr Hn Hu Hf Ht Hta Hb Hno Hre]).
  destruct (loop_added rest (S k) (step k file r)) as (new & [Hsc _ _ _ _ _]).
  exists (entry :: entries). split.
  - by rewrite Hr, Hres, <- app_assoc.
  - cbn. by rewrite Hname, Hn.
  - rewrite Hu, count_entries_cons.
    destruct Hcase as [(Hst & -> & _)|[(Hst & -> & _)|(Hst & -> & _)]];
      rewrite Hst; case_bool_decide; try done; lia.
  - rewrite Hf, count_entries_cons.
    destruct Hcase as [(Hst & _ & ->)|[(Hst & _ & -> & _)|(Hst & _ & -> & _)]];
      rewrite Hst; case_bool_decide; try done; lia.
  - rewrite !count_entries_cons. cbn [length].
    destruct Hcase as [(Hst & _)|[(Hst & _)|(Hst & _)]];
      rewrite Hst; repeat case_bool_decide; try done; lia.
  - by rewrite Hta.
  - by rewrite Hb.
  - by rewrite Hno.
  - constructor; [|done]. eapply refers_mono; [|exact Hrefers].
    intros s Hin. rewrite Hsc. apply elem_of_app. by left.
Qed.

(** A record created by an iteration has no completion time and carries
    the time of the call. *)
Lemma step_fresh_scan k file r s :
  s ∈ scans (world (step k file r)) ->
  s ∈ scans (world r) \/
  (processing_completed_at s = None /\ created_at s = now (world r)).
Proof.
  unfold process_file, file_body, save_uploaded_file. act_unfold.
  destruct (uf_read file) as [content|e] eqn:Hread; cbn; [|auto].
  destruct (validate_image_file (uf_filename file) (String.length content))
    as [[|] reason] eqn:Hvalid; cbn; [|auto].
  destruct (first_with_hash (calculate_file_hash content) (world r))
    as [existing|] eqn:Hfind; cbn; [auto|].
  destruct (save_outcome content (uf_filename file) batch) as [[]|e]; cbn; [|auto].
  destruct (extract_image_metadata (save_path (uf_filename file) batch))
    as [metadata|e]; cbn; [|auto].
  destruct (truthy (latitude metadata) && truthy (longitude metadata)); cbn.
  - destruct (find_matching_substation _ _ active) as [substation|e]; cbn; [|auto].
    intros Hin. apply elem_of_app in Hin as [Hin|Hin]; [auto|].
    apply list_elem_of_singleton in Hin. subst s. by right.
  - intros Hin. apply elem_of_app in Hin as [Hin|Hin]; [auto|].
    apply list_elem_of_singleton in Hin. subst s. by right.
Qed.

Lemma loop_fresh_scans files :
  forall k r s,
    s ∈ scans (world (loop k files r)) ->
    s ∈ scans (world r) \/
    (processing_completed_at s = None /\ created_at s = now (world r)).
Proof.
  induction files as [|file rest IH]; intros k r s Hin; [by left|].
  cbn [upload_loop] in Hin.
  destruct (step_entry k file r) as (entry & _ & _ & _ & _ & Hnow & _).
  apply IH in Hin as [Hin|Hin].
  - by apply step_fresh_scan in Hin.
  - right. by rewrite <- Hnow.
Qed.

(** Files whose content is already on record. *)
Definition on_record (w : World) (file : UploadFile) : Prop :=
  exists content reason,
    uf_read file = Return content /\
    validate_image_file (uf_filename file) (String.length content)
      = (true, reason) /\
    calculate_file_hash content ∈ file_hash <$> scans w.

Lemma first_with_hash_found h w :
  h ∈ file_hash <$> scans w -> is_Some (first_with_hash h w).
Proof.
  unfold first_with_hash. induction (scans w) as [|s l IH]; cbn; intros Hin.
  { by apply elem_of_nil in Hin. }
  case_bool_decide as Heq; [eauto|].
  apply elem_of_cons in Hin as [Hin|Hin]; [done|auto].
Qed.

Lemma loop_on_record files :
  forall k r,
    Forall (on_record (world r)) files ->
    world (loop k files r) = world r /\
    successful_uploads (loop k files r) = successful_uploads r /\
    failed_uploads (loop k files r) = failed_uploads r /\
    exists entries,
      upload_results (loop k files r) = upload_results r ++ entries /\
      fus_filename <$> entries = uf_filename <$> files /\
      Forall (fun e => fus_status e = "skipped") entries.
Proof.
  induction files as [|file rest IH]; intros k r Hall.
  { repeat split; try done. exists []. by rewrite app_nil_r. }
  apply Forall_cons in Hall as [(content & reason & Hread & Hvalid & Hin) Hall].
  destruct (first_with_hash_found _ _ Hin) as [existing Hfind].
  cbn [upload_loop].
  rewrite (step_skips k file r content reason existing Hread Hvalid Hfind).
  destruct (IH (S k) (record_skipped (uf_filename file) existing r) Hall)
    as (Hw & Hs & Hf & entries & Hres & Hnames & Hsk).
  rewrite Hw, Hs, Hf. repeat split; try done.
  eexists (_ :: entries). rewrite Hres. cbn. rewrite <- app_assoc. cbn.
  split; [reflexivity|]. split; [by rewrite Hnames|].
  constructor; [done|done].
Qed.

End OneCall.

(** *** Whole calls *)

Definition start (w : World) : Run :=
  {| world := allocate_batch w; successful_uploads := 0; failed_uploads := 0;
     upload_results := [] |}.

Lemma upload_run_eq files ambient file_notes current_user w :
  upload_run files ambient file_notes current_user w
  = upload_loop ambient file_notes current_user
      (create_batch_id (batches_created w))
      (List.filter is_active (substations w)) 1 files (start w).
Proof. reflexivity. Qed.

Lemma upload_accepted files ambient file_notes current_user w :
  files <> [] -> length files <= 5000 ->
  exists resp,
    upload_thermal_images files ambient file_notes current_user w
    = (Return resp,
       (upload_thermal_images files ambient file_notes current_user w).2) /\
    ur_batch_id resp = create_batch_id (batches_created w) /\
    total_files resp = length files /\
    ur_successful_uploads resp
    = successful_uploads (upload_run files ambient file_notes current_user w) /\
    ur_failed_uploads resp
    = failed_uploads (upload_run files ambient file_notes current_user w) /\
    scans (upload_thermal_images files ambient file_notes current_user w).2
    = scans (world (upload_run files ambient file_notes current_user w)).
Proof.
  intros Hne Hlen. unfold upload_thermal_images.
  destruct files as [|f files]; [done|].
  destruct (Nat.ltb_spec 5000 (length (f :: files))) as [Hgt|_]; [lia|].
  eexists. split; [reflexivity|]. cbn [ur_batch_id total_files
    ur_successful_uploads ur_failed_uploads snd].
  repeat split. by destruct (0 <? _).
Qed.

(** C7, as the code has it: the sequence number of a record is the
    1-based position of its file in the submitted list (the counter of
    [enumerate(files, 1)] runs over every file, also those that fail or are
    skipped).  For a call that passes the two request checks, the records
    it persists carry the batch identifier of the call, sequence numbers
    between 1 and the number of files, strictly increasing in submission
    order, each naming the file at that position; they are exactly 1..M
    when every one of the M files was persisted. *)
Theorem sequence_numbers_are_file_positions
    (files : list UploadFile) (ambient : option Z) (file_notes : option string)
    (current_user : User) (w : World) :
  files <> [] -> length files <= 5000 ->
  exists resp w' new,
    upload_thermal_images files ambient file_notes current_user w
      = (Return resp, w') /\
    scans w' = scans w ++ new /\
    ur_successful_uploads resp = length new /\
    Forall (fun s =>
              batch_id s = ur_batch_id resp /\
              1 <= batch_sequence s <= length files /\
              exists f, files !! (batch_sequence s - 1) = Some f /\
                        uf_filename f = original_filename s) new /\
    StronglySorted (fun a b => batch_sequence a < batch_sequence b) new /\
    (length new = length files ->
     batch_sequence <$> new = seq 1 (length files)).
Proof.
  intros Hne Hlen.
  destruct (upload_accepted files ambient file_notes current_user w Hne Hlen)
    as (resp & Hrun & Hbatch & _ & Hok & _ & Hscans).
  destruct (loop_added ambient file_notes current_user
              (create_batch_id (batches_created w))
              (List.filter is_active (substations w)) files 1 (start w))
    as (new & [Hsc Hbd Hct Hfl Hso Hfu]).
  rewrite <- upload_run_eq in *.
  eexists resp, _, new. split; [exact Hrun|].
  split; [by rewrite Hscans, Hsc|].
  split; [by rewrite Hok, Hct|].
  split; [|by split].
  eapply Forall_impl; [exact Hfl|]. cbn.
  intros s (Hb & _ & _ & Hle & f & Hf & Hname).
  split; [by rewrite Hbatch|]. split; [|eauto].
  split; [done|]. apply lookup_lt_Some in Hf. lia.
Qed.

(** C8: an empty file list and a list of more than 5000 files are rejected
    with status 400 before anything else happens: the world is unchanged,
    so no batch identifier is allocated and no record or file is created.
    Every other request is answered, never rejected: each file leaves one
    entry in [upload_results], and the records present before the call are
    still there, in place.  An exception raised anywhere in the [try] block
    of an iteration is turned into a "failed" entry for that file, with no
    record added and the counters of the other outcomes untouched, and the
    loop goes on with the next file from that state. *)
Theorem request_checks_and_per_file_errors :
  (forall ambient file_notes current_user w,
      upload_thermal_images [] ambient file_notes current_user w
      = (Raise {| status_code := 400; detail := "No files provided" |}, w)) /\
  (forall files ambient file_notes current_user w,
      5000 < length files ->
      upload_thermal_images files ambient file_notes current_user w
      = (Raise {| status_code := 400;
                  detail := "Maximum 5000 files allowed per batch" |}, w)) /\
  (forall files ambient file_notes current_user w,
      files <> [] -> length files <= 5000 ->
      exists resp w',
        upload_thermal_images files ambient file_notes current_user w
          = (Return resp, w') /\
        total_files resp = length files /\
        length (upload_results
                  (upload_run files ambient file_notes current_user w))
          = length files /\
        scans w `prefix_of` scans w') /\
  (forall ambient file_notes current_user batch active k file rest r e r1,
      file_body ambient file_notes current_user batch active k file r
        = (Raise e, r1) ->
      upload_loop ambient file_notes current_user batch active k (file :: rest) r
        = upload_loop ambient file_notes current_user batch active (S k) rest
            (record_failed (uf_filename file) ("Processing error: " +:+ e) r1) /\
      scans (world r1) = scans (world r) /\
      successful_uploads r1 = successful_uploads r /\
      upload_results r1 = upload_results r /\
      scans (world r) `prefix_of`
        scans (world (upload_loop ambient file_notes current_user batch active
                        k (file :: rest) r))).
Proof.
  split; [done|]. split; [|split].
  - intros files ambient file_notes current_user w Hlen.
    unfold upload_thermal_images. destruct files as [|f files]; [cbn in Hlen; lia|].
    destruct (Nat.ltb_spec 5000 (length (f :: files))) as [_|Hle]; [done|lia].
  - intros files ambient file_notes current_user w Hne Hlen.
    destruct (upload_accepted files ambient file_notes current_user w Hne Hlen)
      as (resp & Hrun & _ & Htotal & _ & _ & Hscans).
    eexists resp, _. split; [exact Hrun|]. split; [done|].
    rewrite Hscans, upload_run_eq.
    match goal with
    | |- context [upload_loop ?a ?n ?u ?b ?s 1 files (start w)] =>
      destruct (loop_results a n u b s files 1 (start w)) as (entries & -> & <-);
      destruct (loop_added a n u b s files 1 (start w)) as (new & [-> _ _ _ _ _])
    end.
    split; [done|]. by eexists.
  - intros ambient file_notes current_user batch active k file rest r e r1 Hbody.
    destruct (step_catches _ _ _ _ _ _ _ _ _ _ Hbody) as (Hstep & Hsc & Hok & _ & Hres).
    cbn [upload_loop]. rewrite Hstep. split; [done|]. split; [done|].
    split; [done|]. split; [done|].
    destruct (loop_added ambient file_notes current_user batch active rest (S k)
                (record_failed (uf_filename file) ("Processing error: " +:+ e) r1))
      as (new & [-> _ _ _ _ _]).
    cbn. rewrite Hsc. by eexists.
Qed.

Lemma unique_by_hash (l : list ThermalScan) (a b : ThermalScan) :
  NoDup (file_hash <$> l) -> a ∈ l -> b ∈ l -> file_hash a = file_hash b -> a = b.
Proof.
  induction l as [|x l IH]; intros Hnd Ha Hb Heq.
  { by apply elem_of_nil in Ha. }
  cbn in Hnd. apply NoDup_cons in Hnd as [Hnotin Hnd].
  apply elem_of_cons in Ha as [->|Ha]; apply elem_of_cons in Hb as [->|Hb]; auto.
  - exfalso. apply Hnotin. rewrite Heq. apply list_elem_of_fmap. eauto.
  - exfalso. apply Hnotin. rewrite <- Heq. apply list_elem_of_fmap. eauto.
Qed.

Lemma first_with_hash_some h w scan :
  first_with_hash h w = Some scan -> scan ∈ scans w /\ file_hash scan = h.
Proof.
  unfold first_with_hash. intros Hfind. apply find_some in Hfind as [Hin Hh].
  split; [by apply list_elem_of_In|]. by apply bool_decide_eq_true_1 in Hh.
Qed.

(** C5, as the code has it.  A file is reported "skipped" when it is
    readable, passes validation, and a record with its content hash exists
    at the moment it is reached: then the entry refers to that record, and
    no file is stored, no record created, no counter changed.  Hence, for
    two files of one call with the same bytes, if the first ends as
    "uploaded" or "skipped" and the second passes validation, the second is
    "skipped" with the record the first refers to, and that record is the
    only one with that hash.  A call never removes a record and never
    creates a second record for a hash: content hashes that were pairwise
    distinct before stay so, across calls as well. *)
Theorem duplicate_content_is_skipped :
  (forall ambient file_notes current_user batch active k file r
          content reason scan,
      uf_read file = Return content ->
      validate_image_file (uf_filename file) (String.length content)
        = (true, reason) ->
      NoDup (file_hash <$> scans (world r)) ->
      scan ∈ scans (world r) ->
      file_hash scan = calculate_file_hash content ->
      process_file ambient file_notes current_user batch active k file r
      = record_skipped (uf_filename file) scan r) /\
  (forall files ambient file_notes current_user w,
      let w' := (upload_thermal_images files ambient file_notes current_user w).2 in
      scans w `prefix_of` scans w' /\
      (NoDup (file_hash <$> scans w) -> NoDup (file_hash <$> scans w'))) /\
  (forall before first between second after ambient file_notes current_user w
          content reason entry,
      let files := before ++ first :: between ++ second :: after in
      let run := upload_run files ambient file_notes current_user w in
      uf_read first = Return content ->
      uf_read second = Return content ->
      validate_image_file (uf_filename second) (String.length content)
        = (true, reason) ->
      NoDup (file_hash <$> scans w) ->
      upload_results run !! length before = Some entry ->
      fus_status entry <> "failed" ->
      exists scan,
        scan ∈ scans (world run) /\
        file_hash scan = calculate_file_hash content /\
        thermal_scan_id entry = Some (id scan) /\
        upload_results run !! (length before + 1 + length between)
          = Some {| fus_filename := uf_filename second;
                    fus_status := "skipped";
                    fus_message := "Duplicate file already processed";
                    thermal_scan_id := Some (id scan) |} /\
        (forall other, other ∈ scans (world run) ->
                       file_hash other = calculate_file_hash content ->
                       other = scan)).
Proof.
  split; [|split].
  - intros ambient file_notes current_user batch active k file r
      content reason scan Hread Hvalid Hnd Hin Hhash.
    eapply step_skips; eauto. rewrite <- Hhash.
    by apply first_with_hash_unique.
  - intros files ambient file_notes current_user w. cbn zeta.
    unfold upload_thermal_images. destruct files as [|f files].
    { cbn. split; [done|auto]. }
    destruct (5000 <? length (f :: files)).
    { cbn. split; [done|auto]. }
    cbn [snd].
    assert (Hsame : forall r, scans (if 0 <? successful_uploads r
                                     then schedule (create_batch_id (batches_created w),
                                                    user_id current_user) (world r)
                                     else world r) = scans (world r))
      by (intros r; by destruct (0 <? _)).
    rewrite Hsame, upload_run_eq. split.
    + match goal with
      | |- context [upload_loop ?a ?n ?u ?b ?s 1 ?fs (start w)] =>
        destruct (loop_added a n u b s fs 1 (start w)) as (new & [-> _ _ _ _ _])
      end.
      by eexists.
    + intros Hnd. by apply loop_hashes.
  - intros before first between second after ambient file_notes current_user w
      content reason entry. cbn zeta.
    intros Hread1 Hread2 Hvalid2 Hnd Hentry Hstatus.
    rewrite upload_run_eq in *.
    set (batch := create_batch_id (batches_created w)) in *.
    set (active := List.filter is_active (substations w)) in *.
    set (step := process_file ambient file_notes current_user batch active) in *.
    set (loop := upload_loop ambient file_notes current_user batch active) in *.
    assert (Hsplit :
      loop 1 (before ++ first :: between ++ second :: after) (start w)
      = loop (S (S (1 + length before) + length between)) after
          (step (S (1 + length before) + length between) second
             (loop (S (1 + length before)) between
                (step (1 + length before) first (loop 1 before (start w)))))).
    { unfold loop. rewrite loop_app. cbn [upload_loop]. rewrite loop_app.
      cbn [upload_loop]. reflexivity. }
    rewrite Hsplit in *. clear Hsplit.
    set (ra := loop 1 before (start w)) in *.
    set (rb := step (1 + length before) first ra) in *.
    set (rc := loop (S (1 + length before)) between rb) in *.
    set (rd := step (S (1 + length before) + length between) second rc) in *.
    (* the entries of the results list *)
    destruct (loop_results ambient file_notes current_user batch active before 1 (start w))
      as (ea & Hra & Hlena).
    destruct (loop_results ambient file_notes current_user batch active between
                (S (1 + length before)) rb) as (ec & Hrc & Hlenc).
    destruct (loop_results ambient file_notes current_user batch active after
                (S (S (1 + length before) + length between)) rd)
      as (ef & Hrf & Hlenf).
    fold loop in Hra, Hrc, Hrf. fold ra in Hra. fold rc in Hrc. cbn in Hra.
    (* records are kept and hashes stay distinct *)
    assert (Hnda : NoDup (file_hash <$> scans (world ra)))
      by (by apply loop_hashes).
    assert (Hndb : NoDup (file_hash <$> scans (world rb)))
      by (by apply step_hashes).
    assert (Hndc : NoDup (file_hash <$> scans (world rc)))
      by (by apply loop_hashes).
    assert (Hndd : NoDup (file_hash <$> scans (world rd)))
      by (by apply step_hashes).
    assert (Hndf : NoDup (file_hash <$> scans
              (world (loop (S (S (1 + length before) + length between)) after rd))))
      by (by apply loop_hashes).
    destruct (loop_added ambient file_notes current_user batch active between
                (S (1 + length before)) rb) as (newc & [Hscc _ _ _ _ _]).
    destruct (loop_added ambient file_notes current_user batch active after
                (S (S (1 + length before) + length between)) rd)
      as (newf & [Hscf _ _ _ _ _]).
    fold loop in Hscc, Hscf. fold rc in Hscc.
    (* what the first file left behind *)
    assert (Hfirst : exists entry1,
               upload_results rb = upload_results ra ++ [entry1] /\
               (fus_status entry1 <> "failed" ->
                exists scan,
                  scan ∈ scans (world rb) /\
                  file_hash scan = calculate_file_hash content /\
                  thermal_scan_id entry1 = Some (id scan))).
    { subst rb. unfold step.
      destruct (file_step ambient file_notes current_user batch active
                  (1 + length before) first ra) as
        [message r0 [->|[f ->]] | content' reason' existing Hr _ Hfind
         | content' reason' scan f Hr _ _ _ Hhash _ _ _ _ _]; cbn.
      - eexists. split; [done|]. cbn. done.
      - eexists. split; [done|]. cbn. done.
      - assert (content' = content) by congruence. subst content'.
        apply first_with_hash_some in Hfind as [Hin Hh].
        eexists. split; [done|]. cbn. eauto.
      - assert (content' = content) by congruence. subst content'.
        eexists. split; [done|]. cbn. intros _. exists scan. split; [|done].
        apply elem_of_app. right. by left. }
    destruct Hfirst as (entry1 & Hrb & Hscan).
    destruct (step_results ambient file_notes current_user batch active
                (S (1 + length before) + length between) second rc)
      as (entry2 & Hres2 & _).
    fold step in Hres2. fold rd in Hres2.
    (* the entries at the positions of the two files *)
    assert (Hat1 :
      upload_results (loop (S (S (1 + length before) + length between)) after rd)
        !! length before = Some entry1).
    { rewrite Hrf, Hres2, Hrc, Hrb, Hra.
      rewrite <- !app_assoc. rewrite lookup_app_r by lia.
      by rewrite Hlena, Nat.sub_diag. }
    assert (Hat2 :
      upload_results (loop (S (S (1 + length before) + length between)) after rd)
        !! (length before + 1 + length between) = Some entry2).
    { rewrite Hrf, Hres2, Hrc, Hrb, Hra.
      rewrite lookup_app_l by (rewrite !length_app; cbn; lia).
      rewrite lookup_app_r by (rewrite !length_app; cbn; lia).
      rewrite !length_app. cbn.
      by replace (length before + 1 + length between
                  - (length ea + 1 + length ec)) with 0 by lia. }
    rewrite Hat1 in Hentry. injection Hentry as <-.
    destruct (Hscan Hstatus) as (scan & Hin_b & Hh & Hid).
    assert (Hin_c : scan ∈ scans (world rc)).
    { rewrite Hscc. apply elem_of_app. by left. }
    assert (Hrd : rd = record_skipped (uf_filename second) scan rc).
    { subst rd. unfold step. eapply step_skips; eauto.
      rewrite <- Hh. apply first_with_hash_unique; auto. }
    assert (Hin_f : scan ∈ scans
              (world (loop (S (S (1 + length before) + length between)) after rd))).
    { rewrite Hscf, Hrd. cbn. apply elem_of_app. by left. }
    exists scan. split; [done|]. split; [done|]. split; [done|]. split.
    + rewrite Hat2. f_equal. rewrite Hrd in Hres2. cbn in Hres2.
      by apply app_inv_head in Hres2 as [= <-].
    + intros other Hin Hoh. eapply unique_by_hash; eauto. congruence.
Qed.

(** *** Batch status *)

(** The status derivation in the words of the specification: all failed,
    else all completed, else any processing, else any pending, else
    unknown. *)
Definition has_status (status : string) (s : ThermalScan) : Prop :=
  processing_status s = status.

#[local] Instance has_status_dec (status : string) (s : ThermalScan) :
  Decision (has_status status s) := decide (processing_status s = status).

Definition derived_status_spec (batch : list ThermalScan) : string :=
  if bool_decide (Forall (has_status "failed") batch) then "failed"
  else if bool_decide (Forall (has_status "completed") batch) then "completed"
  else if bool_decide (Exists (has_status "processing") batch) then "processing"
  else if bool_decide (Exists (has_status "pending") batch) then "pending"
  else "unknown".

Lemma count_status_le status batch : count_status status batch <= length batch.
Proof.
  unfold count_status. induction batch as [|s batch IH]; cbn; [done|].
  destruct (bool_decide _); cbn; lia.
Qed.

Lemma count_status_all status batch :
  count_status status batch = length batch <-> Forall (has_status status) batch.
Proof.
  induction batch as [|s batch IH]; [by split; [constructor|]|].
  pose proof (count_status_le status batch) as Hle.
  unfold count_status in IH, Hle |- *. cbn. case_bool_decide as Hs; cbn.
  - rewrite Forall_cons. split.
    + intros [= Heq]. split; [done|]. by apply IH.
    + intros [_ Hall]. f_equal. by apply IH.
  - split; [lia|]. intros Hall. by apply Forall_cons in Hall as [? _].
Qed.

Lemma count_status_any status batch :
  0 < count_status status batch <-> Exists (has_status status) batch.
Proof.
  induction batch as [|s batch IH]; [split; [cbn; lia|by intros ?%Exists_nil]|].
  unfold count_status in IH |- *. cbn. rewrite Exists_cons.
  case_bool_decide as Hs; cbn.
  - split; [by left|lia].
  - rewrite IH. unfold has_status. split; [by right|]. by intros [?|?].
Qed.

Lemma min_by_least {A} (key : A -> Z) (rest : list A) :
  forall best,
    min_by key best rest ∈ best :: rest /\
    forall x, x ∈ best :: rest -> (key (min_by key best rest) <= key x)%Z.
Proof.
  induction rest as [|y rest IH]; intros best; cbn.
  - split; [by left|]. intros x Hx. apply list_elem_of_singleton in Hx. by subst.
  - destruct (IH (if (key y <? key best)%Z then y else best)) as [Hin Hle].
    split.
    + apply elem_of_cons in Hin as [->|Hin].
      * destruct (key y <? key best)%Z; [right; by left|by left].
      * by do 2 right.
    + intros x Hx.
      assert (Hb : (key (min_by key (if (key y <? key best)%Z then y else best) rest)
                    <= key (if (key y <? key best)%Z then y else best))%Z)
        by (apply Hle; by left).
      apply elem_of_cons in Hx as [->|Hx].
      * destruct (Z.ltb_spec (key y) (key best)); lia.
      * apply elem_of_cons in Hx as [->|Hx].
        -- destruct (Z.ltb_spec (key y) (key best)); lia.
        -- apply Hle. by right.
Qed.

Lemma max_by_greatest {A} (key : A -> Z) (rest : list A) :
  forall best,
    max_by key best rest ∈ best :: rest /\
    forall x, x ∈ best :: rest -> (key x <= key (max_by key best rest))%Z.
Proof.
  induction rest as [|y rest IH]; intros best; cbn.
  - split; [by left|]. intros x Hx. apply list_elem_of_singleton in Hx. by subst.
  - destruct (IH (if (key best <? key y)%Z then y else best)) as [Hin Hle].
    split.
    + apply elem_of_cons in Hin as [->|Hin].
      * destruct (key best <? key y)%Z; [right; by left|by left].
      * by do 2 right.
    + intros x Hx.
      assert (Hb : (key (if (key best <? key y)%Z then y else best)
                    <= key (max_by key (if (key best <? key y)%Z then y else best) rest))%Z)
        by (apply Hle; by left).
      apply elem_of_cons in Hx as [->|Hx].
      * destruct (Z.ltb_spec (key best) (key y)); lia.
      * apply elem_of_cons in Hx as [->|Hx].
        -- destruct (Z.ltb_spec (key best) (key y)); lia.
        -- apply Hle. by right.
Qed.

(** C6, as the code has it: for the records of a batch the status route
    answers with, the overall status is "failed" when all records are
    failed, otherwise "completed" when all are completed, otherwise
    "processing" when some record is processing, otherwise "pending" when
    some record is pending, otherwise "unknown".  The duration is read off
    the completion times, whatever the status of the records that carry
    them: it is absent when no record has a completion time; otherwise it
    is the latest completion time of the batch minus the earliest creation
    time of the batch. *)
Theorem batch_status_derivation (batch : string) (current_user : User) (w : World) :
  scans_of_batch batch w <> [] ->
  access_denied current_user (scans_of_batch batch w) = false ->
  exists answer,
    get_batch_status batch current_user w = (Return answer, w) /\
    total_images answer = length (scans_of_batch batch w) /\
    bs_status answer = derived_status_spec (scans_of_batch batch w) /\
    ((forall s, s ∈ scans_of_batch batch w -> processing_completed_at s = None) ->
     processing_duration answer = None) /\
    ((exists s, s ∈ scans_of_batch batch w /\
                is_Some (processing_completed_at s)) ->
     exists latest earliest,
       processing_duration answer = Some (format_seconds (latest - earliest)%Z) /\
       (exists s, s ∈ scans_of_batch batch w /\
                  processing_completed_at s = Some latest) /\
       (forall s t, s ∈ scans_of_batch batch w ->
                    processing_completed_at s = Some t -> (t <= latest)%Z) /\
       (exists s, s ∈ scans_of_batch batch w /\ created_at s = earliest) /\
       (forall s, s ∈ scans_of_batch batch w -> (earliest <= created_at s)%Z)).
Proof.
  intros Hne Hacc. unfold get_batch_status.
  destruct (scans_of_batch batch w) as [|first rest] eqn:Hfound; [done|].
  rewrite Hacc. eexists. split; [reflexivity|]. cbn [total_images bs_status
    processing_duration]. split; [done|]. split; [|split].
  - unfold overall_status, derived_status_spec.
    set (found := first :: rest).
    destruct (Nat.eqb_spec (count_status "failed" found) (length found)) as [Hf|Hf].
    { rewrite bool_decide_eq_true_2; [done|]. by apply count_status_all. }
    rewrite bool_decide_eq_false_2 by (by rewrite <- count_status_all).
    destruct (Nat.eqb_spec (count_status "completed" found) (length found)) as [Hc|Hc].
    { rewrite bool_decide_eq_true_2; [done|]. by apply count_status_all. }
    rewrite bool_decide_eq_false_2 by (by rewrite <- count_status_all).
    destruct (Nat.ltb_spec 0 (count_status "processing" found)) as [Hp|Hp].
    { rewrite bool_decide_eq_true_2; [done|]. by apply count_status_any. }
    rewrite bool_decide_eq_false_2 by (rewrite <- count_status_any; lia).
    destruct (Nat.ltb_spec 0 (count_status "pending" found)) as [Hq|Hq].
    { rewrite bool_decide_eq_true_2; [done|]. by apply count_status_any. }
    rewrite bool_decide_eq_false_2 by (rewrite <- count_status_any; lia).
    done.
  - intros Hnone. unfold duration_of.
    destruct (completed_scans (first :: rest)) as [|c cs] eqn:Hdone; [done|].
    assert (Hc : c ∈ completed_scans (first :: rest)) by (rewrite Hdone; by left).
    unfold completed_scans in Hc. apply list_elem_of_In, filter_In in Hc as [Hin Hsome].
    apply bool_decide_eq_true_1 in Hsome as [t Ht].
    apply list_elem_of_In in Hin. by rewrite (Hnone c Hin) in Ht.
  - intros (s0 & Hin0 & Hsome0). unfold duration_of.
    assert (Hmem : forall s, s ∈ completed_scans (first :: rest) <->
                     s ∈ first :: rest /\ is_Some (processing_completed_at s)).
    { intros s. unfold completed_scans.
      rewrite !list_elem_of_In, filter_In, bool_decide_eq_true. done. }
    destruct (completed_scans (first :: rest)) as [|c cs] eqn:Hdone.
    { exfalso. apply (elem_of_nil s0). by apply Hmem. }
    destruct (min_by_least created_at rest first) as [Hmin_in Hmin].
    destruct (max_by_greatest completion_time cs c) as [Hmax_in Hmax].
    apply Hmem in Hmax_in as [Hmax_in [latest Hlatest]].
    exists latest, (created_at (min_by created_at first rest)).
    assert (Hkey : completion_time (max_by completion_time c cs) = latest)
      by (unfold completion_time at 1; by rewrite Hlatest).
    split; [by rewrite Hkey|]. split; [eauto|]. split; [|split; [eauto|done]].
    intros s t Hin Ht. rewrite <- Hkey.
    assert (Hs : s ∈ c :: cs) by (apply Hmem; split; [done|by rewrite Ht]).
    specialize (Hmax s Hs). unfold completion_time in Hmax at 1.
    by rewrite Ht in Hmax.
Qed.

(** C9: a batch identifier that matches no record gives 404 on the status,
    listing and deletion routes alike, and leaves the world as it was.  For
    a batch with records and a requester without [can_view_all_data], the
    status and the listing route give 403 when no record of the batch was
    uploaded by the requester, and give the data when at least one was. *)
Theorem batch_access_control (batch : string) (current_user : User) (w : World) :
  (scans_of_batch batch w = [] ->
     get_batch_status batch current_user w
       = (Raise {| status_code := 404; detail := "Batch not found" |}, w) /\
     get_batch_files batch current_user w
       = (Raise {| status_code := 404; detail := "Batch not found" |}, w) /\
     delete_batch batch current_user w
       = (Raise {| status_code := 404; detail := "Batch not found" |}, w)) /\
  (scans_of_batch batch w <> [] ->
   can_view_all_data current_user = false ->
     ((forall s, s ∈ scans_of_batch batch w ->
                 uploaded_by s <> user_id current_user) ->
      get_batch_status batch current_user w
        = (Raise {| status_code := 403;
                    detail := "Access denied to this batch" |}, w) /\
      get_batch_files batch current_user w
        = (Raise {| status_code := 403;
                    detail := "Access denied to this batch" |}, w)) /\
     ((exists s, s ∈ scans_of_batch batch w /\
                 uploaded_by s = user_id current_user) ->
      (exists answer,
         get_batch_status batch current_user w = (Return answer, w) /\
         bs_batch_id answer = batch /\
         total_images answer = length (scans_of_batch batch w)) /\
      (exists listing,
         get_batch_files batch current_user w = (Return listing, w) /\
         length listing = length (scans_of_batch batch w)))).
Proof.
  split.
  - intros Hempty. unfold get_batch_status, get_batch_files, delete_batch.
    by rewrite Hempty.
  - intros Hne Hpriv.
    unfold get_batch_status, get_batch_files, access_denied.
    rewrite Hpriv. cbn [negb].
    destruct (scans_of_batch batch w) as [|first rest] eqn:Hfound; [done|].
    split.
    + intros Hnone.
      assert (Hex : existsb (fun s => uploaded_by s =? user_id current_user)
                            (first :: rest) = false).
      { apply not_true_is_false. intros Hex.
        apply existsb_exists in Hex as (s & Hin & Heq).
        apply Nat.eqb_eq in Heq. apply list_elem_of_In in Hin.
        by apply (Hnone s). }
      by rewrite Hex.
    + intros (s & Hin & Hown).
      assert (Hex : existsb (fun s => uploaded_by s =? user_id current_user)
                            (first :: rest) = true).
      { apply existsb_exists. exists s. split; [by apply list_elem_of_In|].
        by apply Nat.eqb_eq. }
      rewrite Hex. cbn [negb]. split.
      * eexists. split; [reflexivity|]. by split.
      * eexists. split; [reflexivity|]. rewrite length_map.
        unfold sorted_by_sequence.
        assert (Hins : forall x l, length (insert_by_sequence x l) = S (length l)).
        { intros x l. induction l as [|y l IH]; cbn; [done|].
          destruct (_ <=? _); cbn; by rewrite ?IH. }
        assert (Hfold : forall l acc,
                   length (foldl (fun sorted s => insert_by_sequence s sorted) acc l)
                   = length acc + length l).
        { intros l. induction l as [|y l IH]; intros acc; cbn; [lia|].
          rewrite IH, Hins. lia. }
        by rewrite Hfold.
Qed.

(** *** Whole calls, continued *)

Lemma upload_answer files ambient file_notes current_user w :
  files <> [] -> length files <= 5000 ->
  exists resp,
    upload_thermal_images files ambient file_notes current_user w
    = (Return resp,
       if 0 <? successful_uploads
                 (upload_run files ambient file_notes current_user w)
       then schedule (create_batch_id (batches_created w), user_id current_user)
              (world (upload_run files ambient file_notes current_user w))
       else world (upload_run files ambient file_notes current_user w)) /\
    ur_batch_id resp = create_batch_id (batches_created w) /\
    total_files resp = length files /\
    ur_successful_uploads resp
    = successful_uploads (upload_run files ambient file_notes current_user w) /\
    ur_failed_uploads resp
    = failed_uploads (upload_run files ambient file_notes current_user w) /\
    ur_processing_status resp
    = if 0 <? successful_uploads
                (upload_run files ambient file_notes current_user w)
      then "queued" else "idle".
Proof.
  intros Hne Hlen. unfold upload_thermal_images.
  destruct files as [|f files]; [done|].
  destruct (Nat.ltb_spec 5000 (length (f :: files))) as [Hgt|_]; [lia|].
  eexists. split; [reflexivity|]. done.
Qed.

(** X11: every submitted file is accounted for, in submission order.  The
    loop builds one entry per file, named after the file at the same
    position; the response counts the "uploaded" entries as successful and
    the "failed" ones as failed, and what is missing up to [total_files] is
    the number of "skipped" duplicates.  The entries themselves are not
    part of the response. *)
Theorem every_file_is_accounted_for
    (files : list UploadFile) (ambient : option Z) (file_notes : option string)
    (current_user : User) (w : World) :
  files <> [] -> length files <= 5000 ->
  exists resp w' entries,
    upload_thermal_images files ambient file_notes current_user w
      = (Return resp, w') /\
    upload_results (upload_run files ambient file_notes current_user w)
      = entries /\
    fus_filename <$> entries = uf_filename <$> files /\
    ur_successful_uploads resp = count_entries "uploaded" entries /\
    ur_failed_uploads resp = count_entries "failed" entries /\
    ur_successful_uploads resp + ur_failed_uploads resp
      + count_entries "skipped" entries = total_files resp.
Proof.
  intros Hne Hlen.
  destruct (upload_answer files ambient file_notes current_user w Hne Hlen)
    as (resp & Hrun & _ & Htotal & Hok & Hfailed & _).
  destruct (loop_ledger ambient file_notes current_user
              (create_batch_id (batches_created w))
              (List.filter is_active (substations w)) files 1 (start w))
    as (entries & [Hr Hn Hu Hf Ht _ _ _ _]).
  rewrite <- upload_run_eq in Hr, Hu, Hf.
  eexists resp, _, entries. split; [exact Hrun|].
  split; [by rewrite Hr|]. split; [done|].
  rewrite Hok, Hfailed, Hu, Hf, Htotal. cbn. repeat split; lia.
Qed.

(** X12: what the entries of a call point to.  After an accepted call, an
    entry that carries a record id is "uploaded" or "skipped", never
    "failed", and a record with that id is in the database; for an
    "uploaded" entry that record carries the file name of the entry and the
    batch identifier of the call.  A "failed" entry carries no record
    id. *)
Theorem upload_entries_refer_to_records
    (files : list UploadFile) (ambient : option Z) (file_notes : option string)
    (current_user : User) (w : World) :
  files <> [] -> length files <= 5000 ->
  exists resp w',
    upload_thermal_images files ambient file_notes current_user w
      = (Return resp, w') /\
    Forall (fun e =>
              match thermal_scan_id e with
              | Some i =>
                fus_status e <> "failed" /\
                exists s, s ∈ scans w' /\ id s = i /\
                  (fus_status e = "uploaded" ->
                   original_filename s = fus_filename e /\
                   batch_id s = ur_batch_id resp)
              | None => fus_status e = "failed"
              end)
      (upload_results (upload_run files ambient file_notes current_user w)).
Proof.
  intros Hne Hlen.
  destruct (upload_accepted files ambient file_notes current_user w Hne Hlen)
    as (resp & Hrun & Hbatch & _ & _ & _ & Hscans).
  destruct (loop_ledger ambient file_notes current_user
              (create_batch_id (batches_created w))
              (List.filter is_active (substations w)) files 1 (start w))
    as (entries & [Hr _ _ _ _ _ _ _ Hrefers]).
  rewrite <- upload_run_eq in Hr, Hrefers.
  eexists resp, _. split; [exact Hrun|].
  rewrite Hr, Hscans, Hbatch. exact Hrefers.
Qed.

(** X13: the analysis task.  An accepted call always consumes one batch
    identifier.  It answers "queued" and schedules one task, for its batch
    and its user, exactly when it created at least one record; a call that
    created none answers "idle" and schedules nothing. *)
Theorem processing_is_queued_iff_records_were_created
    (files : list UploadFile) (ambient : option Z) (file_notes : option string)
    (current_user : User) (w : World) :
  files <> [] -> length files <= 5000 ->
  exists resp w' new,
    upload_thermal_images files ambient file_notes current_user w
      = (Return resp, w') /\
    scans w' = scans w ++ new /\
    batches_created w' = S (batches_created w) /\
    (new = [] ->
     ur_processing_status resp = "idle" /\ tasks w' = tasks w) /\
    (new <> [] ->
     ur_processing_status resp = "queued" /\
     tasks w' = tasks w ++ [(ur_batch_id resp, user_id current_user)]).
Proof.
  intros Hne Hlen.
  destruct (upload_answer files ambient file_notes current_user w Hne Hlen)
    as (resp & Hrun & Hbatch & _ & _ & _ & Hstatus).
  destruct (loop_added ambient file_notes current_user
              (create_batch_id (batches_created w))
              (List.filter is_active (substations w)) files 1 (start w))
    as (new & [Hsc _ Hct _ _ _]).
  destruct (loop_ledger ambient file_notes current_user
              (create_batch_id (batches_created w))
              (List.filter is_active (substations w)) files 1 (start w))
    as (entries & [_ _ _ _ _ Htasks Hbatches _ _]).
  rewrite <- upload_run_eq in Hsc, Hct, Htasks, Hbatches.
  cbn in Hsc, Hct, Htasks, Hbatches.
  eexists resp, _, new. split; [exact Hrun|].
  rewrite Hstatus, Hbatch, Hct.
  destruct new as [|s new]; cbn [length Nat.ltb Nat.leb].
  - split; [done|]. split; [done|]. split; [done|done].
  - cbn. split; [done|]. split; [done|]. split; [done|].
    intros _. split; [done|]. by rewrite Htasks.
Qed.

Lemma filter_all_true {A} (f : A -> bool) (l : list A) :
  (forall x, x ∈ l -> f x = true) -> List.filter f l = l.
Proof.
  induction l as [|x l IH]; intros Hall; [done|]. cbn.
  rewrite (Hall x) by by left. f_equal. apply IH. intros y Hy. apply Hall. by right.
Qed.

Lemma filter_none {A} (f : A -> bool) (l : list A) :
  (forall x, x ∈ l -> f x = false) -> List.filter f l = [].
Proof.
  induction l as [|x l IH]; intros Hall; [done|]. cbn.
  rewrite (Hall x) by by left. apply IH. intros y Hy. apply Hall. by right.
Qed.

Lemma count_status_none status batch :
  (forall s, s ∈ batch -> processing_status s <> status) ->
  count_status status batch = 0.
Proof.
  intros Hall. unfold count_status. rewrite filter_none; [done|].
  intros s Hs. apply bool_decide_eq_false_2. by apply Hall.
Qed.

Lemma overall_status_pending batch :
  batch <> [] -> Forall (has_status "pending") batch ->
  overall_status batch = "pending" /\
  count_status "completed" batch = 0 /\ count_status "failed" batch = 0.
Proof.
  intros Hne Hall. unfold overall_status.
  assert (Hother : forall status, status <> "pending" ->
                     count_status status batch = 0).
  { intros status Hst. apply count_status_none. intros s Hs.
    eapply Forall_forall in Hall; [|exact Hs]. unfold has_status in Hall.
    congruence. }
  rewrite !Hother by done.
  assert (Hp : count_status "pending" batch = length batch)
    by by apply count_status_all.
  rewrite Hp. destruct batch as [|s batch]; [done|]. done.
Qed.

(** X14: asking for the status of a batch right after its upload.  When the
    batch identifier of the call was not in use, the status route, asked by
    the uploader before any analysis has run, answers 404 if the call
    created no record (every file failed or was a duplicate), although the
    upload response named the batch; otherwise it reports as many images as
    the response counted successful, none processed, none failed, status
    "pending", the time of the call as creation time, and no duration. *)
Theorem status_of_a_fresh_batch
    (files : list UploadFile) (ambient : option Z) (file_notes : option string)
    (current_user : User) (w : World) :
  files <> [] -> length files <= 5000 ->
  (forall s, s ∈ scans w -> batch_id s <> create_batch_id (batches_created w)) ->
  exists resp w',
    upload_thermal_images files ambient file_notes current_user w
      = (Return resp, w') /\
    (ur_successful_uploads resp = 0 ->
     get_batch_status (ur_batch_id resp) current_user w'
     = (Raise {| status_code := 404; detail := "Batch not found" |}, w')) /\
    (0 < ur_successful_uploads resp ->
     get_batch_status (ur_batch_id resp) current_user w'
     = (Return {| bs_batch_id := ur_batch_id resp;
                  total_images := ur_successful_uploads resp;
                  processed_images := 0;
                  failed_images := 0;
                  bs_status := "pending";
                  bs_created_at := isoformat (now w);
                  processing_duration := None |}, w')).
Proof.
  intros Hne Hlen Hfresh.
  destruct (upload_accepted files ambient file_notes current_user w Hne Hlen)
    as (resp & Hrun & Hbatch & _ & Hok & _ & Hscans).
  destruct (loop_added ambient file_notes current_user
              (create_batch_id (batches_created w))
              (List.filter is_active (substations w)) files 1 (start w))
    as (new & [Hsc _ Hct Hfl _ _]).
  pose proof (loop_fresh_scans ambient file_notes current_user
                (create_batch_id (batches_created w))
                (List.filter is_active (substations w)) files 1 (start w))
    as Hnew.
  rewrite <- upload_run_eq in Hsc, Hct, Hnew. cbn in Hsc, Hct, Hnew.
  set (w' := (upload_thermal_images files ambient file_notes current_user w).2) in *.
  assert (Hfound : scans_of_batch (ur_batch_id resp) w' = new).
  { unfold scans_of_batch. rewrite Hscans, Hsc, List.filter_app, Hbatch.
    rewrite filter_none, filter_all_true; [done| |].
    - intros s Hs. eapply Forall_forall in Hfl; [|exact Hs].
      apply bool_decide_eq_true_2. by destruct Hfl.
    - intros s Hs. apply bool_decide_eq_false_2. by apply Hfresh. }
  exists resp, w'. split; [exact Hrun|].
  unfold get_batch_status. rewrite Hfound, Hok, Hct.
  split.
  - intros Hzero. destruct new; [done|cbn in Hzero; lia].
  - intros Hpos. destruct new as [|first rest] eqn:Hnew_eq; [cbn in Hpos; lia|].
    rewrite <- Hnew_eq in *.
    assert (Hfirst : first ∈ new) by (rewrite Hnew_eq; by left).
    assert (Haccess : access_denied current_user new = false).
    { unfold access_denied. destruct (can_view_all_data current_user); [done|].
      cbn. rewrite Hnew_eq. cbn.
      eapply Forall_forall in Hfl; [|exact Hfirst].
      destruct Hfl as (_ & _ & -> & _). by rewrite Nat.eqb_refl. }
    rewrite Haccess.
    assert (Hpending : Forall (has_status "pending") new).
    { eapply Forall_impl; [exact Hfl|]. by intros s (_ & ? & _). }
    destruct (overall_status_pending new) as (-> & -> & ->);
      [by rewrite Hnew_eq|done|].
    assert (Hunprocessed : forall s, s ∈ new ->
              processing_completed_at s = None /\ created_at s = now w).
    { intros s Hs. destruct (Hnew s) as [Hold|Hfreshly].
      - rewrite Hsc. apply elem_of_app. by right.
      - exfalso. apply (Hfresh s Hold).
        eapply Forall_forall in Hfl; [|exact Hs]. by destruct Hfl.
      - done. }
    assert (Hduration : duration_of new = None).
    { unfold duration_of. rewrite Hnew_eq. rewrite <- Hnew_eq.
      unfold completed_scans. rewrite filter_none; [done|].
      intros s Hs. apply bool_decide_eq_false_2.
      destruct (Hunprocessed s Hs) as [-> _]. by intros [? ?]. }
    rewrite Hduration. destruct (Hunprocessed first Hfirst) as [_ ->].
    done.
Qed.

(** X15: submitting content that is already on record changes nothing but
    the batch counter.  When every file of the request is readable, passes
    validation and has the content hash of some record, the call creates no
    record, stores no file, schedules no task, reports every file as
    "skipped" and answers "idle" with both counters at zero. *)
Theorem resubmitted_content_changes_nothing
    (files : list UploadFile) (ambient : option Z) (file_notes : option string)
    (current_user : User) (w : World) :
  files <> [] -> length files <= 5000 ->
  Forall (on_record w) files ->
  exists resp,
    upload_thermal_images files ambient file_notes current_user w
      = (Return resp, allocate_batch w) /\
    ur_successful_uploads resp = 0 /\
    ur_failed_uploads resp = 0 /\
    ur_processing_status resp = "idle" /\
    Forall (fun e => fus_status e = "skipped")
      (upload_results (upload_run files ambient file_notes current_user w)).
Proof.
  intros Hne Hlen Hall.
  destruct (upload_answer files ambient file_notes current_user w Hne Hlen)
    as (resp & Hrun & _ & _ & Hok & Hfailed & Hstatus).
  destruct (loop_on_record ambient file_notes current_user
              (create_batch_id (batches_created w))
              (List.filter is_active (substations w)) files 1 (start w))
    as (Hw & Hs & Hf & entries & Hres & _ & Hsk).
  { eapply Forall_impl; [exact Hall|].
    intros f (content & reason & ? & ? & ?). by exists content, reason. }
  rewrite <- upload_run_eq in Hw, Hs, Hf, Hres.
  exists resp. rewrite Hrun, Hok, Hfailed, Hstatus, Hs, Hf, Hw, Hres.
  done.
Qed.

(** Order by sequence number. *)
Definition in_sequence (a b : ThermalScan) : Prop :=
  batch_sequence a <= batch_sequence b.

Lemma insert_by_sequence_perm s l : insert_by_sequence s l ≡ₚ s :: l.
Proof.
  induction l as [|x l IH]; cbn; [done|].
  destruct (_ <=? _); [|done]. rewrite IH. apply Permutation_swap.
Qed.

Lemma insert_by_sequence_sorted s l :
  StronglySorted in_sequence l ->
  StronglySorted in_sequence (insert_by_sequence s l).
Proof.
  induction 1 as [|x l Hs IH Hall]; cbn; [repeat constructor|].
  destruct (Nat.leb_spec (batch_sequence x) (batch_sequence s)) as [Hle|Hlt].
  - constructor; [done|]. rewrite insert_by_sequence_perm. by constructor.
  - constructor; [by constructor|].
    constructor; [unfold in_sequence; lia|].
    eapply Forall_impl; [exact Hall|]. unfold in_sequence. intros y Hy. lia.
Qed.

Lemma sorted_by_sequence_spec batch :
  sorted_by_sequence batch ≡ₚ batch /\
  StronglySorted in_sequence (sorted_by_sequence batch).
Proof.
  unfold sorted_by_sequence.
  assert (Hgen : forall l acc,
            foldl (fun sorted s => insert_by_sequence s sorted) acc l ≡ₚ acc ++ l /\
            (StronglySorted in_sequence acc ->
             StronglySorted in_sequence
               (foldl (fun sorted s => insert_by_sequence s sorted) acc l))).
  { induction l as [|x l IH]; intros acc; cbn.
    - by rewrite app_nil_r.
    - destruct (IH (insert_by_sequence x acc)) as [Hperm Hsorted]. split.
      + rewrite Hperm, insert_by_sequence_perm. cbn. apply Permutation_middle.
      + intros Hacc. by apply Hsorted, insert_by_sequence_sorted. }
  destruct (Hgen batch []) as [Hperm Hsorted]. split; [done|].
  apply Hsorted. constructor.
Qed.

(** X16: the file listing of a batch has exactly one entry per record of the
    batch, each with the name, status and id of its record, and the entries
    are in the order of the sequence numbers of their records. *)
Theorem batch_listing_is_ordered (batch : string) (current_user : User)
    (w : World) (listing : list FileUploadStatus) :
  (get_batch_files batch current_user w).1 = Return listing ->
  exists ordered,
    ordered ≡ₚ scans_of_batch batch w /\
    StronglySorted in_sequence ordered /\
    fus_filename <$> listing = original_filename <$> ordered /\
    fus_status <$> listing = processing_status <$> ordered /\
    thermal_scan_id <$> listing = (fun s => Some (id s)) <$> ordered.
Proof.
  unfold get_batch_files.
  destruct (scans_of_batch batch w) as [|first rest] eqn:Hfound; [done|].
  destruct (access_denied current_user (first :: rest)); [done|].
  cbn. intros [= <-].
  destruct (sorted_by_sequence_spec (first :: rest)) as [Hperm Hsorted].
  exists (sorted_by_sequence (first :: rest)).
  split; [done|]. split; [done|].
  rewrite <- !list_fmap_compose. done.
Qed.

Lemma scans_after_delete batch other w :
  scans_of_batch other (cleanup_batch_files batch (delete_scans batch w))
  = if bool_decide (other = batch) then [] else scans_of_batch other w.
Proof.
  unfold scans_of_batch. cbn.
  destruct (decide (other = batch)) as [->|Hne].
  - rewrite bool_decide_eq_true_2 by done.
    induction (scans w) as [|s l IH]; cbn; [done|].
    case_bool_decide as Hb; cbn; [done|].
    by rewrite bool_decide_eq_false_2 by done.
  - rewrite bool_decide_eq_false_2 by done.
    induction (scans w) as [|s l IH]; cbn; [done|].
    case_bool_decide as Hb; cbn.
    + rewrite bool_decide_eq_false_2 by congruence. exact IH.
    + destruct (bool_decide (batch_id s = other)); by rewrite IH.
Qed.

(** X17: deleting a batch removes the records of that batch and no other.
    After a deletion that answered, the batch matches no record, so the
    status route and a second deletion answer 404; every other batch has
    the records it had, in the same order; and a record is in the database
    exactly when it was there before and belongs to another batch. *)
Theorem delete_batch_removes_exactly_the_batch (batch : string)
    (current_user : User) (w : World) :
  scans_of_batch batch w <> [] ->
  exists w',
    delete_batch batch current_user w
      = (Return ("Batch " +:+ batch +:+ " deleted successfully"), w') /\
    scans_of_batch batch w' = [] /\
    (forall other, other <> batch ->
                   scans_of_batch other w' = scans_of_batch other w) /\
    (forall s, s ∈ scans w' <-> s ∈ scans w /\ batch_id s <> batch) /\
    (forall user,
        get_batch_status batch user w'
        = (Raise {| status_code := 404; detail := "Batch not found" |}, w')) /\
    delete_batch batch current_user w'
      = (Raise {| status_code := 404; detail := "Batch not found" |}, w').
Proof.
  intros Hne. unfold delete_batch at 1.
  destruct (scans_of_batch batch w) as [|first rest] eqn:Hfound; [done|].
  eexists. split; [reflexivity|].
  assert (Hgone : scans_of_batch batch
                    (cleanup_batch_files batch (delete_scans batch w)) = []).
  { rewrite scans_after_delete. by rewrite bool_decide_eq_true_2. }
  split; [exact Hgone|]. split; [|split; [|split]].
  - intros other Hother. rewrite scans_after_delete.
    by rewrite bool_decide_eq_false_2.
  - intros s. cbn. rewrite !list_elem_of_In, filter_In, negb_true_iff,
      bool_decide_eq_false. done.
  - intros user. unfold get_batch_status. by rewrite Hgone.
  - unfold delete_batch. by rewrite Hgone.
Qed.

(** X18: when "unknown" is reported.  For a batch with records whose
    statuses are among "pending", "processing", "completed" and "failed",
    the overall status is "unknown" exactly when every record is finished
    and both outcomes occur: a batch that ended with some records completed
    and some failed is reported as "unknown", not as completed or
    failed. *)
Theorem unknown_status_means_mixed_outcome (found : list ThermalScan) :
  found <> [] ->
  Forall (fun s => processing_status s ∈
                     ["pending"; "processing"; "completed"; "failed"]) found ->
  (overall_status found = "unknown" <->
   Forall (fun s => has_status "completed" s \/ has_status "failed" s) found /\
   Exists (has_status "completed") found /\
   Exists (has_status "failed") found).
Proof.
  intros Hne Hknown. unfold overall_status.
  destruct (Nat.eqb_spec (count_status "failed" found) (length found)) as [Hf|Hf].
  { split; [done|]. intros (_ & Hc & _). exfalso.
    apply count_status_all in Hf. apply Exists_exists in Hc as (s & Hs & Hst).
    eapply Forall_forall in Hf; [|exact Hs]. unfold has_status in *. congruence. }
  destruct (Nat.eqb_spec (count_status "completed" found) (length found)) as [Hc|Hc].
  { split; [done|]. intros (_ & _ & Hx). exfalso.
    apply count_status_all in Hc. apply Exists_exists in Hx as (s & Hs & Hst).
    eapply Forall_forall in Hc; [|exact Hs]. unfold has_status in *. congruence. }
  destruct (Nat.ltb_spec 0 (count_status "processing" found)) as [Hp|Hp].
  { split; [done|]. intros (Hall & _). exfalso.
    apply count_status_any, Exists_exists in Hp as (s & Hs & Hst).
    eapply Forall_forall in Hall; [|exact Hs]. unfold has_status in *.
    destruct Hall; congruence. }
  destruct (Nat.ltb_spec 0 (count_status "pending" found)) as [Hq|Hq].
  { split; [done|]. intros (Hall & _). exfalso.
    apply count_status_any, Exists_exists in Hq as (s & Hs & Hst).
    eapply Forall_forall in Hall; [|exact Hs]. unfold has_status in *.
    destruct Hall; congruence. }
  split; [intros _|done].
  assert (Hfinished : Forall (fun s => has_status "completed" s \/
                                       has_status "failed" s) found).
  { apply Forall_forall. intros s Hs.
    eapply Forall_forall in Hknown as Hst; [|exact Hs].
    assert (Hnp : ~ has_status "processing" s).
    { intros Hst'. assert (0 < count_status "processing" found); [|lia].
      apply count_status_any, Exists_exists. eauto. }
    assert (Hnq : ~ has_status "pending" s).
    { intros Hst'. assert (0 < count_status "pending" found); [|lia].
      apply count_status_any, Exists_exists. eauto. }
    unfold has_status in *.
    repeat (apply elem_of_cons in Hst as [Hst|Hst]; [auto; try done|]).
    by apply elem_of_nil in Hst. }
  split; [done|]. split.
  - rewrite count_status_all in Hf. apply not_Forall_Exists in Hf; [|apply _].
    apply Exists_exists in Hf as (s & Hs & Hnot). apply Exists_exists.
    exists s. split; [done|]. eapply Forall_forall in Hfinished; [|exact Hs].
    by destruct Hfinished.
  - rewrite count_status_all in Hc. apply not_Forall_Exists in Hc; [|apply _].
    apply Exists_exists in Hc as (s & Hs & Hnot). apply Exists_exists.
    exists s. split; [done|]. eapply Forall_forall in Hfinished; [|exact Hs].
    by destruct Hfinished.
Qed.

End Routes.

(** *** Concrete runs *)

(** Stand-ins for [thermal_processor], to run the routes on concrete
    requests. *)
Definition toy_batch_id (n : nat) : string := "batch-" +:+ pretty n.

Definition toy_hash (content : string) : string := "sha256:" +:+ content.

Definition toy_save_path (name batch : string) : string :=
  "static/thermal_images/" +:+ batch +:+ "/" +:+ name.

(** [ALLOWED_IMAGE_TYPES] and [MAX_FILE_SIZE] of [config.py]. *)
Definition ALLOWED_IMAGE_TYPES : list string :=
  [".jpg"; ".jpeg"; ".png"; ".tiff"; ".bmp"].
Definition MAX_FILE_SIZE : N := 50 * 1024 * 1024.

Definition ends_with (suffix s : string) : bool :=
  String.prefix (String.rev suffix) (String.rev s).

(** Modelled from the spec: [thermal_processor.validate_image_file] is not
    among the sources; the specification has it "validate extension against
    an allow-list and size against a maximum". *)
Definition allow_list_validate (name : string) (size : nat) : bool * string :=
  if negb (existsb (fun ext => ends_with ext name) ALLOWED_IMAGE_TYPES)
  then (false, "File type not allowed")
  else if (MAX_FILE_SIZE <? N.of_nat size)%N
       then (false, "File too large")
       else (true, "Valid file").

Definition no_metadata : ImageMetadata :=
  {| camera_model := None; camera_software_version := None;
     image_width := None; image_height := None;
     latitude := None; longitude := None; altitude := None;
     gps_timestamp := None; md_capture_timestamp := None;
     camera_settings := None |}.

(** The upload route with the stand-ins: storage and metadata extraction
    never fail. *)
Definition toy_upload (files : list UploadFile) (current_user : User)
  : Act World HTTPException UploadResponse :=
  upload_thermal_images toy_batch_id allow_list_validate toy_hash
    toy_save_path (fun _ _ _ => Return tt) (fun _ => Return no_metadata)
    (fun _ _ _ => Return None) files (Some 34%Z) None current_user.

Definition toy_run (files : list UploadFile) (current_user : User)
    (w : World) : Run :=
  upload_run toy_batch_id allow_list_validate toy_hash
    toy_save_path (fun _ _ _ => Return tt) (fun _ => Return no_metadata)
    (fun _ _ _ => Return None) files (Some 34%Z) None current_user w.

Definition empty_db : World :=
  {| scans := []; next_id := 1; substations := []; storage := [];
     batches_created := 0; tasks := []; now := 1000 |}.

Definition inspector : User :=
  {| user_id := 7; username := "inspector"; can_view_all_data := false |}.

Definition image (name content : string) : UploadFile :=
  {| uf_filename := name; uf_read := Return content |}.

(** The scenario of the specification: three files, the second a
    byte-for-byte duplicate of the first, the third with an unsupported
    extension. *)
Example scenario_duplicate_and_bad_extension :
  let files := [image "a.jpg" "abc"; image "b.jpg" "abc"; image "c.txt" "xyz"] in
  (toy_upload files inspector empty_db).1
  = Return {| ur_batch_id := "batch-0"; total_files := 3;
              ur_successful_uploads := 1; ur_failed_uploads := 1;
              ur_processing_status := "queued";
              ur_message := "Batch batch-0: 1 files uploaded successfully, 1 failed. Processing started." |} /\
  upload_results (toy_run files inspector empty_db)
  = [ {| fus_filename := "a.jpg"; fus_status := "uploaded";
         fus_message := "Successfully uploaded and queued for processing";
         thermal_scan_id := Some 1 |};
      {| fus_filename := "b.jpg"; fus_status := "skipped";
         fus_message := "Duplicate file already processed";
         thermal_scan_id := Some 1 |};
      {| fus_filename := "c.txt"; fus_status := "failed";
         fus_message := "File type not allowed";
         thermal_scan_id := None |} ].
Proof. vm_compute. split; reflexivity. Qed.

(** A storage that fails for the file named "first.jpg" only. *)
Definition flaky_run (files : list UploadFile) (current_user : User)
    (w : World) : Run :=
  upload_run toy_batch_id allow_list_validate toy_hash toy_save_path
    (fun _ name _ => if bool_decide (name = "first.jpg")
                     then Raise "No space left on device" else Return tt)
    (fun _ => Return no_metadata) (fun _ _ _ => Return None)
    files (Some 34%Z) None current_user w.

(** C5, as the specification states it, fails, in two ways.  Two files with the
    same bytes, the first persisted as a record, the second with a name that
    validation rejects: the second is reported "failed", not "skipped", it
    refers to no record, and the failed count goes up.  And two files with
    the same bytes of which the first fails in storage: no record exists
    when the second is reached, so the second is reported "uploaded", with a
    record of its own. *)
Lemma identical_bytes_not_skipped :
  uf_read (image "a.jpg" "abc") = uf_read (image "a.txt" "abc") /\
  upload_results
    (toy_run [image "a.jpg" "abc"; image "a.txt" "abc"] inspector empty_db)
  = [ {| fus_filename := "a.jpg"; fus_status := "uploaded";
         fus_message := "Successfully uploaded and queued for processing";
         thermal_scan_id := Some 1 |};
      {| fus_filename := "a.txt"; fus_status := "failed";
         fus_message := "File type not allowed";
         thermal_scan_id := None |} ] /\
  failed_uploads
    (toy_run [image "a.jpg" "abc"; image "a.txt" "abc"] inspector empty_db) = 1 /\
  upload_results
    (flaky_run [image "first.jpg" "abc"; image "second.jpg" "abc"]
       inspector empty_db)
  = [ {| fus_filename := "first.jpg"; fus_status := "failed";
         fus_message := "Processing error: No space left on device";
         thermal_scan_id := None |};
      {| fus_filename := "second.jpg"; fus_status := "uploaded";
         fus_message := "Successfully uploaded and queued for processing";
         thermal_scan_id := Some 1 |} ].
Proof. vm_compute. repeat split. Qed.

Lemma duplicate_content_is_skipped_witness :
  exists scan,
    file_hash scan = toy_hash "abc" /\
    upload_results
      (toy_run [image "a.jpg" "abc"; image "b.jpg" "abc"] inspector empty_db) !! 1
    = Some {| fus_filename := "b.jpg"; fus_status := "skipped";
              fus_message := "Duplicate file already processed";
              thermal_scan_id := Some (id scan) |}.
Proof.
  destruct (duplicate_content_is_skipped toy_batch_id allow_list_validate
              toy_hash toy_save_path (fun _ _ _ => Return tt)
              (fun _ => Return no_metadata) (fun _ _ _ => Return None))
    as (_ & _ & Hpair).
  destruct (Hpair [] (image "a.jpg" "abc") [] (image "b.jpg" "abc") []
              (Some 34%Z) None inspector empty_db "abc" "Valid file"
              {| fus_filename := "a.jpg"; fus_status := "uploaded";
                 fus_message := "Successfully uploaded and queued for processing";
                 thermal_scan_id := Some 1 |})
    as (scan & _ & Hhash & _ & Hskipped & _).
  - reflexivity.
  - reflexivity.
  - vm_compute. reflexivity.
  - constructor.
  - vm_compute. reflexivity.
  - cbn. discriminate.
  - exists scan. split; [exact Hhash|exact Hskipped].
Defined.

(** C7, as the specification states it, fails: of three files the second is a
    duplicate of the first, so two records are persisted and they carry the
    sequence numbers 1 and 3, not a contiguous range. *)
Lemma sequence_numbers_have_gaps :
  length [image "a.jpg" "abc"; image "b.jpg" "abc"; image "c.jpg" "xyz"] = 3 /\
  batch_sequence <$>
    scans (toy_upload [image "a.jpg" "abc"; image "b.jpg" "abc";
                       image "c.jpg" "xyz"] inspector empty_db).2
  = [1; 3].
Proof. vm_compute. split; reflexivity. Qed.

Lemma sequence_numbers_are_file_positions_witness :
  [image "a.jpg" "abc"; image "c.jpg" "xyz"] <> [] /\
  length [image "a.jpg" "abc"; image "c.jpg" "xyz"] <= 5000 /\
  exists resp w' new,
    toy_upload [image "a.jpg" "abc"; image "c.jpg" "xyz"] inspector empty_db
      = (Return resp, w') /\
    scans w' = scans empty_db ++ new /\
    StronglySorted (fun a b => batch_sequence a < batch_sequence b) new.
Proof.
  assert (Hne : [image "a.jpg" "abc"; image "c.jpg" "xyz"] <> []) by discriminate.
  assert (Hlen : length [image "a.jpg" "abc"; image "c.jpg" "xyz"] <= 5000)
    by (cbn; lia).
  split; [exact Hne|]. split; [exact Hlen|].
  destruct (sequence_numbers_are_file_positions toy_batch_id allow_list_validate
              toy_hash toy_save_path (fun _ _ _ => Return tt)
              (fun _ => Return no_metadata) (fun _ _ _ => Return None)
              [image "a.jpg" "abc"; image "c.jpg" "xyz"] (Some 34%Z) None
              inspector empty_db Hne Hlen)
    as (resp & w' & new & Hrun & Hscans & _ & _ & Hsorted & _).
  exists resp, w', new. split; [exact Hrun|]. split; [exact Hscans|exact Hsorted].
Defined.

Lemma request_checks_and_per_file_errors_witness :
  5000 < length (replicate (S 5000) (image "a.jpg" "abc")) /\
  toy_upload (replicate (S 5000) (image "a.jpg" "abc")) inspector empty_db
  = (Raise {| status_code := 400;
              detail := "Maximum 5000 files allowed per batch" |}, empty_db).
Proof.
  assert (Hlen : 5000 < length (replicate (S 5000) (image "a.jpg" "abc")))
    by (rewrite length_replicate; lia).
  split; [exact Hlen|].
  destruct (request_checks_and_per_file_errors toy_batch_id allow_list_validate
              toy_hash toy_save_path (fun _ _ _ => Return tt)
              (fun _ => Return no_metadata) (fun _ _ _ => Return None))
    as (_ & Hmany & _).
  exact (Hmany _ (Some 34%Z) None inspector empty_db Hlen).
Defined.

(** A database with one batch of two records, uploaded by two users. *)
Definition scan_of (key : nat) (owner : nat) (sequence : nat) (status : string)
    (created : Z) (completed : option Z) : ThermalScan :=
  {| id := key; original_filename := "img" +:+ pretty key +:+ ".jpg";
     file_path := "static/thermal_images/batch-0/img" +:+ pretty key +:+ ".jpg";
     file_size_bytes := 3; file_hash := "sha256:" +:+ pretty key;
     image_metadata := no_metadata; capture_timestamp := created;
     ambient_temperature := Some 34%Z; batch_id := "batch-0";
     batch_sequence := sequence; substation_id := None; uploaded_by := owner;
     notes := None; processing_status := status; created_at := created;
     processing_completed_at := completed; processing_time_str := "" |}.

Definition tracked_db : World :=
  {| scans := [scan_of 1 7 1 "completed" 10 (Some 50%Z);
               scan_of 2 8 2 "processing" 5 None];
     next_id := 3; substations := []; storage := [];
     batches_created := 1; tasks := []; now := 1000 |}.

Definition outsider : User :=
  {| user_id := 9; username := "outsider"; can_view_all_data := false |}.

(** A batch whose only record failed, three time units before it was
    created by the clock of the database, and a batch with one record
    completed at 50 and one failed at 60. *)
Definition failed_db : World :=
  {| scans := [scan_of 1 7 1 "failed" 10 (Some 7%Z)];
     next_id := 2; substations := []; storage := [];
     batches_created := 1; tasks := []; now := 1000 |}.

Definition mixed_db : World :=
  {| scans := [scan_of 1 7 1 "completed" 10 (Some 50%Z);
               scan_of 2 7 2 "failed" 12 (Some 60%Z)];
     next_id := 3; substations := []; storage := [];
     batches_created := 1; tasks := []; now := 1000 |}.

(** C6, as the specification states it, fails in its last sentence.  No
    record of the first batch has completed (the status is "failed", none
    is processed), yet a duration is reported, and it is negative.  In the
    second batch the latest completion time among completed records is 50,
    which gives 40; the duration reported is 50, from the completion time
    of the failed record. *)
Lemma duration_ignores_record_status :
  (get_batch_status pretty pretty "batch-0" inspector failed_db).1
  = Return {| bs_batch_id := "batch-0"; total_images := 1;
              processed_images := 0; failed_images := 1;
              bs_status := "failed"; bs_created_at := "10";
              processing_duration := Some "-3" |} /\
  (get_batch_status pretty pretty "batch-0" inspector mixed_db).1
  = Return {| bs_batch_id := "batch-0"; total_images := 2;
              processed_images := 1; failed_images := 1;
              bs_status := "unknown"; bs_created_at := "10";
              processing_duration := Some "50" |}.
Proof. vm_compute. split; reflexivity. Qed.

Lemma batch_status_derivation_witness :
  scans_of_batch "batch-0" tracked_db <> [] /\
  access_denied inspector (scans_of_batch "batch-0" tracked_db) = false /\
  exists answer,
    get_batch_status pretty pretty "batch-0" inspector tracked_db
      = (Return answer, tracked_db) /\
    total_images answer = 2 /\
    bs_status answer = "processing" /\
    processing_duration answer = Some "45".
Proof.
  assert (Hne : scans_of_batch "batch-0" tracked_db <> [])
    by (vm_compute; discriminate).
  assert (Hacc : access_denied inspector (scans_of_batch "batch-0" tracked_db)
                 = false) by (vm_compute; reflexivity).
  split; [exact Hne|]. split; [exact Hacc|].
  destruct (batch_status_derivation pretty pretty "batch-0" inspector tracked_db
              Hne Hacc) as (answer & Hrun & Htotal & Hstatus & _).
  exists answer. split; [exact Hrun|]. split; [exact Htotal|].
  split; [rewrite Hstatus; vm_compute; reflexivity|].
  vm_compute in Hrun. injection Hrun as <-. reflexivity.
Defined.

Lemma batch_access_control_witness :
  get_batch_status pretty pretty "batch-0" outsider tracked_db
    = (Raise {| status_code := 403; detail := "Access denied to this batch" |},
       tracked_db) /\
  delete_batch "no-such-batch" outsider tracked_db
    = (Raise {| status_code := 404; detail := "Batch not found" |}, tracked_db).
Proof.
  split.
  - destruct (batch_access_control pretty pretty "batch-0" outsider tracked_db)
      as [_ Hfound].
    destruct Hfound as [Hdenied _]; [vm_compute; discriminate|reflexivity|].
    apply Hdenied.
    intros s Hin. vm_compute in Hin.
    apply elem_of_cons in Hin as [->|Hin]; [vm_compute; discriminate|].
    apply list_elem_of_singleton in Hin as ->. vm_compute. discriminate.
  - destruct (batch_access_control pretty pretty "no-such-batch" outsider tracked_db)
      as [Hmissing _].
    apply Hmissing. vm_compute. reflexivity.
Defined.

(** The request of the scenario above. *)
Definition scenario_files : list UploadFile :=
  [image "a.jpg" "abc"; image "b.jpg" "abc"; image "c.txt" "xyz"].

Lemma every_file_is_accounted_for_witness :
  scenario_files <> [] /\ length scenario_files <= 5000 /\
  exists resp w' entries,
    toy_upload scenario_files inspector empty_db = (Return resp, w') /\
    fus_filename <$> entries = ["a.jpg"; "b.jpg"; "c.txt"] /\
    ur_successful_uploads resp + ur_failed_uploads resp
      + count_entries "skipped" entries = total_files resp /\
    count_entries "skipped" entries = 1.
Proof.
  assert (Hne : scenario_files <> []) by discriminate.
  assert (Hlen : length scenario_files <= 5000) by (cbn; lia).
  split; [exact Hne|]. split; [exact Hlen|].
  destruct (every_file_is_accounted_for toy_batch_id allow_list_validate
              toy_hash toy_save_path (fun _ _ _ => Return tt)
              (fun _ => Return no_metadata) (fun _ _ _ => Return None)
              scenario_files (Some 34%Z) None inspector empty_db Hne Hlen)
    as (resp & w' & entries & Hrun & Hres & Hnames & _ & _ & Hsum).
  exists resp, w', entries. split; [exact Hrun|]. split; [exact Hnames|].
  split; [exact Hsum|]. rewrite <- Hres. vm_compute. reflexivity.
Defined.

Lemma upload_entries_refer_to_records_witness :
  exists resp w',
    toy_upload scenario_files inspector empty_db = (Return resp, w') /\
    Forall (fun e => is_Some (thermal_scan_id e) -> fus_status e <> "failed")
      (upload_results (toy_run scenario_files inspector empty_db)).
Proof.
  destruct (upload_entries_refer_to_records toy_batch_id allow_list_validate
              toy_hash toy_save_path (fun _ _ _ => Return tt)
              (fun _ => Return no_metadata) (fun _ _ _ => Return None)
              scenario_files (Some 34%Z) None inspector empty_db)
    as (resp & w' & Hrun & Hrefers).
  - discriminate.
  - cbn. lia.
  - exists resp, w'. split; [exact Hrun|].
    eapply Forall_impl; [exact Hrefers|]. cbn. intros e He [i Hi].
    rewrite Hi in He. exact (proj1 He).
Defined.

Lemma processing_is_queued_iff_records_were_created_witness :
  exists resp w' new,
    toy_upload scenario_files inspector empty_db = (Return resp, w') /\
    scans w' = scans empty_db ++ new /\
    batches_created w' = 1.
Proof.
  destruct (processing_is_queued_iff_records_were_created toy_batch_id
              allow_list_validate toy_hash toy_save_path
              (fun _ _ _ => Return tt) (fun _ => Return no_metadata)
              (fun _ _ _ => Return None)
              scenario_files (Some 34%Z) None inspector empty_db)
    as (resp & w' & new & Hrun & Hscans & Hbatches & _).
  - discriminate.
  - cbn. lia.
  - exists resp, w', new. split; [exact Hrun|]. split; [exact Hscans|exact Hbatches].
Defined.

Lemma status_of_a_fresh_batch_witness :
  exists resp w',
    toy_upload scenario_files inspector empty_db = (Return resp, w') /\
    (0 < ur_successful_uploads resp ->
     get_batch_status pretty pretty (ur_batch_id resp) inspector w'
     = (Return {| bs_batch_id := ur_batch_id resp;
                  total_images := ur_successful_uploads resp;
                  processed_images := 0;
                  failed_images := 0;
                  bs_status := "pending";
                  bs_created_at := pretty (now empty_db);
                  processing_duration := None |}, w')).
Proof.
  destruct (status_of_a_fresh_batch toy_batch_id allow_list_validate
              toy_hash toy_save_path (fun _ _ _ => Return tt)
              (fun _ => Return no_metadata) (fun _ _ _ => Return None)
              pretty pretty
              scenario_files (Some 34%Z) None inspector empty_db)
    as (resp & w' & Hrun & _ & Hpending).
  - discriminate.
  - cbn. lia.
  - intros s Hs. by apply elem_of_nil in Hs.
  - exists resp, w'. split; [exact Hrun|exact Hpending].
Defined.

(** The database after one image has been uploaded. *)
Definition one_image_db : World :=
  (toy_upload [image "a.jpg" "abc"] inspector empty_db).2.

Lemma resubmitted_content_changes_nothing_witness :
  exists resp,
    toy_upload [image "again.jpg" "abc"] outsider one_image_db
      = (Return resp, allocate_batch one_image_db) /\
    ur_processing_status resp = "idle".
Proof.
  destruct (resubmitted_content_changes_nothing toy_batch_id allow_list_validate
              toy_hash toy_save_path (fun _ _ _ => Return tt)
              (fun _ => Return no_metadata) (fun _ _ _ => Return None)
              [image "again.jpg" "abc"] (Some 34%Z) None outsider one_image_db)
    as (resp & Hrun & _ & _ & Hidle & _).
  - discriminate.
  - cbn. lia.
  - constructor; [|constructor].
    exists "abc", "Valid file". split; [reflexivity|].
    split; [vm_compute; reflexivity|]. vm_compute. constructor.
  - exists resp. split; [exact Hrun|exact Hidle].
Defined.

Lemma batch_listing_is_ordered_witness :
  exists ordered,
    ordered ≡ₚ scans_of_batch "batch-0" tracked_db /\
    StronglySorted in_sequence ordered.
Proof.
  edestruct (batch_listing_is_ordered "batch-0" inspector tracked_db)
    as (ordered & Hperm & Hsorted & _).
  - vm_compute. reflexivity.
  - exists ordered. split; [exact Hperm|exact Hsorted].
Defined.

Lemma delete_batch_removes_exactly_the_batch_witness :
  exists w',
    delete_batch "batch-0" inspector tracked_db
      = (Return "Batch batch-0 deleted successfully", w') /\
    scans_of_batch "batch-0" w' = [] /\
    get_batch_status pretty pretty "batch-0" inspector w'
      = (Raise {| status_code := 404; detail := "Batch not found" |}, w').
Proof.
  destruct (delete_batch_removes_exactly_the_batch pretty pretty "batch-0"
              inspector tracked_db)
    as (w' & Hrun & Hgone & _ & _ & Hstatus & _).
  - vm_compute. discriminate.
  - exists w'. split; [exact Hrun|]. split; [exact Hgone|apply Hstatus].
Defined.

(** A batch that ended with one record completed and one failed. *)
Definition finished_batch : list ThermalScan :=
  [scan_of 1 7 1 "completed" 10 (Some 50%Z);
   scan_of 2 7 2 "failed" 12 (Some 60%Z)].

Lemma unknown_status_means_mixed_outcome_witness :
  finished_batch <> [] /\ overall_status finished_batch = "unknown".
Proof.
  split; [discriminate|].
  apply (unknown_status_means_mixed_outcome finished_batch).
  - discriminate.
  - constructor; [|constructor; [|constructor]].
    + change ("completed" ∈ ["pending"; "processing"; "completed"; "failed"]).
      do 2 apply list_elem_of_further. apply list_elem_of_here.
    + change ("failed" ∈ ["pending"; "processing"; "completed"; "failed"]).
      do 3 apply list_elem_of_further. apply list_elem_of_here.
  - split; [|split].
    + constructor; [left; reflexivity|].
      constructor; [right; reflexivity|constructor].
    + apply Exists_cons_hd. reflexivity.
    + apply Exists_cons_tl, Exists_cons_hd. reflexivity.
Defined.

End Upload.

(** ** Accounts ([api/auth.py]) *)

Module Auth.

(** The columns of [app.models.user.User] that [register_user] sets and the
    routes read.  The class itself is not among the sources: what it
    computes (the permission properties [is_admin] and [is_engineer],
    [set_password], the default of [is_active]) is taken as given below. *)
Record User : Type := mkUser {
  id : nat;
  username : string;
  email : string;
  full_name : string;
  employee_id : option string;
  department : option string;
  designation : option string;
  role : string;
  hashed_password : string;
  is_active : bool
}.

(** [UserCreate] *)
Record UserCreate : Type := mkUserCreate {
  uc_username : string;
  uc_email : string;
  uc_password : string;
  uc_full_name : string;
  uc_employee_id : option string;
  uc_department : option string;
  uc_designation : option string;
  uc_role : string
}.

(** The table of users and the next primary key. *)
Record World : Type := mkWorld {
  users : list User;
  next_id : nat
}.

Definition forbidden (message : string) : Upload.HTTPException :=
  {| Upload.status_code := 403; Upload.detail := message |}.
Definition bad_request (message : string) : Upload.HTTPException :=
  {| Upload.status_code := 400; Upload.detail := message |}.
Definition not_found (message : string) : Upload.HTTPException :=
  {| Upload.status_code := 404; Upload.detail := message |}.

(** [user.is_active = not user.is_active] *)
Definition toggle (u : User) : User :=
  {| id := id u; username := username u; email := email u;
     full_name := full_name u; employee_id := employee_id u;
     department := department u; designation := designation u;
     role := role u; hashed_password := hashed_password u;
     is_active := negb (is_active u) |}.

(** Updating the row that [query.filter(..).first()] returned. *)
Fixpoint update_first (p : User -> bool) (f : User -> User) (l : list User)
  : list User :=
  match l with
  | [] => []
  | u :: rest => if p u then f u :: rest else u :: update_first p f rest
  end.

Section Routes.

Variable is_admin : User -> bool.          (* current_user.is_admin *)
Variable is_engineer : User -> bool.       (* current_user.is_engineer *)
Variable set_password : string -> string.  (* what set_password stores *)
Variable default_is_active : bool.         (* the column default *)

(** [(User.username == user_data.username) | (User.email == user_data.email)] *)
Definition same_name_or_email (user_data : UserCreate) (u : User) : bool :=
  bool_decide (username u = uc_username user_data)
  || bool_decide (email u = uc_email user_data).

(** [register_user] *)
Definition register_user (user_data : UserCreate) (current_user : User)
  : Act World Upload.HTTPException User :=
  fun w =>
  (* Check if current user is admin *)
  if negb (is_admin current_user)
  then (Raise (forbidden "Only admins can register new users"), w)
  else
    (* Check if username or email already exists *)
    match List.find (same_name_or_email user_data) (users w) with
    | Some _ => (Raise (bad_request "Username or email already registered"), w)
    | None =>
      (* Create new user *)
      let new_user :=
        {| id := next_id w;
           username := uc_username user_data;
           email := uc_email user_data;
           full_name := uc_full_name user_data;
           employee_id := uc_employee_id user_data;
           department := uc_department user_data;
           designation := uc_designation user_data;
           role := uc_role user_data;
           hashed_password := set_password (uc_password user_data);
           is_active := default_is_active |} in
      (Return new_user,
       {| users := users w ++ [new_user]; next_id := S (next_id w) |})
    end.

(** [list_users]; [skip] and [limit] are taken non-negative. *)
Definition list_users (skip limit : nat) (current_user : User)
  : Act World Upload.HTTPException (list User) :=
  fun w =>
  if negb (is_engineer current_user)
  then (Raise (forbidden "Engineer access required"), w)
  else (Return (take limit (drop skip (users w))), w).

(** [activate_user] *)
Definition activate_user (user_id : nat) (current_user : User)
  : Act World Upload.HTTPException string :=
  fun w =>
  if negb (is_admin current_user)
  then (Raise (forbidden "Admin access required"), w)
  else
    match List.find (fun u => id u =? user_id) (users w) with
    | None => (Raise (not_found "User not found"), w)
    | Some user =>
      let user' := toggle user in
      (Return ("User " +:+ (if is_active user' then "activated" else "deactivated")
               +:+ " successfully"),
       {| users := update_first (fun u => id u =? user_id) toggle (users w);
          next_id := next_id w |})
    end.

Lemma find_same_name_or_email user_data l :
  List.find (same_name_or_email user_data) l = None <->
  (uc_username user_data ∉ username <$> l) /\
  (uc_email user_data ∉ email <$> l).
Proof.
  induction l as [|u l IH]; cbn.
  - split; [|done]. intros _. split; apply not_elem_of_nil.
  - unfold same_name_or_email at 1.
    rewrite !not_elem_of_cons.
    case_bool_decide as Hn; cbn.
    + split; [done|]. by intros [[? _] _].
    + case_bool_decide as He; cbn.
      * split; [done|]. by intros [_ [? _]].
      * rewrite IH. split.
        -- intros [? ?]. repeat split; auto.
        -- intros [[_ ?] [_ ?]]. by split.
Qed.

(** X19: who can register whom.  [register_user] returns a user exactly when
    the requester is an admin and neither the user name nor the e-mail
    address of the request is in the table; then the table gets one more
    row, the returned one, with the requested name and address and the
    next id.  A request from anyone else gets 403 whatever the table holds,
    a request for a taken name or address gets 400, and both leave the
    table as it was. *)
Theorem registration_succeeds_iff_admin_and_new (user_data : UserCreate)
    (current_user : User) (w : World) :
  ((exists u, (register_user user_data current_user w).1 = Return u) <->
   is_admin current_user = true /\
   (uc_username user_data ∉ username <$> users w) /\
   (uc_email user_data ∉ email <$> users w)) /\
  (forall u, (register_user user_data current_user w).1 = Return u ->
     users (register_user user_data current_user w).2 = users w ++ [u] /\
     username u = uc_username user_data /\ email u = uc_email user_data /\
     id u = next_id w) /\
  (forall e, (register_user user_data current_user w).1 = Raise e ->
     (register_user user_data current_user w).2 = w /\
     (is_admin current_user = false ->
      e = forbidden "Only admins can register new users") /\
     (is_admin current_user = true ->
      e = bad_request "Username or email already registered")).
Proof.
  unfold register_user.
  pose proof (find_same_name_or_email user_data (users w)) as Hfind.
  destruct (is_admin current_user); cbn.
  - destruct (List.find (same_name_or_email user_data) (users w)) as [u0|]; cbn.
    + split; [|split].
      * split; [by intros [u ?]|]. intros (_ & Hn & He).
        assert (Some u0 = None) by (apply Hfind; by split). done.
      * done.
      * intros e [= <-]. split; [done|]. split; done.
    + split; [|split].
      * split; [|eauto]. intros _. split; [done|]. by apply Hfind.
      * intros u [= <-]. done.
      * done.
  - split; [|split].
    + split; [by intros [u ?]|]. by intros [? _].
    + done.
    + intros e [= <-]. split; [done|]. split; done.
Qed.

(** X20: registration keeps accounts apart.  If user names are pairwise
    distinct and e-mail addresses are pairwise distinct before
    [register_user], they are so after it, whatever the request and whoever
    sends it; and the rows that were in the table stay, in place. *)
Theorem registration_keeps_accounts_unique (user_data : UserCreate)
    (current_user : User) (w : World) :
  NoDup (username <$> users w) -> NoDup (email <$> users w) ->
  NoDup (username <$> users (register_user user_data current_user w).2) /\
  NoDup (email <$> users (register_user user_data current_user w).2) /\
  users w `prefix_of` users (register_user user_data current_user w).2.
Proof.
  intros Hnames Hmails. unfold register_user.
  pose proof (find_same_name_or_email user_data (users w)) as Hfind.
  destruct (is_admin current_user); cbn; [|done].
  destruct (List.find (same_name_or_email user_data) (users w)) as [u0|]; cbn;
    [done|].
  destruct Hfind as [Hnew _]. destruct (Hnew eq_refl) as [Hn He].
  rewrite !fmap_app. cbn. split; [|split].
  - apply NoDup_app. split; [done|]. split; [|apply NoDup_singleton].
    intros x Hx Hx'. apply list_elem_of_singleton in Hx'. by subst.
  - apply NoDup_app. split; [done|]. split; [|apply NoDup_singleton].
    intros x Hx Hx'. apply list_elem_of_singleton in Hx'. by subst.
  - by eexists.
Qed.

Lemma toggle_involutive u : toggle (toggle u) = u.
Proof. destruct u. unfold toggle. cbn. by rewrite negb_involutive. Qed.

Lemma update_first_toggle_twice user_id l :
  update_first (fun u => id u =? user_id) toggle
    (update_first (fun u => id u =? user_id) toggle l) = l.
Proof.
  induction l as [|u l IH]; cbn; [done|].
  destruct (id u =? user_id) eqn:Hid; cbn.
  - rewrite Hid. by rewrite toggle_involutive.
  - by rewrite Hid, IH.
Qed.

Lemma find_after_toggle user_id l :
  List.find (fun u => id u =? user_id)
    (update_first (fun u => id u =? user_id) toggle l)
  = toggle <$> List.find (fun u => id u =? user_id) l.
Proof.
  induction l as [|u l IH]; cbn; [done|].
  destruct (id u =? user_id) eqn:Hid; cbn.
  - by rewrite Hid.
  - by rewrite Hid, IH.
Qed.

Lemma update_first_spec user_id l user :
  List.find (fun u => id u =? user_id) l = Some user ->
  exists before after,
    l = before ++ user :: after /\
    (forall u, u ∈ before -> id u <> user_id) /\
    update_first (fun u => id u =? user_id) toggle l
      = before ++ toggle user :: after.
Proof.
  induction l as [|u l IH]; cbn; [done|].
  destruct (Nat.eqb_spec (id u) user_id) as [Hid|Hid].
  - intros [= <-]. exists [], l. repeat split; try done.
    intros u0 Hu0. by apply elem_of_nil in Hu0.
  - intros Hfind. destruct (IH Hfind) as (before & after & -> & Hbefore & Hupd).
    exists (u :: before), after. cbn. rewrite Hupd. repeat split; try done.
    intros u0 Hu0. apply elem_of_cons in Hu0 as [->|Hu0]; auto.
Qed.

(** X21: [activate_user] is a switch.  For an admin and an id that is in the
    table, the call flips [is_active] of the first row with that id and
    touches nothing else, and it says "activated" exactly when the row was
    inactive.  A second call with the same id undoes the first: the table
    is back as it was, and the two messages differ. *)
Theorem activation_is_a_switch (user_id : nat) (current_user : User) (w : World) :
  is_admin current_user = true ->
  (exists u, u ∈ users w /\ id u = user_id) ->
  exists user before after,
    users w = before ++ user :: after /\
    id user = user_id /\
    (forall u, u ∈ before -> id u <> user_id) /\
    activate_user user_id current_user w
    = (Return (if is_active user then "User deactivated successfully"
               else "User activated successfully"),
       {| users := before ++ toggle user :: after; next_id := next_id w |}) /\
    activate_user user_id current_user
      (activate_user user_id current_user w).2
    = (Return (if is_active user then "User activated successfully"
               else "User deactivated successfully"), w).
Proof.
  intros Hadmin (u0 & Hin & Hid0).
  destruct (List.find (fun u => id u =? user_id) (users w)) as [user|] eqn:Hfind.
  2: { exfalso. apply list_elem_of_In in Hin.
       pose proof (find_none _ _ Hfind u0 Hin) as Hno. cbn in Hno.
       apply Nat.eqb_neq in Hno. done. }
  destruct (update_first_spec user_id (users w) user Hfind)
    as (before & after & Hsplit & Hbefore & Hupd).
  assert (Hid : id user = user_id).
  { apply find_some in Hfind as [_ Heq]. by apply Nat.eqb_eq in Heq. }
  exists user, before, after. split; [done|]. split; [done|]. split; [done|].
  assert (Hfirst : activate_user user_id current_user w
            = (Return (if is_active user then "User deactivated successfully"
                       else "User activated successfully"),
               {| users := before ++ toggle user :: after;
                  next_id := next_id w |})).
  { unfold activate_user. rewrite Hadmin, Hfind, Hupd. cbn.
    by destruct (is_active user). }
  split; [exact Hfirst|]. rewrite Hfirst. cbn [snd].
  unfold activate_user. rewrite Hadmin. cbn [negb users next_id].
  rewrite <- Hupd, find_after_toggle, Hfind, update_first_toggle_twice. cbn.
  destruct w as [us n]. cbn. by destruct (is_active user).
Qed.

Lemma take_add {A} (a b : nat) (l : list A) :
  take (a + b) l = take a l ++ take b (drop a l).
Proof.
  revert l. induction a as [|a IH]; intros l; [done|].
  destruct l as [|x l]; cbn; [by rewrite take_nil|]. by rewrite IH.
Qed.

(** X22: pages of [list_users] fit together.  For an engineer, a page holds
    at most [limit] users and leaves the table alone, and the page that
    starts where another ends continues it: the two pages, one after the
    other, are the page of the combined length, so paging through the table
    neither repeats nor drops a user. *)
Theorem user_pages_fit_together (skip limit more : nat) (current_user : User)
    (w : World) :
  is_engineer current_user = true ->
  exists page next,
    list_users skip limit current_user w = (Return page, w) /\
    list_users (skip + limit) more current_user w = (Return next, w) /\
    list_users skip (limit + more) current_user w = (Return (page ++ next), w) /\
    length page <= limit /\
    (skip + limit <= length (users w) -> length page = limit).
Proof.
  intros Heng. unfold list_users. rewrite Heng. cbn.
  eexists _, _. split; [reflexivity|]. split; [reflexivity|].
  split; [|split].
  - by rewrite take_add, drop_drop.
  - rewrite length_take. lia.
  - intros Hlen. rewrite length_take, length_drop. lia.
Qed.

End Routes.

(** *** Concrete runs *)

Definition by_role (r : string) (u : User) : bool := bool_decide (role u = r).

Definition account (key : nat) (name r : string) (active : bool) : User :=
  {| id := key; username := name; email := name +:+ "@example.com";
     full_name := name; employee_id := None; department := None;
     designation := None; role := r; hashed_password := "hash:" +:+ name;
     is_active := active |}.

Definition staff : World :=
  {| users := [account 1 "root" "admin" true;
               account 2 "asha" "engineer" true;
               account 3 "ravi" "operator" false];
     next_id := 4 |}.

Definition newcomer : UserCreate :=
  {| uc_username := "meera"; uc_email := "meera@example.com";
     uc_password := "secret"; uc_full_name := "Meera";
     uc_employee_id := None; uc_department := None; uc_designation := None;
     uc_role := "operator" |}.

Lemma registration_keeps_accounts_unique_witness :
  NoDup (username <$> users staff) /\
  NoDup (username <$>
           users (register_user (by_role "admin") (fun p => "hash:" +:+ p) true
                    newcomer (account 1 "root" "admin" true) staff).2) /\
  length (users (register_user (by_role "admin") (fun p => "hash:" +:+ p) true
                   newcomer (account 1 "root" "admin" true) staff).2) = 4.
Proof.
  assert (Hnames : NoDup (username <$> users staff))
    by (apply (bool_decide_unpack _); vm_compute; exact I).
  assert (Hmails : NoDup (email <$> users staff))
    by (apply (bool_decide_unpack _); vm_compute; exact I).
  split; [exact Hnames|].
  destruct (registration_keeps_accounts_unique (by_role "admin")
              (fun p => "hash:" +:+ p) true newcomer
              (account 1 "root" "admin" true) staff Hnames Hmails)
    as (Hafter & _ & _).
  split; [exact Hafter|reflexivity].
Defined.

Lemma activation_is_a_switch_witness :
  activate_user (by_role "admin") 3 (account 1 "root" "admin" true) staff
  = (Return "User activated successfully",
     {| users := [account 1 "root" "admin" true;
                  account 2 "asha" "engineer" true;
                  account 3 "ravi" "operator" true];
        next_id := 4 |}) /\
  activate_user (by_role "admin") 3 (account 1 "root" "admin" true)
    (activate_user (by_role "admin") 3 (account 1 "root" "admin" true) staff).2
  = (Return "User deactivated successfully", staff).
Proof.
  destruct (activation_is_a_switch (by_role "admin") 3
              (account 1 "root" "admin" true) staff)
    as (user & before & after & Hsplit & Hid & Hbefore & Hfirst & Hsecond).
  - reflexivity.
  - exists (account 3 "ravi" "operator" false). split; [|reflexivity].
    do 2 apply list_elem_of_further. apply list_elem_of_here.
  - assert (Huser : is_active user = false).
    { assert (Hrun : (activate_user (by_role "admin") 3
                        (account 1 "root" "admin" true) staff).1
                     = Return "User activated successfully")
        by (vm_compute; reflexivity).
      rewrite Hfirst in Hrun. cbn in Hrun.
      destruct (is_active user); [discriminate Hrun|reflexivity]. }
    rewrite Huser in Hsecond. split; [vm_compute; reflexivity|exact Hsecond].
Defined.

Lemma user_pages_fit_together_witness :
  exists page next,
    list_users (by_role "engineer") 0 2 (account 2 "asha" "engineer" true) staff
      = (Return page, staff) /\
    list_users (by_role "engineer") 2 2 (account 2 "asha" "engineer" true) staff
      = (Return next, staff) /\
    page ++ next = users staff.
Proof.
  destruct (user_pages_fit_together (by_role "engineer") 0 2 2
              (account 2 "asha" "engineer" true) staff)
    as (page & next & Hpage & Hnext & Hboth & _).
  - reflexivity.
  - exists page, next. split; [exact Hpage|]. split; [exact Hnext|].
    vm_compute in Hboth. injection Hboth as Hboth. symmetry. exact Hboth.
Defined.

End Auth.

(** ** Report generation ([services/intelligent_report_generator.py]) *)

Module Reports.

(** [json_report]: the dictionary built by [_generate_json_report], or
    [{'error': str(e)}]. *)
Inductive JsonReport : Type :=
| JsonData (content : string)
| JsonError (message : string).

(** The values stored in [report_data]. *)
Inductive Value : Type :=
| VNone
| VStr (s : string)
| VFormats (formats : list string)
| VJson (j : JsonReport).

(** The generators, in the trace of calls. *)
Inductive Call : Type :=
| CallJson | CallSummary | CallTechnical | CallPdf | CallLlm | CallEmail.

(** [report_data['formats_generated'].append(name)] *)
Definition add_format (name : string) (report_data : gmap string Value)
  : gmap string Value :=
  alter (fun v => match v with
                  | VFormats formats => VFormats (formats ++ [name])
                  | _ => v
                  end) "formats_generated" report_data.

(** The dictionary returned by the outer handler. *)
Definition error_data (e : string) : gmap string Value :=
  {[ "error" := VStr e; "report_id" := VNone;
     "formats_generated" := VFormats [] ]}.

Section Generator.

(** The ORM classes [AIAnalysis], [ThermalScan], [Substation], [Detection]
    are not among the sources; the generator reads these attributes. *)
Variables (Analysis Scan Substation Detection : Type).
Variable thermal_scan : Analysis -> option Scan.      (* analysis.thermal_scan *)
Variable scan_substation : Scan -> option Substation. (* scan.substation *)
Variable detections : Analysis -> list Detection.     (* analysis.detections *)
Variable scan_id : Scan -> nat.                       (* scan.id *)
(** The clock, as [ThermalInspectionReport.__init__] formats it. *)
Variable stamp : string.     (* datetime.now().strftime('%Y%m%d_%H%M%S') *)
Variable iso_now : string.   (* generation_timestamp.isoformat() *)
(** Whether the optional imports at the top of the module worked. *)
Variable REPORTLAB_AVAILABLE : bool.
Variable LLM_AVAILABLE : bool.

(** [ThermalInspectionReport] *)
Record ThermalInspectionReport : Type := mkReport {
  analysis : Analysis;
  scan : Scan;
  substation : option Substation;
  report_id : string;
  generation_timestamp : string
}.

(** What the [try] block of each generator computes for a report and its
    detections: the text, or the exception it raises (as [str(e)]). *)
Variable json_body :
  ThermalInspectionReport -> list Detection -> Outcome string string.
Variable summary_body :
  ThermalInspectionReport -> list Detection -> Outcome string string.
Variable technical_body :
  ThermalInspectionReport -> list Detection -> Outcome string string.
Variable pdf_body :
  ThermalInspectionReport -> list Detection -> Outcome string string.
Variable llm_body :
  ThermalInspectionReport -> list Detection -> Outcome string string.
Variable email_body :
  ThermalInspectionReport -> list Detection -> Outcome string string.

Local Abbreviation G := (Act (list Call) string).
Local Open Scope act_scope.

Definition called (c : Call) : G unit := modify (fun trace => trace ++ [c]).

(** [ThermalInspectionReport.__init__]: [scan.id] raises on [None]. *)
Definition new_report (a : Analysis) (s : option Scan)
    (sub : option Substation) : Outcome string ThermalInspectionReport :=
  match s with
  | None => Raise "'NoneType' object has no attribute 'id'"
  | Some sc =>
    Return {| analysis := a; scan := sc; substation := sub;
              report_id := "TIR_" +:+ stamp +:+ "_" +:+ pretty (scan_id sc);
              generation_timestamp := iso_now |}
  end.

Definition _generate_json_report (report : ThermalInspectionReport)
    (dets : list Detection) : G JsonReport :=
  called CallJson >>
  try_except (let! json_data := lift (json_body report dets) in
              ret (JsonData json_data))
             (fun e => ret (JsonError e)).

Definition _generate_professional_summary (report : ThermalInspectionReport)
    (dets : list Detection) : G string :=
  called CallSummary >>
  try_except (lift (summary_body report dets))
             (fun e => ret ("Failed to generate professional summary: " +:+ e)).

Definition _generate_technical_analysis (report : ThermalInspectionReport)
    (dets : list Detection) : G string :=
  called CallTechnical >>
  try_except (lift (technical_body report dets))
             (fun e => ret ("Failed to generate technical analysis: " +:+ e)).

(** The handler of [_generate_pdf_report] logs and re-raises. *)
Definition _generate_pdf_report (report : ThermalInspectionReport)
    (dets : list Detection) : G string :=
  called CallPdf >>
  try_except (lift (pdf_body report dets)) (fun e => raise e).

Definition _generate_llm_enhanced_report (report : ThermalInspectionReport)
    (dets : list Detection) : G string :=
  called CallLlm >>
  try_except (lift (llm_body report dets))
             (fun _ => ret "LLM-enhanced analysis not available").

Definition _generate_email_summary (report : ThermalInspectionReport)
    (dets : list Detection) : G string :=
  called CallEmail >>
  try_except (lift (email_body report dets))
             (fun e => ret ("Failed to generate email summary: " +:+ e)).

(** [generate_comprehensive_report] *)
Definition generate_comprehensive_report (a : Analysis)
  : G (gmap string Value) :=
  try_except
    ((* Get related data *)
     let s := thermal_scan a in
     let sub := match s with Some sc => scan_substation sc | None => None end in
     let dets := detections a in
     (* Create report object *)
     let! report := lift (new_report a s sub) in
     let report_data : gmap string Value :=
       {[ "report_id" := VStr (report_id report);
          "generation_timestamp" := VStr (generation_timestamp report);
          "formats_generated" := VFormats [] ]} in
     (* 1. Generate JSON summary *)
     let! json_report := _generate_json_report report dets in
     let report_data :=
       add_format "json" (<["json_report" := VJson json_report]> report_data) in
     (* 2. Generate professional text summary *)
     let! text_summary := _generate_professional_summary report dets in
     let report_data :=
       add_format "text"
         (<["professional_summary" := VStr text_summary]> report_data) in
     (* 3. Generate technical analysis *)
     let! technical := _generate_technical_analysis report dets in
     let report_data :=
       add_format "technical"
         (<["technical_analysis" := VStr technical]> report_data) in
     (* 4. Generate PDF if available *)
     let! report_data :=
       (if REPORTLAB_AVAILABLE
        then let! pdf_path := _generate_pdf_report report dets in
             ret (add_format "pdf" (<["pdf_path" := VStr pdf_path]> report_data))
        else ret report_data) in
     (* 5. Generate LLM-enhanced report if available *)
     let! report_data :=
       (if LLM_AVAILABLE
        then let! llm_report := _generate_llm_enhanced_report report dets in
             ret (add_format "llm"
                    (<["llm_enhanced_summary" := VStr llm_report]> report_data))
        else ret report_data) in
     (* 6. Generate email-ready summary *)
     let! email_summary := _generate_email_summary report dets in
     ret (add_format "email"
            (<["email_summary" := VStr email_summary]> report_data)))
    (fun e => ret (error_data e)).

(** The formats of a report that was generated. *)
Definition all_formats : list string :=
  ["json"; "text"; "technical"]
  ++ (if REPORTLAB_AVAILABLE then ["pdf"] else [])
  ++ (if LLM_AVAILABLE then ["llm"] else [])
  ++ ["email"].

(** What a generator that swallows its exceptions stores. *)
Definition or_message (prefix : string) (o : Outcome string string) : string :=
  match o with Return text => text | Raise e => prefix +:+ e end.

Lemma json_report_returns report dets trace :
  _generate_json_report report dets trace
  = (Return (match json_body report dets with
             | Return c => JsonData c
             | Raise e => JsonError e
             end), trace ++ [CallJson]).
Proof.
  unfold _generate_json_report, called. act_unfold.
  by destruct (json_body report dets).
Qed.

Lemma professional_summary_returns report dets trace :
  _generate_professional_summary report dets trace
  = (Return (or_message "Failed to generate professional summary: "
               (summary_body report dets)), trace ++ [CallSummary]).
Proof.
  unfold _generate_professional_summary, called. act_unfold.
  by destruct (summary_body report dets).
Qed.

Lemma technical_analysis_returns report dets trace :
  _generate_technical_analysis report dets trace
  = (Return (or_message "Failed to generate technical analysis: "
               (technical_body report dets)), trace ++ [CallTechnical]).
Proof.
  unfold _generate_technical_analysis, called. act_unfold.
  by destruct (technical_body report dets).
Qed.

Lemma pdf_report_outcome report dets trace :
  _generate_pdf_report report dets trace
  = (pdf_body report dets, trace ++ [CallPdf]).
Proof.
  unfold _generate_pdf_report, called. act_unfold.
  by destruct (pdf_body report dets).
Qed.

Lemma llm_report_returns report dets trace :
  _generate_llm_enhanced_report report dets trace
  = (Return (match llm_body report dets with
             | Return text => text
             | Raise _ => "LLM-enhanced analysis not available"
             end), trace ++ [CallLlm]).
Proof.
  unfold _generate_llm_enhanced_report, called. act_unfold.
  by destruct (llm_body report dets).
Qed.

Lemma email_summary_returns report dets trace :
  _generate_email_summary report dets trace
  = (Return (or_message "Failed to generate email summary: "
               (email_body report dets)), trace ++ [CallEmail]).
Proof.
  unfold _generate_email_summary, called. act_unfold.
  by destruct (email_body report dets).
Qed.


Definition report_of (a : Analysis) (sc : Scan) : ThermalInspectionReport :=
  {| analysis := a; scan := sc; substation := scan_substation sc;
     report_id := "TIR_" +:+ stamp +:+ "_" +:+ pretty (scan_id sc);
     generation_timestamp := iso_now |}.

(** The dictionary of a report whose PDF step did not fail. *)
Definition sections (a : Analysis) (sc : Scan) (pdf : option string)
  : gmap string Value :=
  let report := report_of a sc in
  let dets := detections a in
  let d0 : gmap string Value :=
    {[ "report_id" := VStr (report_id report);
       "generation_timestamp" := VStr (generation_timestamp report);
       "formats_generated" := VFormats [] ]} in
  let d1 := add_format "json"
    (<["json_report" := VJson (match json_body report dets with
                               | Return c => JsonData c
                               | Raise e => JsonError e
                               end)]> d0) in
  let d2 := add_format "text"
    (<["professional_summary" :=
         VStr (or_message "Failed to generate professional summary: "
                 (summary_body report dets))]> d1) in
  let d3 := add_format "technical"
    (<["technical_analysis" :=
         VStr (or_message "Failed to generate technical analysis: "
                 (technical_body report dets))]> d2) in
  let d4 := match pdf with
            | Some path => add_format "pdf" (<["pdf_path" := VStr path]> d3)
            | None => d3
            end in
  let d5 := if LLM_AVAILABLE
            then add_format "llm"
                   (<["llm_enhanced_summary" :=
                        VStr (match llm_body report dets with
                              | Return text => text
                              | Raise _ => "LLM-enhanced analysis not available"
                              end)]> d4)
            else d4 in
  add_format "email"
    (<["email_summary" :=
         VStr (or_message "Failed to generate email summary: "
                 (email_body report dets))]> d5).

Lemma generate_eq a trace :
  generate_comprehensive_report a trace =
  match thermal_scan a with
  | None => (Return (error_data "'NoneType' object has no attribute 'id'"), trace)
  | Some sc =>
    let before := trace ++ [CallJson; CallSummary; CallTechnical] in
    let after := (if LLM_AVAILABLE then [CallLlm] else []) ++ [CallEmail] in
    if REPORTLAB_AVAILABLE
    then match pdf_body (report_of a sc) (detections a) with
         | Return path =>
           (Return (sections a sc (Some path)), before ++ [CallPdf] ++ after)
         | Raise e => (Return (error_data e), before ++ [CallPdf])
         end
    else (Return (sections a sc None), before ++ after)
  end.
Proof.
  unfold generate_comprehensive_report, sections.
  unfold try_except at 1. unfold bind, lift, ret.
  destruct (thermal_scan a) as [sc|]; cbn [new_report]; [|done].
  fold (report_of a sc).
  rewrite json_report_returns, professional_summary_returns,
    technical_analysis_returns.
  destruct REPORTLAB_AVAILABLE.
  - rewrite pdf_report_outcome.
    destruct (pdf_body (report_of a sc) (detections a)) as [path|e].
    + destruct LLM_AVAILABLE.
      * rewrite llm_report_returns, email_summary_returns.
        cbn. by rewrite <- !app_assoc.
      * rewrite email_summary_returns. cbn. by rewrite <- !app_assoc.
    + cbn. by rewrite <- !app_assoc.
  - destruct LLM_AVAILABLE.
    + rewrite llm_report_returns, email_summary_returns.
      cbn. by rewrite <- !app_assoc.
    + rewrite email_summary_returns. cbn. by rewrite <- !app_assoc.
Qed.

Lemma sections_lookup a sc pdf :
  let report := report_of a sc in
  let dets := detections a in
  sections a sc pdf !! "error" = None /\
  sections a sc pdf !! "report_id" = Some (VStr (report_id report)) /\
  sections a sc pdf !! "formats_generated"
    = Some (VFormats (["json"; "text"; "technical"]
                      ++ match pdf with Some _ => ["pdf"] | None => [] end
                      ++ (if LLM_AVAILABLE then ["llm"] else [])
                      ++ ["email"])) /\
  sections a sc pdf !! "json_report"
    = Some (VJson (match json_body report dets with
                   | Return c => JsonData c
                   | Raise e => JsonError e
                   end)) /\
  sections a sc pdf !! "professional_summary"
    = Some (VStr (or_message "Failed to generate professional summary: "
                    (summary_body report dets))) /\
  sections a sc pdf !! "technical_analysis"
    = Some (VStr (or_message "Failed to generate technical analysis: "
                    (technical_body report dets))) /\
  sections a sc pdf !! "email_summary"
    = Some (VStr (or_message "Failed to generate email summary: "
                    (email_body report dets))) /\
  sections a sc pdf !! "pdf_path" = VStr <$> pdf.
Proof.
  unfold sections. destruct pdf, LLM_AVAILABLE; vm_compute; done.
Qed.

(** X23: a report is generated whole or not at all, and the call never
    raises.  The dictionary returned either has no "error" key, the id of
    the report, and in [formats_generated] the full list of formats in
    order (json, text, technical, pdf if ReportLab is installed, llm if the
    LLM client is installed, email); or it is the error dictionary, with
    [report_id] set to [None] and no format at all.  The error dictionary
    is returned exactly when the analysis has no scan or the PDF step
    raises, and carries the message of that exception. *)
Theorem report_is_whole_or_empty (a : Analysis) (trace : list Call) :
  exists data,
    (generate_comprehensive_report a trace).1 = Return data /\
    ((data !! "error" = None /\
      data !! "formats_generated" = Some (VFormats all_formats) /\
      exists sc, thermal_scan a = Some sc /\
        data !! "report_id"
        = Some (VStr ("TIR_" +:+ stamp +:+ "_" +:+ pretty (scan_id sc))) /\
        (REPORTLAB_AVAILABLE = true ->
         exists path, pdf_body (report_of a sc) (detections a) = Return path))
     \/
     (exists e,
        data = error_data e /\
        (thermal_scan a = None \/
         REPORTLAB_AVAILABLE = true /\
         exists sc, thermal_scan a = Some sc /\
           pdf_body (report_of a sc) (detections a) = Raise e))).
Proof.
  rewrite generate_eq. unfold all_formats.
  destruct (thermal_scan a) as [sc|] eqn:Hscan.
  2: { eexists. split; [reflexivity|]. right. eexists. split; [reflexivity|].
       by left. }
  cbn zeta. destruct REPORTLAB_AVAILABLE eqn:Hpdf.
  - destruct (pdf_body (report_of a sc) (detections a)) as [path|e] eqn:Hbody.
    + eexists. split; [reflexivity|]. left.
      destruct (sections_lookup a sc (Some path)) as (He & Hid & Hf & _).
      split; [exact He|]. split; [exact Hf|].
      exists sc. split; [done|]. split; [exact Hid|]. eauto.
    + eexists. split; [reflexivity|]. right. exists e. split; [done|].
      right. split; [done|]. eauto.
  - eexists. split; [reflexivity|]. left.
    destruct (sections_lookup a sc None) as (He & Hid & Hf & _).
    split; [exact He|]. split; [exact Hf|].
    exists sc. split; [done|]. split; [exact Hid|]. done.
Qed.

(** X24: a PDF that cannot be built costs the whole report.  With ReportLab
    installed, if the PDF step raises, the JSON report, the summary and the
    technical analysis that were generated before it are dropped, the LLM
    and the e-mail generator are never called, and the answer holds nothing
    but the message of the PDF exception. *)
Theorem pdf_failure_discards_the_report (a : Analysis) (sc : Scan)
    (e : string) (trace : list Call) :
  thermal_scan a = Some sc ->
  REPORTLAB_AVAILABLE = true ->
  pdf_body (report_of a sc) (detections a) = Raise e ->
  generate_comprehensive_report a trace
  = (Return (error_data e),
     trace ++ [CallJson; CallSummary; CallTechnical; CallPdf]) /\
  error_data e !! "json_report" = None /\
  error_data e !! "professional_summary" = None /\
  error_data e !! "technical_analysis" = None /\
  error_data e !! "formats_generated" = Some (VFormats []).
Proof.
  intros Hscan Hpdf Hbody. rewrite generate_eq, Hscan, Hpdf. cbn zeta.
  rewrite Hbody, <- app_assoc. done.
Qed.

(** X25: a failure of any other section stays inside that section.  When
    the analysis has a scan and the PDF step does not raise (or ReportLab
    is missing), the report is generated with every format listed, also
    when the JSON, summary, technical, LLM or e-mail generator raised: the
    section of a generator that raised holds the message of its exception
    ([{'error': ..}] for JSON, a "Failed to generate ..." line for the
    texts), there is no "error" key, and "json", "text", "technical" and
    "email" are in [formats_generated] all the same. *)
Theorem section_failures_are_masked (a : Analysis) (sc : Scan)
    (trace : list Call) :
  thermal_scan a = Some sc ->
  (REPORTLAB_AVAILABLE = false \/
   exists path, pdf_body (report_of a sc) (detections a) = Return path) ->
  exists data,
    (generate_comprehensive_report a trace).1 = Return data /\
    data !! "error" = None /\
    data !! "formats_generated" = Some (VFormats all_formats) /\
    data !! "json_report"
      = Some (VJson (match json_body (report_of a sc) (detections a) with
                     | Return c => JsonData c
                     | Raise e => JsonError e
                     end)) /\
    data !! "professional_summary"
      = Some (VStr (match summary_body (report_of a sc) (detections a) with
                    | Return text => text
                    | Raise e => "Failed to generate professional summary: " +:+ e
                    end)) /\
    data !! "technical_analysis"
      = Some (VStr (match technical_body (report_of a sc) (detections a) with
                    | Return text => text
                    | Raise e => "Failed to generate technical analysis: " +:+ e
                    end)) /\
    data !! "email_summary"
      = Some (VStr (match email_body (report_of a sc) (detections a) with
                    | Return text => text
                    | Raise e => "Failed to generate email summary: " +:+ e
                    end)).
Proof.
  intros Hscan Hpdf. rewrite generate_eq, Hscan. cbn zeta. unfold all_formats.
  destruct REPORTLAB_AVAILABLE.
  - destruct Hpdf as [?|[path Hbody]]; [done|]. rewrite Hbody.
    destruct (sections_lookup a sc (Some path))
      as (He & _ & Hf & Hj & Hs & Ht & Hm & _).
    eexists. split; [reflexivity|]. done.
  - destruct (sections_lookup a sc None)
      as (He & _ & Hf & Hj & Hs & Ht & Hm & _).
    eexists. split; [reflexivity|]. done.
Qed.

End Generator.

(** *** Concrete runs *)

(** An analysis is the id of its scan, if it has one; there are no
    detections and no substation.  The texts are fixed, the PDF step and
    the summary are given. *)
Definition toy_generate (pdf summary : Outcome string string)
    (a : option nat) : Act (list Call) string (gmap string Value) :=
  generate_comprehensive_report (option nat) nat string unit
    (fun a => a) (fun _ => None) (fun _ => []) (fun sc => sc)
    "20250101_120000" "2025-01-01T12:00:00" true false
    (fun _ _ => Return "{}") (fun _ _ => summary)
    (fun _ _ => Return "TECHNICAL ANALYSIS REPORT")
    (fun _ _ => pdf) (fun _ _ => Return "INTELLIGENT ANALYSIS SUMMARY")
    (fun _ _ => Return "Subject: NORMAL")
    a.

Lemma pdf_failure_discards_the_report_witness :
  toy_generate (Raise "Permission denied") (Return "THERMAL INSPECTION REPORT")
    (Some 7) []
  = (Return (error_data "Permission denied"),
     [CallJson; CallSummary; CallTechnical; CallPdf]).
Proof.
  destruct (pdf_failure_discards_the_report (option nat) nat string unit
              (fun a => a) (fun _ => None) (fun _ => []) (fun sc => sc)
              "20250101_120000" "2025-01-01T12:00:00" true false
              (fun _ _ => Return "{}")
              (fun _ _ => Return "THERMAL INSPECTION REPORT")
              (fun _ _ => Return "TECHNICAL ANALYSIS REPORT")
              (fun _ _ => Raise "Permission denied")
              (fun _ _ => Return "INTELLIGENT ANALYSIS SUMMARY")
              (fun _ _ => Return "Subject: NORMAL")
              (Some 7) 7 "Permission denied" [])
    as (Hrun & _).
  - reflexivity.
  - reflexivity.
  - reflexivity.
  - exact Hrun.
Defined.

Lemma section_failures_are_masked_witness :
  exists data,
    (toy_generate (Return "static/reports/TIR_20250101_120000_7.pdf")
       (Raise "division by zero") (Some 7) []).1 = Return data /\
    data !! "error" = None /\
    data !! "formats_generated"
      = Some (VFormats ["json"; "text"; "technical"; "pdf"; "email"]) /\
    data !! "professional_summary"
      = Some (VStr "Failed to generate professional summary: division by zero").
Proof.
  destruct (section_failures_are_masked (option nat) nat string unit
              (fun a => a) (fun _ => None) (fun _ => []) (fun sc => sc)
              "20250101_120000" "2025-01-01T12:00:00" true false
              (fun _ _ => Return "{}")
              (fun _ _ => Raise "division by zero")
              (fun _ _ => Return "TECHNICAL ANALYSIS REPORT")
              (fun _ _ => Return "static/reports/TIR_20250101_120000_7.pdf")
              (fun _ _ => Return "INTELLIGENT ANALYSIS SUMMARY")
              (fun _ _ => Return "Subject: NORMAL")
              (Some 7) 7 [])
    as (data & Hrun & Herr & Hformats & _ & Hsummary & _).
  - reflexivity.
  - right. eexists. reflexivity.
  - exists data. split; [exact Hrun|]. split; [exact Herr|].
    split; [exact Hformats|exact Hsummary].
Defined.

End Reports.
